(** * flight_mil_ita: the military-flight poller and its report publisher

    A shallow embedding of [flight_mil_ita.py] (polygon file, geofence
    test, feed fetch with retries, debounced alert loop, CSV file) and
    of [publish_adsb_report.py] (SQLite event store, period bounds),
    with the properties of the specification stated over it.

    Conventions of the embedding.
    - Python floats (latitudes, longitudes, epoch times) are exact
      rationals [Q]; the literal [1e-12] is the rational 1/10^12.
    - A Python exception is the [Raise] case of [result]; a function that
      cannot raise returns its value directly.
    - The dictionary [last_mil_alert] is a [gmap string Q].
    - What the programs read from outside (HTTP responses, the clock, the
      CSV file) is an explicit argument.
    - The library calls the programs rely on are written out where a
      statement depends on them: [datetime.date] arithmetic and
      [strftime], the [None] that [csv.DictReader] gives for a missing
      field, and for SQLite the primary key of a rowid table, [substr],
      [BETWEEN], [ORDER BY] and [datetime()]. *)

From Stdlib Require Import ZArith QArith Qabs Qround List String Ascii Bool.
From Stdlib Require Import Sorted Lia Lqa.
From stdpp Require Import gmap strings.
Import ListNotations.

Local Open Scope Q_scope.
Local Set Warnings "-register-all".
Local Set Warnings "-at-level-200-changed".

(** ** Exceptions and the error monad *)

Inductive py_exn : Type :=
  | ZeroDivisionError
  | IndexError
  | ValueError
  | OverflowError
  | TypeError
  | OperationalError
  | RequestException (msg : string).

Inductive result (A : Type) : Type :=
  | Ok (a : A)
  | Raise (e : py_exn).
Arguments Ok {A} a.
Arguments Raise {A} e.

Definition rbind {A B : Type} (r : result A) (k : A -> result B) : result B :=
  match r with
  | Ok a => k a
  | Raise e => Raise e
  end.

Notation "'let!' x ':=' r 'in' k" := (rbind r (fun x => k))
  (at level 10, x pattern, r at level 100, k at level 200).

Definition raises {A : Type} (r : result A) : Prop :=
  exists e, r = Raise e.

Definition returns {A : Type} (r : result A) : Prop :=
  exists a, r = Ok a.

(** ** Rational comparisons as the booleans Python computes *)

Definition Qgtb (a b : Q) : bool := negb (Qle_bool a b).
Definition Qltb (a b : Q) : bool := negb (Qle_bool b a).
Definition Qis_zero (a : Q) : bool := Qeq_bool a 0.

(** [a / b] on floats: Python raises [ZeroDivisionError] when [b] is zero. *)
Definition py_div (a b : Q) : result Q :=
  if Qis_zero b then Raise ZeroDivisionError else Ok (a / b).

(** Truthiness of an [Optional[float]]: [None] and [0.0] are falsy. *)
Definition truthy (v : option Q) : bool :=
  match v with
  | None => false
  | Some q => negb (Qis_zero q)
  end.

(** ** GeofenceFilter ([flight_mil_ita.py], lines 99-124) *)

Module Geofence.

(** A vertex is a pair [(lat, lon)]; a ring is a list of vertices; a
    polygon is a list of rings, the outer ring first, then the holes. *)
Definition vertex : Type := (Q * Q)%type.
Definition ring : Type := list vertex.
Definition polygon : Type := list ring.

Definition EPS : Q := 1 # 1000000000000.

(** The two conjuncts of the [if] of [point_in_ring].  Python's [and]
    evaluates the second conjunct, and so the division, only when the
    first one is true. *)
Definition straddles (y yi yj : Q) : bool :=
  xorb (Qgtb yi y) (Qgtb yj y).

Definition edge_test (point vi vj : vertex) : result bool :=
  let x := snd point in
  let y := fst point in
  let yi := fst vi in let xi := snd vi in
  let yj := fst vj in let xj := snd vj in
  if straddles y yi yj then
    let! q := py_div ((xj - xi) * (y - yi)) (yj - yi + EPS) in
    Ok (Qltb x (q + xi))
  else Ok false.

(** [ring[k]]; the index is always in range in [point_in_ring], an
    out-of-range one would raise [IndexError]. *)
Definition ring_get (r : ring) (k : nat) : result vertex :=
  match nth_error r k with
  | Some v => Ok v
  | None => Raise IndexError
  end.

(** The body of [for i in range(n)], over the remaining indices. *)
Fixpoint ring_loop (point : vertex) (r : ring) (n : nat)
    (indices : list nat) (inside : bool) : result bool :=
  match indices with
  | [] => Ok inside
  | i :: rest =>
      let! vi := ring_get r i in
      let! vj := ring_get r (Nat.modulo (i + 1) n) in
      let! crossing := edge_test point vi vj in
      ring_loop point r n rest (if crossing then negb inside else inside)
  end.

Definition point_in_ring (point : vertex) (r : ring) : result bool :=
  let n := length r in
  ring_loop point r n (seq 0 n) false.

(** [for hole in polygon[1:]]: the first hole containing the point ends
    the loop with [False]. *)
Fixpoint holes_loop (point : vertex) (holes : list ring) : result bool :=
  match holes with
  | [] => Ok true
  | hole :: rest =>
      let! inside := point_in_ring point hole in
      if inside then Ok false else holes_loop point rest
  end.

Definition point_in_polygon (point : vertex) (poly : polygon) : result bool :=
  match poly with
  | [] => Ok false
  | outer :: holes =>
      let! inside := point_in_ring point outer in
      if negb inside then Ok false else holes_loop point holes
  end.

(** [any(point_in_polygon(pt, poly) for poly in polygons)]: stops at the
    first polygon containing the point. *)
Fixpoint any_polygon (pt : vertex) (polygons : list polygon) : result bool :=
  match polygons with
  | [] => Ok false
  | poly :: rest =>
      let! inside := point_in_polygon pt poly in
      if inside then Ok true else any_polygon pt rest
  end.

Definition in_any_polygon (lat lon : option Q) (polygons : list polygon)
    : result bool :=
  match lat, lon with
  | Some la, Some lo => any_polygon (la, lo) polygons
  | _, _ => Ok false
  end.

Definition unit_square : polygon :=
  [[(0, 0); (0, 1); (1, 1); (1, 0)]].

End Geofence.

(** ** Poller ([flight_mil_ita.py], lines 126-151 and 201-285) *)

Module Poller.

Definition HTTP_RETRIES : nat := 2.
Definition HTTP_BACKOFF : Q := 2.

(** A decoded JSON value, as [r.json()] returns it. *)
Inductive json : Type :=
  | JNull
  | JBool (b : bool)
  | JNum (q : Q)
  | JStr (s : string)
  | JList (items : list json)
  | JDict (entries : list (string * json)).

Definition json_truthy (v : json) : bool :=
  match v with
  | JNull => false
  | JBool b => b
  | JNum q => negb (Qis_zero q)
  | JStr s => negb (String.eqb s "")
  | JList items => match items with [] => false | _ => true end
  | JDict entries => match entries with [] => false | _ => true end
  end.

Fixpoint dict_get (key : string) (entries : list (string * json)) : option json :=
  match entries with
  | [] => None
  | (k, v) :: rest => if String.eqb k key then Some v else dict_get key rest
  end.

Fixpoint dict_set (key : string) (v : json) (entries : list (string * json))
    : list (string * json) :=
  match entries with
  | [] => [(key, v)]
  | (k, w) :: rest =>
      if String.eqb k key then (k, v) :: rest else (k, w) :: dict_set key v rest
  end.

(** [if isinstance(ac, dict): ac["force_mil"] = True] *)
Definition force_mil (ac : json) : json :=
  match ac with
  | JDict entries => JDict (dict_set "force_mil" (JBool true) entries)
  | other => other
  end.

Fixpoint chars_of (s : string) : list json :=
  match s with
  | EmptyString => []
  | String c rest => JStr (String c EmptyString) :: chars_of rest
  end.

(** [for ac in data: ...; return data], seen as the sequence the caller's
    [for ac in merged] walks through: the items of a list, the keys of a
    dict, the characters of a string.  Anything else is not iterable. *)
Definition mark_and_return (data : json) : result (list json) :=
  match data with
  | JList items => Ok (map force_mil items)
  | JDict entries => Ok (map (fun kv => JStr (fst kv)) entries)
  | JStr s => Ok (chars_of s)
  | _ => Raise TypeError
  end.

(** What one [requests.get(...)], [raise_for_status()] and [r.json()]
    come to: an exception (of class [Exception], the ones the [except]
    clause catches) or a decoded body. *)
Inductive http_outcome : Type :=
  | HttpError (e : py_exn)
  | HttpJson (body : json).

(** The body of the [try] of [fetch_military]. *)
Definition try_body (o : http_outcome) : result (list json) :=
  match o with
  | HttpError e => Raise e
  | HttpJson body =>
      let raw := if json_truthy body then body else JDict [] in
      match raw with
      | JDict entries =>
          match dict_get "ac" entries with
          | Some data => mark_and_return data
          | None =>
              match dict_get "aircraft" entries with
              | Some data => mark_and_return data
              | None => Ok []
              end
          end
      | JList _ => mark_and_return raw
      | _ => Ok []
      end
  end.

Record fetch_outcome : Type := {
  fetched : list json;
  (** the [[WARN] Fetch militare fallito] line, with [last_exc] *)
  warning : option (option py_exn);
  (** the arguments of the [time.sleep] calls, in order *)
  backoff : list Q
}.

(** [for attempt in range(HTTP_RETRIES + 1)], over the remaining attempts.
    [feed k] is the outcome of the request of attempt [k]. *)
Fixpoint fetch_loop (feed : nat -> http_outcome) (attempts : list nat)
    (last_exc : option py_exn) (slept : list Q) : fetch_outcome :=
  match attempts with
  | [] => {| fetched := []; warning := Some last_exc; backoff := slept |}
  | attempt :: rest =>
      match try_body (feed attempt) with
      | Ok data => {| fetched := data; warning := None; backoff := slept |}
      | Raise e =>
          let slept' :=
            if (attempt <? HTTP_RETRIES)%nat
            then slept ++ [HTTP_BACKOFF * inject_Z (Z.of_nat (attempt + 1))]
            else slept in
          fetch_loop feed rest (Some e) slept'
      end
  end.

(** [fetch_military].  The call of [api_rate_guard] before the loop (a
    lock file and a real-time sleep) is outside the embedding. *)
Definition fetch_military (feed : nat -> http_outcome) : fetch_outcome :=
  fetch_loop feed (seq 0 (HTTP_RETRIES + 1)) None [].

Record Aircraft : Type := {
  hex : string;
  flight : string;
  lat : option Q;
  lon : option Q;
  alt_baro : option Z;
  gs : option Q;
  ts : option Q;
  reg : option string;
  squawk : option string;
  ground : option bool;
  model_desc : option string;
  model_t : option string;
  is_mil : bool
}.

(** [for ac in merged: try: aircraft.append(Aircraft(...)) except
    Exception: continue].  The field-by-field decoding of a raw record is
    the parameter [decode]; a record it raises on is skipped. *)
Fixpoint normalize_all (decode : json -> result Aircraft) (merged : list json)
    : list Aircraft :=
  match merged with
  | [] => []
  | raw :: rest =>
      match decode raw with
      | Ok ac => ac :: normalize_all decode rest
      | Raise _ => normalize_all decode rest
      end
  end.

(** The condition of the list comprehension of line 241; [and] stops at
    the first falsy operand. *)
Definition geofence_keep (polygons : list Geofence.polygon) (ac : Aircraft)
    : result bool :=
  if truthy (lat ac) then
    if truthy (lon ac) then Geofence.in_any_polygon (lat ac) (lon ac) polygons
    else Ok false
  else Ok false.

Fixpoint geofence_filter (polygons : list Geofence.polygon)
    (aircraft : list Aircraft) : result (list Aircraft) :=
  match aircraft with
  | [] => Ok []
  | ac :: rest =>
      let! keep := geofence_keep polygons ac in
      let! kept := geofence_filter polygons rest in
      Ok (if keep then ac :: kept else kept)
  end.

(** [if polygons: aircraft = [...]] *)
Definition geofence_step (polygons : list Geofence.polygon)
    (aircraft : list Aircraft) : result (list Aircraft) :=
  match polygons with
  | [] => Ok aircraft
  | _ :: _ => geofence_filter polygons aircraft
  end.

Definition nl : string := String (ascii_of_nat 10) EmptyString.

(** [s or ""] and [if s:] for an [Optional[str]] *)
Definition str_or_empty (o : option string) : string :=
  match o with
  | Some s => s
  | None => EmptyString
  end.

Definition str_truthy (o : option string) : bool :=
  negb (String.eqb (str_or_empty o) EmptyString).

Definition model_line (ac : Aircraft) : option string :=
  if str_truthy (model_desc ac)
  then Some (String.append "MODEL: " (str_or_empty (model_desc ac)))
  else if str_truthy (model_t ac)
  then Some (String.append "MODEL: " (str_or_empty (model_t ac)))
  else None.

Definition make_links (ac : Aircraft) : list string :=
  (if negb (String.eqb (hex ac) EmptyString) then
     [String.append "[ADSB.fi](https://globe.adsb.fi/?icao="
        (String.append (hex ac) ")");
      String.append "[ADSB Exchange](https://globe.adsbexchange.com/?icao="
        (String.append (hex ac) ")");
      String.append "[Planespotters](https://www.planespotters.net/hex/"
        (String.append (hex ac) ")")]
   else []) ++
  (if negb (String.eqb (flight ac) EmptyString) then
     [String.append "[FlightAware](https://www.flightaware.com/it-IT/flight/"
        (String.append (flight ac) ")")]
   else []) ++
  (if str_truthy (reg ac) then
     [String.append "[AirHistory](https://www.airhistory.net/marks-all/"
        (String.append (str_or_empty (reg ac)) ")");
      String.append "[JetPhotos](https://www.jetphotos.com/registration/"
        (String.append (str_or_empty (reg ac)) ")")]
   else []).

(** The value of a cell of the row dictionary handed to the CSV writer. *)
Inductive cell : Type :=
  | CStr (s : string)
  | CFloat (q : Q)
  | CInt (z : Z)
  | CBool (b : bool)
  | CNone.

Definition float_or_empty (v : option Q) : cell :=
  match v with
  | Some q => if Qis_zero q then CStr EmptyString else CFloat q
  | None => CStr EmptyString
  end.

Definition int_or_empty (v : option Z) : cell :=
  match v with
  | Some z => if Z.eqb z 0 then CStr EmptyString else CInt z
  | None => CStr EmptyString
  end.

Record event_row : Type := {
  row_first_seen_utc : cell;
  row_hex : cell;
  row_callsign : cell;
  row_reg : cell;
  row_model_t : cell;
  row_lat : cell;
  row_lon : cell;
  row_alt_ft : cell;
  row_gs_kt : cell;
  row_squawk : cell;
  row_ground : cell
}.

Definition make_row (now_str : string) (ac : Aircraft) : event_row :=
  {| row_first_seen_utc := CStr now_str;
     row_hex := CStr (hex ac);
     row_callsign := CStr (flight ac);
     row_reg := CStr (str_or_empty (reg ac));
     row_model_t := CStr (str_or_empty (model_t ac));
     row_lat := float_or_empty (lat ac);
     row_lon := float_or_empty (lon ac);
     row_alt_ft := int_or_empty (alt_baro ac);
     row_gs_kt := float_or_empty (gs ac);
     row_squawk := CStr (str_or_empty (squawk ac));
     row_ground := match ground ac with Some b => CBool b | None => CNone end |}.

Fixpoint join_lines (lines : list string) : string :=
  match lines with
  | [] => EmptyString
  | [l] => l
  | l :: rest => String.append l (String.append nl (join_lines rest))
  end.

Definition make_message (ac : Aircraft) : string :=
  let msg_lines :=
    ["MIL"%string;
     String.append "HEX: #" (hex ac);
     String.append "FLT: #"
       (if String.eqb (flight ac) EmptyString then "-"%string else flight ac)]
    ++ (if str_truthy (reg ac)
        then [String.append "REG: #" (str_or_empty (reg ac))] else [])
    ++ (match model_line ac with
        | Some ml => if String.eqb ml EmptyString then [] else [ml]
        | None => []
        end)
    ++ ["Flag: military"%string] in
  let links := make_links ac in
  join_lines (msg_lines ++
              match links with [] => [] | _ => EmptyString :: links end).

(** The state of the [for ac in aircraft] loop of [main]: the debounce
    dictionary, the rows and messages of this cycle, and (a trace kept for
    the statements) the alerts emitted, each with the [now_ts] it was
    decided at. *)
Record loop_state : Type := {
  last_mil_alert : gmap string Q;
  event_rows : list event_row;
  printed : list string;
  emitted : list (string * Q)
}.

(** [now_ts - last_mil_alert.get(ac.hex, 0) < args.mil_cooldown] *)
Definition in_cooldown (cooldown : Z) (last : gmap string Q) (h : string)
    (now_ts : Q) : bool :=
  Qltb (now_ts - default 0 (last !! h)) (inject_Z cooldown).

(** One iteration of the loop (lines 246-280), for the aircraft [ac] and
    the value [now_ts] that [time.time()] returned in it. *)
Definition alert_step (cooldown : Z) (now_str : string) (st : loop_state)
    (sighting : Aircraft * Q) : loop_state :=
  let ac := fst sighting in
  let now_ts := snd sighting in
  if in_cooldown cooldown (last_mil_alert st) (hex ac) now_ts then st
  else
    {| last_mil_alert := <[hex ac := now_ts]> (last_mil_alert st);
       event_rows := event_rows st ++ [make_row now_str ac];
       printed := printed st ++ [make_message ac];
       emitted := emitted st ++ [(hex ac, now_ts)] |}.

Definition alert_loop (cooldown : Z) (now_str : string)
    (sightings : list (Aircraft * Q)) (st : loop_state) : loop_state :=
  fold_left (alert_step cooldown now_str) sightings st.

(** [round(x)] of a float, to the nearest integer, halves to the even one. *)
Definition py_round (x : Q) : Z :=
  let f := Qfloor x in
  let r := x - inject_Z f in
  if Qltb r (1 # 2) then f
  else if Qltb (1 # 2) r then (f + 1)%Z
  else if Z.even f then f else (f + 1)%Z.

(** What one pass of the [while True] body reads from outside. *)
Record cycle_env : Type := {
  feed : nat -> http_outcome;
  t0 : Q;
  now_str : string;
  (** [clock k] is [time.time()] in iteration [k] of the alert loop *)
  clock : nat -> Q;
  t_end : Q
}.

Record cycle_outcome : Type := {
  fetch_log : fetch_outcome;
  cycle_state : loop_state;
  (** the rows given to [append_seen_csv], [None] when it is not called *)
  csv_appended : option (list event_row);
  (** the argument of the final [time.sleep] *)
  sleep_seconds : Z
}.

Definition poll_cycle (decode : json -> result Aircraft)
    (polygons : list Geofence.polygon) (cooldown interval : Z)
    (env : cycle_env) (last : gmap string Q) : result cycle_outcome :=
  let fo := fetch_military (feed env) in
  let aircraft := normalize_all decode (fetched fo) in
  let! aircraft := geofence_step polygons aircraft in
  let sightings :=
    combine aircraft (map (clock env) (seq 0 (length aircraft))) in
  let st := alert_loop cooldown (now_str env) sightings
              {| last_mil_alert := last; event_rows := [];
                 printed := []; emitted := [] |} in
  Ok {| fetch_log := fo;
        cycle_state := st;
        csv_appended :=
          match event_rows st with [] => None | rows => Some rows end;
        sleep_seconds :=
          Z.max 1 (py_round (inject_Z interval - (t_end env - t0 env))) |}.

(** The [while True] loop over the cycles whose environments are given;
    an exception leaving a cycle ends the process. *)
Fixpoint poll_loop (decode : json -> result Aircraft)
    (polygons : list Geofence.polygon) (cooldown interval : Z)
    (envs : list cycle_env) (last : gmap string Q)
    : result (list cycle_outcome) :=
  match envs with
  | [] => Ok []
  | env :: rest =>
      let! out := poll_cycle decode polygons cooldown interval env last in
      let! outs := poll_loop decode polygons cooldown interval rest
                     (last_mil_alert (cycle_state out)) in
      Ok (out :: outs)
  end.

(** All the alerts of a run, in the order they were emitted, and the
    debounce dictionary the run ends with. *)
Definition run_emitted (outs : list cycle_outcome) : list (string * Q) :=
  concat (map (fun out => emitted (cycle_state out)) outs).

Definition run_last (last : gmap string Q) (outs : list cycle_outcome)
    : gmap string Q :=
  fold_left (fun _ out => last_mil_alert (cycle_state out)) outs last.

(** An aircraft known by its address and position only. *)
Definition aircraft_at (h : string) (la lo : option Q) : Aircraft :=
  {| hex := h; flight := EmptyString; lat := la; lon := lo;
     alt_baro := None; gs := None; ts := None; reg := None; squawk := None;
     ground := None; model_desc := None; model_t := None; is_mil := true |}.

End Poller.

(** ** Calendar dates: Python's [datetime.date], as the publisher uses it *)

Module Calendar.

Local Open Scope Z_scope.

Record date : Type := { year : Z; month : Z; day : Z }.

(** A [datetime]: a date and a time of day (the time zone plays no part
    in what follows). *)
Record datetime : Type := {
  dt_date : date;
  dt_hour : Z;
  dt_minute : Z;
  dt_second : Z;
  dt_microsecond : Z
}.

Definition MAXORDINAL : Z := 3652059.

Definition is_leap (y : Z) : bool :=
  (y mod 4 =? 0) && (negb (y mod 100 =? 0) || (y mod 400 =? 0)).

Definition days_before_year (y : Z) : Z :=
  let p := y - 1 in
  p * 365 + p / 4 - p / 100 + p / 400.

Definition days_in_month (y m : Z) : Z :=
  if (m =? 2) && is_leap y then 29
  else nth (Z.to_nat m) [-1; 31; 28; 31; 30; 31; 30; 31; 31; 30; 31; 30; 31] 0.

Definition DAYS_BEFORE_MONTH : list Z :=
  [-1; 0; 31; 59; 90; 120; 151; 181; 212; 243; 273; 304; 334].

Definition days_before_month (y m : Z) : Z :=
  nth (Z.to_nat m) DAYS_BEFORE_MONTH 0
  + (if (2 <? m) && is_leap y then 1 else 0).

Definition ymd2ord (y m d : Z) : Z :=
  days_before_year y + days_before_month y m + d.

Definition DI400Y : Z := 146097.
Definition DI100Y : Z := 36524.
Definition DI4Y : Z := 1461.

Definition ord2ymd (ordinal : Z) : date :=
  let n := ordinal - 1 in
  let n400 := n / DI400Y in
  let n := n mod DI400Y in
  let n100 := n / DI100Y in
  let n := n mod DI100Y in
  let n4 := n / DI4Y in
  let n := n mod DI4Y in
  let n1 := n / 365 in
  let n := n mod 365 in
  let y := n400 * 400 + 1 + n100 * 100 + n4 * 4 + n1 in
  if (n1 =? 4) || (n100 =? 4) then {| year := y - 1; month := 12; day := 31 |}
  else
    let leapyear := (n1 =? 3) && (negb (n4 =? 24) || (n100 =? 3)) in
    let m := Z.shiftr (n + 50) 5 in
    let preceding :=
      nth (Z.to_nat m) DAYS_BEFORE_MONTH 0
      + (if (2 <? m) && leapyear then 1 else 0) in
    if n <? preceding then
      let m' := m - 1 in
      let preceding' :=
        preceding
        - (nth (Z.to_nat m') [-1; 31; 28; 31; 30; 31; 30; 31; 31; 30; 31; 30; 31] 0
           + (if (m' =? 2) && leapyear then 1 else 0)) in
      {| year := y; month := m'; day := n - preceding' + 1 |}
    else {| year := y; month := m; day := n - preceding + 1 |}.

(** [date(y, m, d)]: [ValueError] outside the calendar. *)
Definition mk_date (y m d : Z) : result date :=
  if (1 <=? y) && (y <=? 9999) && (1 <=? m) && (m <=? 12)
     && (1 <=? d) && (d <=? days_in_month y m)
  then Ok {| year := y; month := m; day := d |}
  else Raise ValueError.

Definition toordinal (d : date) : Z := ymd2ord (year d) (month d) (day d).

Definition weekday (d : date) : Z := (toordinal d + 6) mod 7.

(** [d + timedelta(days=n)]: [OverflowError] outside [date.min..date.max]. *)
Definition add_days (d : date) (n : Z) : result date :=
  let o := toordinal d + n in
  if (0 <? o) && (o <=? MAXORDINAL) then Ok (ord2ymd o)
  else Raise OverflowError.

Definition sub_days (d : date) (n : Z) : result date := add_days d (- n).

Definition digit (n : Z) : ascii := ascii_of_nat (48 + Z.to_nat (n mod 10)).

Definition pad2 (n : Z) : string :=
  String (digit (n / 10)) (String (digit n) EmptyString).

Definition pad4 (n : Z) : string :=
  String (digit (n / 1000)) (String (digit (n / 100))
    (String (digit (n / 10)) (String (digit n) EmptyString))).

(** The year as [%Y] prints it on Linux: in decimal, without padding
    (a [date] has a year between 1 and 9999). *)
Definition year_digits (y : Z) : string :=
  if y <? 10 then String (digit y) EmptyString
  else if y <? 100 then pad2 y
  else if y <? 1000 then String (digit (y / 100)) (pad2 y)
  else pad4 y.

(** [strftime("%Y-%m-%d")] *)
Definition iso_format (d : date) : string :=
  String.append (year_digits (year d))
    (String.append "-" (String.append (pad2 (month d))
      (String.append "-" (pad2 (day d))))).

(** [strftime("%d.%m.%y")] *)
Definition dmy_format (d : date) : string :=
  String.append (pad2 (day d))
    (String.append "." (String.append (pad2 (month d))
      (String.append "." (pad2 (year d mod 100))))).

(** [strftime("%m.%y")] *)
Definition my_format (d : date) : string :=
  String.append (pad2 (month d)) (String.append "." (pad2 (year d mod 100))).

End Calendar.

(** ** ReportAggregator ([publish_adsb_report.py], lines 170-190) *)

Module Report.

Import Calendar.
Local Open Scope Z_scope.

(** The characters of [" → "] in UTF-8. *)
Definition arrow : string :=
  String " " (String (ascii_of_nat 226) (String (ascii_of_nat 134)
    (String (ascii_of_nat 146) (String " " EmptyString)))).

Definition get_period_bounds (period : string) (now_local : datetime)
    : result (string * string * string) :=
  let today := dt_date now_local in
  let! (start_day, end_day, label) :=
    if String.eqb period "daily" then
      Ok (today, today, dmy_format today)
    else if String.eqb period "weekly" then
      let! start_day := sub_days today (weekday today) in
      let! end_day := add_days start_day 6 in
      Ok (start_day, end_day,
          String.append (dmy_format start_day)
            (String.append arrow (dmy_format end_day)))
    else if String.eqb period "monthly" then
      let! start_day := mk_date (year today) (month today) 1 in
      let! next_month :=
        if month start_day =? 12 then mk_date (year start_day + 1) 1 1
        else mk_date (year start_day) (month start_day + 1) 1 in
      let! end_day := sub_days next_month 1 in
      Ok (start_day, end_day, my_format start_day)
    else
      Ok (today, today, dmy_format today) in
  Ok (iso_format start_day, iso_format end_day, label).

End Report.

(** ** SQLite's [datetime()] on a text value

    The sort key of the range query is [datetime(first_seen_utc)].  What
    follows is SQLite's date parser ([getDigits], [parseTimezone],
    [parseHhMmSs], [parseYyyyMmDd], [computeJD], [computeYMD],
    [computeHMS] and [datetimeFunc] of its [date.c]), over exact
    rationals.  A text it cannot read as a date or a time gives NULL. *)

Module SqliteDate.

Local Open Scope Z_scope.

Definition is_digit (c : ascii) : bool :=
  let n := nat_of_ascii c in ((48 <=? n) && (n <=? 57))%nat.

Definition digit_val (c : ascii) : Z := Z.of_nat (nat_of_ascii c) - 48.

Definition is_space (c : ascii) : bool :=
  let n := nat_of_ascii c in ((n =? 32) || ((9 <=? n) && (n <=? 13)))%nat.

Fixpoint skip_spaces (s : string) : string :=
  match s with
  | String c rest => if is_space c then skip_spaces rest else s
  | EmptyString => s
  end.

Fixpoint skip_spaces_or_T (s : string) : string :=
  match s with
  | String c rest =>
      if is_space c || Ascii.eqb c "T" then skip_spaces_or_T rest else s
  | EmptyString => s
  end.

(** [count] decimal digits at the head of [s]: their value and the rest. *)
Fixpoint take_digits (count : nat) (s : string) (acc : Z) : option (Z * string) :=
  match count with
  | O => Some (acc, s)
  | S k =>
      match s with
      | String c rest =>
          if is_digit c then take_digits k rest (acc * 10 + digit_val c)
          else None
      | EmptyString => None
      end
  end.

(** One field of a [getDigits] format: [count] digits, a value within
    [lo..hi], then the separator [sep] when there is one. *)
Definition get_field (count : nat) (lo hi : Z) (sep : option ascii) (s : string)
    : option (Z * string) :=
  match take_digits count s 0 with
  | None => None
  | Some (v, rest) =>
      if (v <? lo) || (hi <? v) then None
      else
        match sep with
        | None => Some (v, rest)
        | Some c =>
            match rest with
            | String c' rest' => if Ascii.eqb c c' then Some (v, rest') else None
            | EmptyString => None
            end
        end
  end.

(** [parseTimezone]: the offset in minutes, [None] for a parse error. *)
Definition parse_zulu_tail (s : string) (tz : Z) : option Z :=
  match skip_spaces s with
  | EmptyString => Some tz
  | _ => None
  end.

Definition parse_offset (sgn : Z) (s : string) : option Z :=
  match get_field 2 0 14 (Some ":"%char) s with
  | None => None
  | Some (nHr, rest) =>
      match get_field 2 0 59 None rest with
      | None => None
      | Some (nMn, rest') => parse_zulu_tail rest' (sgn * (nMn + nHr * 60))
      end
  end.

Definition parseTimezone (s : string) : option Z :=
  match skip_spaces s with
  | EmptyString => Some 0
  | String c rest =>
      if Ascii.eqb c "-" then parse_offset (-1) rest
      else if Ascii.eqb c "+" then parse_offset 1 rest
      else if Ascii.eqb c "Z" || Ascii.eqb c "z" then parse_zulu_tail rest 0
      else None
  end.

(** The digits after the decimal point of the seconds: the numerator, the
    power of ten under it, and the rest of the text. *)
Fixpoint take_fraction (s : string) (num scale : Z) : Z * Z * string :=
  match s with
  | String c rest =>
      if is_digit c then take_fraction rest (num * 10 + digit_val c) (scale * 10)
      else (num, scale, s)
  | EmptyString => (num, scale, s)
  end.

Record hms : Type := { hh : Z; mm : Z; ss : Q; tz : Z }.

Definition Z_to_pos (z : Z) : positive := Z.to_pos z.

Definition parseHhMmSs (s : string) : option hms :=
  match get_field 2 0 24 (Some ":"%char) s with
  | None => None
  | Some (h, rest) =>
      match get_field 2 0 59 None rest with
      | None => None
      | Some (m, rest1) =>
          let seconds : option (Q * string) :=
            match rest1 with
            | String c rest2 =>
                if Ascii.eqb c ":" then
                  match get_field 2 0 59 None rest2 with
                  | None => None
                  | Some (sec, rest3) =>
                      match rest3 with
                      | String d (String e rest4) =>
                          if Ascii.eqb d "." && is_digit e then
                            let '(num, scale, rest5) :=
                              take_fraction (String e rest4) 0 1 in
                            Some ((inject_Z sec + (num # Z_to_pos scale))%Q, rest5)
                          else Some (inject_Z sec, rest3)
                      | _ => Some (inject_Z sec, rest3)
                      end
                  end
                else Some (0%Q, rest1)
            | EmptyString => Some (0%Q, rest1)
            end in
          match seconds with
          | None => None
          | Some (sec, tail) =>
              match parseTimezone tail with
              | None => None
              | Some offset => Some {| hh := h; mm := m; ss := sec; tz := offset |}
              end
          end
      end
  end.

(** What the parser made of the text. *)
Inductive parsed : Type :=
  | PDate (Y M D : Z) (time : option hms)
  | PTime (time : hms).

Definition parseYyyyMmDd (s : string) : option parsed :=
  let '(neg, body) :=
    match s with
    | String c rest => if Ascii.eqb c "-" then (true, rest) else (false, s)
    | EmptyString => (false, s)
    end in
  match get_field 4 0 9999 (Some "-"%char) body with
  | None => None
  | Some (Y, r1) =>
      match get_field 2 1 12 (Some "-"%char) r1 with
      | None => None
      | Some (M, r2) =>
          match get_field 2 1 31 None r2 with
          | None => None
          | Some (D, r3) =>
              let tail := skip_spaces_or_T r3 in
              let Y' := if neg then - Y else Y in
              match parseHhMmSs tail with
              | Some t => Some (PDate Y' M D (Some t))
              | None =>
                  match tail with
                  | EmptyString => Some (PDate Y' M D None)
                  | _ => None
                  end
              end
          end
      end
  end.

Definition parse_date_or_time (s : string) : option parsed :=
  match parseYyyyMmDd s with
  | Some p => Some p
  | None =>
      match parseHhMmSs s with
      | Some t => Some (PTime t)
      | None => None
      end
  end.

(** [computeJD] for a date at midnight: the Julian day in milliseconds. *)
Definition julian_ms (Y M D : Z) : Z :=
  let '(Y, M) := if M <=? 2 then (Y - 1, M + 12) else (Y, M) in
  let A := Z.quot Y 100 in
  let B := 2 - A + Z.quot A 4 in
  let X1 := Z.quot (36525 * (Y + 4716)) 100 in
  let X2 := Z.quot (306001 * (M + 1)) 10000 in
  ((X1 + X2 + D + B) * 2 - 3049) * 43200000.

Definition time_ms (t : hms) : Z :=
  hh t * 3600000 + mm t * 60000 + Qfloor (ss t * 1000 + (1 # 2))%Q.

Definition validJulianDay (iJD : Z) : bool :=
  (0 <=? iJD) && (iJD <=? 464269060799999).

Definition Qtrunc (q : Q) : Z := Z.quot (Qnum q) (Zpos (Qden q)).

(** [computeYMD]: year, month and day of a Julian day. *)
Definition computeYMD (iJD : Z) : Z * Z * Z :=
  let Z0 := Z.quot (iJD + 43200000) 86400000 in
  let A := Qtrunc ((inject_Z Z0 - (186721625 # 100)) / (3652425 # 100))%Q in
  let A := Z0 + 1 + A - Z.quot A 4 in
  let B := A + 1524 in
  let C := Qtrunc ((inject_Z B - (1221 # 10)) / (36525 # 100))%Q in
  let D := Z.quot (36525 * Z.land C 32767) 100 in
  let E := Qtrunc (inject_Z (B - D) / (306001 # 10000))%Q in
  let X1 := Qtrunc ((306001 # 10000) * inject_Z E)%Q in
  let day := B - D - X1 in
  let month := if E <? 14 then E - 1 else E - 13 in
  let year := if 2 <? month then C - 4716 else C - 4715 in
  (year, month, day).

(** [computeHMS]: hour, minute and whole second of a Julian day. *)
Definition computeHMS (iJD : Z) : Z * Z * Z :=
  let s := Z.quot (Z.rem (iJD + 43200000) 86400000) 1000 in
  let h := Z.quot s 3600 in
  let s := s - h * 3600 in
  let m := Z.quot s 60 in
  (h, m, s - m * 60).

Definition two_digits (n : Z) : string :=
  String (Calendar.digit (Z.quot n 10)) (String (Calendar.digit n) EmptyString).

(** The text [datetimeFunc] builds: [YYYY-MM-DD HH:MM:SS], with a minus
    sign in front for a negative year. *)
Definition format_datetime (Y M D h m s : Z) : string :=
  let a := Z.abs Y in
  let body :=
    String (Calendar.digit (Z.quot a 1000)) (String (Calendar.digit (Z.quot a 100))
      (String (Calendar.digit (Z.quot a 10)) (String (Calendar.digit a)
        (String.append "-" (String.append (two_digits M)
          (String.append "-" (String.append (two_digits D)
            (String.append " " (String.append (two_digits h)
              (String.append ":" (String.append (two_digits m)
                (String.append ":" (two_digits s))))))))))))) in
  if Y <? 0 then String "-" body else body.

(** [datetime(X)] for a text [X] that parses as a date or a time. *)
Definition datetime_of_parsed (p : parsed) : option string :=
  match p with
  | PDate Y M D time =>
      if (Y <? -4713) || (9999 <? Y) then None
      else
        match time with
        | None =>
            let iJD := julian_ms Y M D in
            if validJulianDay iJD then
              let '(h, m, s) := computeHMS iJD in
              Some (format_datetime Y M D h m s)
            else None
        | Some t =>
            let iJD := julian_ms Y M D + time_ms t - tz t * 60000 in
            if validJulianDay iJD then
              if tz t =? 0 then
                Some (format_datetime Y M D (hh t) (mm t) (Qtrunc (ss t)))
              else
                let '(Y', M', D') := computeYMD iJD in
                let '(h, m, s) := computeHMS iJD in
                Some (format_datetime Y' M' D' h m s)
            else None
        end
  | PTime t =>
      let iJD := julian_ms 2000 1 1 + time_ms t - tz t * 60000 in
      if validJulianDay iJD then
        let '(Y', M', D') := computeYMD iJD in
        if tz t =? 0 then
          Some (format_datetime Y' M' D' (hh t) (mm t) (Qtrunc (ss t)))
        else
          let '(h, m, s) := computeHMS iJD in
          Some (format_datetime Y' M' D' h m s)
      else None
  end.

Definition lower (c : ascii) : ascii :=
  let n := nat_of_ascii c in
  if ((65 <=? n) && (n <=? 90))%nat then ascii_of_nat (n + 32) else c.

Fixpoint is_now_from (s : string) (pattern : string) : bool :=
  match s, pattern with
  | EmptyString, EmptyString => true
  | String c rest, String p prest => Ascii.eqb (lower c) p && is_now_from rest prest
  | _, _ => false
  end.

(** The characters a numeric literal is made of. *)
Definition numeric_char (c : ascii) : bool :=
  is_digit c || is_space c || Ascii.eqb c "." || Ascii.eqb c "+"
  || Ascii.eqb c "-" || Ascii.eqb c "e" || Ascii.eqb c "E".

Fixpoint all_numeric_chars (s : string) : bool :=
  match s with
  | EmptyString => true
  | String c rest => numeric_char c && all_numeric_chars rest
  end.

(** The two readings of a text that is not a date: the word [now] and a
    Julian day number.  Their values are not computed here: [now_text]
    is what [datetime('now')] gives when the query runs, and
    [julian_text] what [datetime] gives for a text made of the characters
    of a number (NULL when it is not a number after all). *)
Record fallback : Type := {
  now_text : option string;
  julian_text : string -> option string
}.

(** [datetime(X)] for a column value [X]: [None] is NULL. *)
Definition datetime (fb : fallback) (x : option string) : option string :=
  match x with
  | None => None
  | Some s =>
      match parse_date_or_time s with
      | Some p => datetime_of_parsed p
      | None =>
          if is_now_from s "now" then now_text fb
          else if all_numeric_chars s then julian_text fb s
          else None
      end
  end.

End SqliteDate.

(** ** EventStore ([publish_adsb_report.py], lines 59-122) *)

Module EventStore.

(** A stored value.  NULL is [SqlNull]. *)
Inductive sql_value : Type :=
  | SqlNull
  | SqlText (s : string)
  | SqlInteger (z : Z)
  | SqlReal (q : Q).

(** What SQLite makes of a text bound to a column of REAL or INTEGER
    affinity (a number when the text is one, the text itself otherwise).
    The conversion is not computed here. *)
Record affinity : Type := {
  real_affinity : string -> sql_value;
  integer_affinity : string -> sql_value
}.

(** One dictionary of [csv.DictReader], seen through [r.get(column)]:
    [None] for a column the line is too short for, or that the header
    does not have. *)
Record csv_record : Type := {
  csv_first_seen_utc : option string;
  csv_hex : option string;
  csv_callsign : option string;
  csv_reg : option string;
  csv_model_t : option string;
  csv_lat : option string;
  csv_lon : option string;
  csv_alt_ft : option string;
  csv_gs_kt : option string;
  csv_squawk : option string;
  csv_ground : option string
}.

(** A row of the table [events].  The TEXT columns hold a text or NULL
    ([None]); the others hold what their affinity makes of the text. *)
Record db_row : Type := {
  first_seen_utc : option string;
  hex : option string;
  callsign : option string;
  reg : option string;
  model_t : option string;
  lat : sql_value;
  lon : sql_value;
  alt_ft : sql_value;
  gs_kt : sql_value;
  squawk : option string;
  ground : option string
}.

Definition coerce (conv : string -> sql_value) (v : option string) : sql_value :=
  match v with
  | None => SqlNull
  | Some s => conv s
  end.

(** The eleven values bound in the [INSERT]. *)
Definition to_db_row (aff : affinity) (r : csv_record) : db_row :=
  {| first_seen_utc := csv_first_seen_utc r;
     hex := csv_hex r;
     callsign := csv_callsign r;
     reg := csv_reg r;
     model_t := csv_model_t r;
     lat := coerce (real_affinity aff) (csv_lat r);
     lon := coerce (real_affinity aff) (csv_lon r);
     alt_ft := coerce (integer_affinity aff) (csv_alt_ft r);
     gs_kt := coerce (real_affinity aff) (csv_gs_kt r);
     squawk := csv_squawk r;
     ground := csv_ground r |}.

(** The database file: [None] before the table exists, else the rows of
    [events] in rowid order. *)
Definition database : Type := option (list db_row).

(** [CREATE TABLE IF NOT EXISTS events (...)] *)
Definition init_db (conn : database) : database :=
  match conn with
  | None => Some []
  | Some rows => Some rows
  end.

(** [PRIMARY KEY (first_seen_utc, hex)] on an ordinary rowid table: two
    rows conflict when both key columns are equal, and a NULL in a key
    column is equal to nothing, not even to another NULL. *)
Definition key_conflict (a b : db_row) : bool :=
  match first_seen_utc a, hex a, first_seen_utc b, hex b with
  | Some f1, Some h1, Some f2, Some h2 => String.eqb f1 f2 && String.eqb h1 h2
  | _, _, _, _ => false
  end.

(** [INSERT OR IGNORE INTO events ... VALUES (...)] *)
Definition insert_or_ignore (table : list db_row) (row : db_row) : list db_row :=
  if existsb (key_conflict row) table then table else table ++ [row].

Inductive log_line : Type :=
  | WarnCsvMissing
  | InfoCsvEmpty
  | InfoImported (count : nat).

(** [csv_to_db]: [csv_file] is [None] when [os.path.isfile] fails, else
    the records of the reader.  Without the table the first [INSERT]
    raises. *)
Definition csv_to_db (aff : affinity) (csv_file : option (list csv_record))
    (conn : database) : result (database * list log_line) :=
  match csv_file with
  | None => Ok (conn, [WarnCsvMissing])
  | Some [] => Ok (conn, [InfoCsvEmpty])
  | Some rows =>
      match conn with
      | None => Raise OperationalError
      | Some table =>
          Ok (Some (fold_left insert_or_ignore (map (to_db_row aff) rows) table),
              [InfoImported (length rows)])
      end
  end.

Definition row_count (conn : database) : nat :=
  match conn with
  | None => O
  | Some table => length table
  end.

(** [substr(X, 1, n)] on a text in UTF-8: its first [n] characters, a
    character being a byte and the continuation bytes after it. *)
Definition is_continuation (c : ascii) : bool :=
  let k := nat_of_ascii c in ((128 <=? k) && (k <? 192))%nat.

Fixpoint skip_continuation (s : string) : string * string :=
  match s with
  | String c rest =>
      if is_continuation c then
        let '(taken, remaining) := skip_continuation rest in
        (String c taken, remaining)
      else (EmptyString, s)
  | EmptyString => (EmptyString, EmptyString)
  end.

Fixpoint substr_chars (fuel : nat) (n : nat) (s : string) : string :=
  match fuel with
  | O => EmptyString
  | S fuel' =>
      match n, s with
      | O, _ => EmptyString
      | _, EmptyString => EmptyString
      | S k, String c rest =>
          if (192 <=? nat_of_ascii c)%nat then
            let '(taken, remaining) := skip_continuation rest in
            String c (String.append taken (substr_chars fuel' k remaining))
          else String c (substr_chars fuel' k rest)
      end
  end.

Definition substr_1_10 (x : option string) : option string :=
  match x with
  | None => None
  | Some s => Some (substr_chars (String.length s) 10 s)
  end.

(** [X BETWEEN lo AND hi] on texts, compared byte by byte; NULL is not
    between anything. *)
Definition between (x : option string) (lo hi : string) : bool :=
  match x with
  | None => false
  | Some s => String.leb lo s && String.leb s hi
  end.

Definition in_day_range (start_day end_day : string) (row : db_row) : bool :=
  between (substr_1_10 (first_seen_utc row)) start_day end_day.

(** The order of [ORDER BY ... ASC] on a text-or-NULL key: NULL first. *)
Definition key_le (a b : option string) : bool :=
  match a, b with
  | None, _ => true
  | Some _, None => false
  | Some x, Some y => String.leb x y
  end.

Definition sort_key (fb : SqliteDate.fallback) (row : db_row) : option string :=
  SqliteDate.datetime fb (first_seen_utc row).

(** The sorter: rows with equal keys stay in the order the scan of the
    table produced them, which is rowid order. *)
Fixpoint insert_sorted (fb : SqliteDate.fallback) (row : db_row)
    (sorted : list db_row) : list db_row :=
  match sorted with
  | [] => [row]
  | r :: rest =>
      if key_le (sort_key fb row) (sort_key fb r) then row :: sorted
      else r :: insert_sorted fb row rest
  end.

Definition order_by_datetime (fb : SqliteDate.fallback) (rows : list db_row)
    : list db_row :=
  fold_right (insert_sorted fb) [] rows.

(** [query_events_by_day_range] *)
Definition query_events_by_day_range (fb : SqliteDate.fallback)
    (conn : database) (start_day end_day : string) : result (list db_row) :=
  match conn with
  | None => Raise OperationalError
  | Some table =>
      Ok (order_by_datetime fb
            (List.filter (in_day_range start_day end_day) table))
  end.

End EventStore.

(** ** PolygonFile ([flight_mil_ita.py], lines 80-97)

    [load_polygons_from_geojson] on the document that [json.load]
    decoded; opening and parsing the file are outside the embedding.  A
    JSON number is the float it converts to. *)

Module PolygonFile.

Import Poller.

(** The exceptions of the loader: the built-in ones above, and the two
    that a method or a key missing from a value raises. *)
Inductive load_exn : Type :=
  | Builtin (e : py_exn)
  | AttributeError
  | KeyError.

Inductive outcome (A : Type) : Type :=
  | Loaded (a : A)
  | Failed (e : load_exn).
Arguments Loaded {A} a.
Arguments Failed {A} e.

Definition obind {A B : Type} (r : outcome A) (k : A -> outcome B) : outcome B :=
  match r with
  | Loaded a => k a
  | Failed e => Failed e
  end.

Notation "'let?' x ':=' r 'in' k" := (obind r (fun x => k))
  (at level 10, x pattern, r at level 100, k at level 200).

(** The characters of a [str], the text being in UTF-8: a byte and the
    continuation bytes after it. *)
Fixpoint code_points (fuel : nat) (s : string) : list string :=
  match fuel, s with
  | S fuel', String c rest =>
      let '(taken, remaining) := EventStore.skip_continuation rest in
      String c taken :: code_points fuel' remaining
  | _, _ => []
  end.

Definition characters (s : string) : list string :=
  code_points (String.length s) s.

(** What [for x in v] walks through: the items of a list, the keys of a
    dict, the characters of a string; nothing else is iterable. *)
Definition iterate (v : json) : outcome (list json) :=
  match v with
  | JList items => Loaded items
  | JDict entries => Loaded (map (fun kv => JStr (fst kv)) entries)
  | JStr s => Loaded (map JStr (characters s))
  | _ => Failed (Builtin TypeError)
  end.

(** [v[k]] for the index [k]; the keys of a decoded object are strings,
    so an integer is never one of them. *)
Definition subscript (v : json) (k : nat) : outcome json :=
  match v with
  | JList items =>
      match nth_error items k with
      | Some x => Loaded x
      | None => Failed (Builtin IndexError)
      end
  | JStr s =>
      match nth_error (characters s) k with
      | Some c => Loaded (JStr c)
      | None => Failed (Builtin IndexError)
      end
  | JDict _ => Failed KeyError
  | _ => Failed (Builtin TypeError)
  end.

(** [v.get(key, dflt)]: only a dict has the method. *)
Definition py_get (v : json) (key : string) (dflt : json) : outcome json :=
  match v with
  | JDict entries =>
      Loaded (match dict_get key entries with Some x => x | None => dflt end)
  | _ => Failed AttributeError
  end.

(** [v == s] for a string literal [s] *)
Definition is_str (v : json) (s : string) : bool :=
  match v with
  | JStr t => String.eqb t s
  | _ => false
  end.

(** The list comprehension over a sequence already at hand; the first
    element that raises ends it. *)
Fixpoint collect {A B : Type} (f : A -> outcome B) (l : list A)
    : outcome (list B) :=
  match l with
  | [] => Loaded []
  | x :: rest =>
      let? y := f x in
      let? ys := collect f rest in
      Loaded (y :: ys)
  end.

Section Loader.

(** [float(s)] on a string: the number it denotes, or [None] where
    Python raises [ValueError]. *)
Variable float_of_string : string -> option Q.

(** [float(v)] *)
Definition py_float (v : json) : outcome Q :=
  match v with
  | JNum q => Loaded q
  | JBool b => Loaded (if b then 1 else 0)
  | JStr s =>
      match float_of_string s with
      | Some q => Loaded q
      | None => Failed (Builtin ValueError)
      end
  | _ => Failed (Builtin TypeError)
  end.

(** [(float(pt[i]), float(pt[j]))] *)
Definition vertex_at (i j : nat) (pt : json) : outcome Geofence.vertex :=
  let? a := subscript pt i in
  let? first := py_float a in
  let? b := subscript pt j in
  let? second := py_float b in
  Loaded (first, second).

(** [[(float(pt[i]), float(pt[j])) for pt in ring]] *)
Definition ring_at (i j : nat) (ring : json) : outcome Geofence.ring :=
  let? pts := iterate ring in
  collect (vertex_at i j) pts.

(** [[[...] for ring in coords]] *)
Definition polygon_at (i j : nat) (coords : json) : outcome Geofence.polygon :=
  let? rings := iterate coords in
  collect (ring_at i j) rings.

(** The body of [for feat in ...]: the polygons one feature adds. *)
Definition feature_polygons (feat : json) : outcome (list Geofence.polygon) :=
  let? geom := py_get feat "geometry" (JDict []) in
  let? gtype := py_get geom "type" JNull in
  let? coords := py_get geom "coordinates" (JList []) in
  if is_str gtype "Polygon" then
    let? poly := polygon_at 1 0 coords in
    Loaded [poly]
  else if is_str gtype "MultiPolygon" then
    let? parts := iterate coords in
    collect (polygon_at 1 0) parts
  else Loaded [].

Definition load_polygons_from_geojson (data : json)
    : outcome (list Geofence.polygon) :=
  match data with
  | JDict entries =>
      if match dict_get "type" entries with
         | Some t => is_str t "FeatureCollection"
         | None => false
         end
      then
        let? features :=
          iterate (match dict_get "features" entries with
                   | Some v => v
                   | None => JList []
                   end) in
        let? added := collect feature_polygons features in
        Loaded (concat added)
      else
        match dict_get "polygons" entries with
        | Some polys =>
            let? items := iterate polys in
            collect (polygon_at 0 1) items
        | None => Loaded []
        end
  | _ => Loaded []
  end.

End Loader.

End PolygonFile.

(** ** The stamp of a cycle ([flight_mil_ita.py], lines 70-71) and the
    CSV file ([flight_mil_ita.py], lines 172-186 and 282-283) *)

Module SeenCsv.

Import Poller.

(** [now_utc_str], for the UTC time [now] that [datetime.now] returned:
    [strftime("%Y-%m-%d %H:%M:%S UTC")]. *)
Definition now_utc_str (now : Calendar.datetime) : string :=
  String.append (Calendar.iso_format (Calendar.dt_date now))
    (String.append " " (String.append (Calendar.pad2 (Calendar.dt_hour now))
      (String.append ":" (String.append (Calendar.pad2 (Calendar.dt_minute now))
        (String.append ":" (String.append (Calendar.pad2 (Calendar.dt_second now))
          " UTC")))))).

Definition FIELDNAMES : list string :=
  ["first_seen_utc"; "hex"; "callsign"; "reg"; "model_t"; "lat"; "lon";
   "alt_ft"; "gs_kt"; "squawk"; "ground"]%string.

(** What the writer puts in the file: the header line, or the line of a
    row. *)
Inductive csv_line : Type :=
  | HeaderLine (fieldnames : list string)
  | RowLine (row : event_row).

(** The file at [csv_path]: [None] when there is no such file. *)
Definition csv_file : Type := option (list csv_line).

(** How the [with open(...)] block ends: normally, or with an exception
    of class [Exception], the file being left as [remains]. *)
Inductive io_outcome : Type :=
  | Written
  | WriteFails (e : py_exn) (remains : csv_file).

(** [append_seen_csv]: the file afterwards and the exception of the
    [[WARN] Scrittura CSV fallita] line, if any. *)
Definition append_seen_csv (file : csv_file) (rows : list event_row)
    (io : io_outcome) : csv_file * option py_exn :=
  let must_write_header := match file with None => true | Some _ => false end in
  match io with
  | Written =>
      let before := match file with None => [] | Some content => content end in
      (Some (before
             ++ (if must_write_header then [HeaderLine FIELDNAMES] else [])
             ++ map RowLine rows),
       None)
  | WriteFails e remains => (remains, Some e)
  end.

(** [if event_rows: append_seen_csv(args.csv, event_rows)], over the
    cycles of a run; [io k] is how the write of cycle [k] ends. *)
Fixpoint csv_after_run (io : nat -> io_outcome) (k : nat)
    (outs : list cycle_outcome) (file : csv_file) : csv_file :=
  match outs with
  | [] => file
  | out :: rest =>
      let file' :=
        match csv_appended out with
        | Some rows => fst (append_seen_csv file rows (io k))
        | None => file
        end in
      csv_after_run io (S k) rest file'
  end.

End SeenCsv.

(** ** Predicates of the statements *)


(** Two alerts for one address lie at least the cooldown apart, the later
    one after the earlier one. *)
Definition spaced (cooldown : Z) (events : list (string * Q)) : Prop :=
  forall i j h ti tj,
    (i < j)%nat ->
    nth_error events i = Some (h, ti) ->
    nth_error events j = Some (h, tj) ->
    inject_Z cooldown <= tj - ti.

(** The dictionary holds, for every address alerted so far, a time that
    is not before any of its alerts. *)
Definition recorded (events : list (string * Q)) (last : gmap string Q) : Prop :=
  forall h t, In (h, t) events -> exists t', last !! h = Some t' /\ t <= t'.

(** The text ends with the letter C, as every timestamp the poller
    writes does (["%Y-%m-%d %H:%M:%S UTC"]). *)
Fixpoint last_is_C (s : string) : bool :=
  match s with
  | EmptyString => false
  | String c rest =>
      match rest with
      | EmptyString => Ascii.eqb c "C"
      | String _ _ => last_is_C rest
      end
  end.

(** A CSV record carries both columns of the identity pair. *)
Definition has_key (r : EventStore.csv_record) : bool :=
  match EventStore.csv_first_seen_utc r, EventStore.csv_hex r with
  | Some _, Some _ => true
  | _, _ => false
  end.

(** What holds of the state of the alert loop at every iteration: one
    row and one message per alert, in the order of the alerts, each row
    with the stamp of the cycle and the address of its alert. *)
Definition loop_accounted (stamp : string) (st : Poller.loop_state) : Prop :=
  map Poller.row_hex (Poller.event_rows st)
  = map (fun e => Poller.CStr (fst e)) (Poller.emitted st)
  /\ length (Poller.printed st) = length (Poller.emitted st)
  /\ forall row, In row (Poller.event_rows st) ->
       Poller.row_first_seen_utc row = Poller.CStr stamp.

(** No two rows of a table conflict on the identity pair. *)
Definition keys_unique (table : list EventStore.db_row) : Prop :=
  forall i j a b,
    (i < j)%nat ->
    nth_error table i = Some a -> nth_error table j = Some b ->
    EventStore.key_conflict a b = false.

(** A position of a document, read as the vertex [v]: its first two
    elements are the numbers of [v], in the order (lat, lon) or, when
    [swapped], (lon, lat) as GeoJSON has them; an altitude may follow. *)
Definition encodes_vertex (swapped : bool) (pt : Poller.json)
    (v : Geofence.vertex) : Prop :=
  exists more,
    pt = Poller.JList
           (Poller.JNum (if swapped then snd v else fst v)
            :: Poller.JNum (if swapped then fst v else snd v) :: more).

Definition encodes_ring (swapped : bool) (j : Poller.json)
    (r : Geofence.ring) : Prop :=
  exists pts, j = Poller.JList pts /\ Forall2 (encodes_vertex swapped) pts r.

Definition encodes_polygon (swapped : bool) (j : Poller.json)
    (p : Geofence.polygon) : Prop :=
  exists rings,
    j = Poller.JList rings /\ Forall2 (encodes_ring swapped) rings p.

(** A feature of a GeoJSON collection and the polygons it stands for:
    the polygon of a [Polygon] geometry, the polygons of a
    [MultiPolygon] one, none for any other type of geometry. *)
Definition encodes_feature (feat : Poller.json)
    (polys : list Geofence.polygon) : Prop :=
  exists fentries gentries,
    feat = Poller.JDict fentries
    /\ Poller.dict_get "geometry" fentries = Some (Poller.JDict gentries)
    /\ ((Poller.dict_get "type" gentries = Some (Poller.JStr "Polygon")
         /\ exists coords poly,
              Poller.dict_get "coordinates" gentries = Some coords
              /\ encodes_polygon true coords poly /\ polys = [poly])
        \/ (Poller.dict_get "type" gentries = Some (Poller.JStr "MultiPolygon")
            /\ exists parts,
                 Poller.dict_get "coordinates" gentries
                 = Some (Poller.JList parts)
                 /\ Forall2 (encodes_polygon true) parts polys)
        \/ ((forall t, Poller.dict_get "type" gentries = Some t ->
               PolygonFile.is_str t "Polygon" = false
               /\ PolygonFile.is_str t "MultiPolygon" = false)
            /\ polys = [])).

(** The rows of all the cycles of a run, in order. *)
Definition run_rows (outs : list Poller.cycle_outcome) : list Poller.event_row :=
  concat (map (fun out => Poller.event_rows (Poller.cycle_state out)) outs).

(** A text all of whose characters take one byte in UTF-8 or are the
    tail of a longer one: none of its bytes starts a character of several
    bytes. *)
Fixpoint single_bytes (s : string) : bool :=
  match s with
  | EmptyString => true
  | String c rest => negb (192 <=? nat_of_ascii c)%nat && single_bytes rest
  end.

(** [a <= b] on dates, as Python compares them: by year, then month,
    then day. *)
Definition date_leb (a b : Calendar.date) : bool :=
  ((Calendar.year a <? Calendar.year b)
   || ((Calendar.year a =? Calendar.year b)
       && ((Calendar.month a <? Calendar.month b)
           || ((Calendar.month a =? Calendar.month b)
               && (Calendar.day a <=? Calendar.day b)))))%Z.

(** ** Calendar: the pieces of the statements *)

Module CalendarFacts.

Import Calendar.
Local Open Scope Z_scope.

(** A date of the calendar: what [date(y, m, d)] accepts. *)
Definition is_date (d : date) : bool :=
  (1 <=? year d) && (year d <=? 9999) && (1 <=? month d) && (month d <=? 12)
  && (1 <=? day d) && (day d <=? days_in_month (year d) (month d)).

(** The month tables, by leap flag instead of year. *)
Definition dbm_l (m : Z) (leap : bool) : Z :=
  nth (Z.to_nat m) DAYS_BEFORE_MONTH 0 + (if (2 <? m) && leap then 1 else 0).

Definition dim_l (m : Z) (leap : bool) : Z :=
  if (m =? 2) && leap then 29
  else nth (Z.to_nat m) [-1; 31; 28; 31; 30; 31; 30; 31; 31; 30; 31; 30; 31] 0.

(** The last step of [ord2ymd]: month and day from the day of the year
    (counted from 0) and the leap flag. *)
Definition month_day (n : Z) (leapyear : bool) : Z * Z :=
  let m := Z.shiftr (n + 50) 5 in
  let preceding :=
    nth (Z.to_nat m) DAYS_BEFORE_MONTH 0
    + (if (2 <? m) && leapyear then 1 else 0) in
  if n <? preceding then
    let m' := m - 1 in
    let preceding' :=
      preceding
      - (nth (Z.to_nat m') [-1; 31; 28; 31; 30; 31; 30; 31; 31; 30; 31; 30; 31] 0
         + (if (m' =? 2) && leapyear then 1 else 0)) in
    (m', n - preceding' + 1)
  else (m, n - preceding + 1).

(** A year written by its place in the cycles of 400, 100 and 4 years. *)
Definition cycle_year (a b c e : Z) : Z := a * 400 + 1 + b * 100 + c * 4 + e.

Definition cycle_leap (b c e : Z) : bool :=
  (e =? 3) && (negb (c =? 24) || (b =? 3)).

(** A bounded search: [P] holds of [count] integers from [start] on. *)
Fixpoint check_from (P : Z -> bool) (count : nat) (start : Z) : bool :=
  match count with
  | O => true
  | S k => P start && check_from P k (start + 1)
  end.

Definition check_day_of_year (leap : bool) (n : Z) : bool :=
  let md := month_day n leap in
  (1 <=? fst md) && (fst md <=? 12) && (1 <=? snd md)
  && (snd md <=? dim_l (fst md) leap)
  && (dbm_l (fst md) leap + snd md =? n + 1).

Definition check_month_day (leap : bool) (m d : Z) : bool :=
  (dim_l m leap <? d)
  || (let n := dbm_l m leap + d - 1 in
      (0 <=? n) && (n <=? (if leap then 365 else 364))
      && (if n =? 365 then (m =? 12) && (d =? 31)
          else (fst (month_day n leap) =? m) && (snd (month_day n leap) =? d))).

Definition check_month (leap : bool) (m : Z) : bool :=
  (28 <=? dim_l m leap) && (dim_l m leap <=? 31)
  && (dbm_l m leap + dim_l m leap
      =? (if m =? 12 then (if leap then 366 else 365) else dbm_l (m + 1) leap))
  && check_from (check_month_day leap m) 31 1.

End CalendarFacts.

(** ** A run of the poller: one aircraft over three cycles

    The aircraft [abc123] is seen at 1000000, 600 seconds later and 1801
    seconds later, with a cooldown of 1800 seconds and no polygon. *)

Module Scenario.

Import Poller.

Definition decode (raw : json) : result Aircraft :=
  match raw with
  | JDict entries =>
      match dict_get "hex" entries with
      | Some (JStr h) => Ok (aircraft_at h (Some (45 # 1)) (Some (9 # 1)))
      | _ => Raise TypeError
      end
  | _ => Raise TypeError
  end.

Definition cycle_at (stamp : string) (t : Q) : cycle_env :=
  {| feed := fun _ =>
       HttpJson (JDict [("ac"%string, JList [JDict [("hex"%string, JStr "abc123")]])]);
     t0 := t; now_str := stamp; clock := fun _ => t; t_end := t |}.

Definition envs : list cycle_env :=
  [cycle_at "2024-03-15 10:00:00 UTC" (1000000 # 1);
   cycle_at "2024-03-15 10:10:00 UTC" (1000600 # 1);
   cycle_at "2024-03-15 10:30:01 UTC" (1001801 # 1)].

Definition run : result (list cycle_outcome) :=
  poll_loop decode [] 1800 60 envs ∅.

End Scenario.

(** ** CSV records for the store *)

Module StoreScenario.

Import EventStore.

(** A full line of the CSV, as the poller writes it. *)
Definition record_at (stamp h : string) : csv_record :=
  {| csv_first_seen_utc := Some stamp; csv_hex := Some h;
     csv_callsign := Some EmptyString; csv_reg := Some EmptyString;
     csv_model_t := Some EmptyString; csv_lat := Some "45.5"%string;
     csv_lon := Some "9.25"%string; csv_alt_ft := Some "31000"%string;
     csv_gs_kt := Some "420.0"%string; csv_squawk := Some EmptyString;
     csv_ground := Some EmptyString |}.

(** A line cut after its first field: the reader fills the other
    columns with [None]. *)
Definition short_record (stamp : string) : csv_record :=
  {| csv_first_seen_utc := Some stamp; csv_hex := None;
     csv_callsign := None; csv_reg := None; csv_model_t := None;
     csv_lat := None; csv_lon := None; csv_alt_ft := None;
     csv_gs_kt := None; csv_squawk := None; csv_ground := None |}.

End StoreScenario.

(** * Properties *)

(** ** The error monad *)

Lemma rbind_ok {A B : Type} (r : result A) (k : A -> result B) (b : B) :
  rbind r k = Ok b -> exists a, r = Ok a /\ k a = Ok b.
Proof.
  destruct r as [a | e]; simpl; intros H; [eauto | discriminate].
Qed.

Lemma returns_ok {A : Type} (a : A) : returns (Ok a).
Proof. exists a; reflexivity. Qed.

Lemma returns_not_raise {A : Type} (e : py_exn) : ~ returns (@Raise A e).
Proof. intros [a H]; discriminate. Qed.

Lemma Qis_zero_true (q : Q) : Qis_zero q = true <-> q == 0.
Proof. unfold Qis_zero. apply Qeq_bool_iff. Qed.

Lemma Qis_zero_false (q : Q) : Qis_zero q = false <-> ~ q == 0.
Proof.
  unfold Qis_zero. split.
  - intros H Hq. apply Qeq_bool_iff in Hq. congruence.
  - intros H. destruct (Qeq_bool q 0) eqn:E; [ | reflexivity ].
    apply Qeq_bool_iff in E. contradiction.
Qed.

Lemma Qltb_true (a b : Q) : Qltb a b = true <-> a < b.
Proof.
  unfold Qltb. rewrite negb_true_iff. split.
  - intros H. apply Qnot_le_lt. intros Hle.
    apply Qle_bool_iff in Hle. congruence.
  - intros H. destruct (Qle_bool b a) eqn:E; [ | reflexivity ].
    apply Qle_bool_iff in E. exfalso. apply (Qlt_not_le _ _ H E).
Qed.

Lemma Qltb_false (a b : Q) : Qltb a b = false <-> b <= a.
Proof.
  unfold Qltb. rewrite negb_false_iff. apply Qle_bool_iff.
Qed.

(** ** GeofenceFilter *)

Section GeofenceFacts.

Import Geofence.

Lemma holes_loop_inside (pt : vertex) (holes : list ring) (hole : ring) :
  In hole holes -> point_in_ring pt hole = Ok true ->
  holes_loop pt holes <> Ok true.
Proof.
  induction holes as [ | h rest IH ]; simpl; intros Hin Hhole.
  - contradiction.
  - destruct (point_in_ring pt h) as [ [ | ] | e ] eqn:Eh; simpl;
      try discriminate.
    destruct Hin as [ -> | Hin ]; [ congruence | auto ].
Qed.

Lemma holes_loop_returns (pt : vertex) (holes : list ring) :
  (forall h, In h holes -> returns (point_in_ring pt h)) ->
  returns (holes_loop pt holes).
Proof.
  induction holes as [ | h rest IH ]; simpl; intros Hall.
  - apply returns_ok.
  - destruct (Hall h (or_introl eq_refl)) as [b Hb]. rewrite Hb; simpl.
    destruct b; [ apply returns_ok | apply IH; auto ].
Qed.

Lemma edge_test_not_straddling (pt vi vj : vertex) :
  straddles (fst pt) (fst vi) (fst vj) = false -> edge_test pt vi vj = Ok false.
Proof. unfold edge_test. intros ->. reflexivity. Qed.


Lemma edge_test_raises (pt vi vj : vertex) :
  straddles (fst pt) (fst vi) (fst vj) = true ->
  fst vj - fst vi + EPS == 0 ->
  edge_test pt vi vj = Raise ZeroDivisionError.
Proof.
  intros Hs Hz. unfold edge_test. rewrite Hs. unfold py_div.
  apply Qis_zero_true in Hz. rewrite Hz. reflexivity.
Qed.

Lemma ring_get_in_range (r : ring) (k : nat) :
  (k < length r)%nat -> exists v, ring_get r k = Ok v /\ In v r.
Proof.
  intros Hk. unfold ring_get.
  destruct (nth_error r k) as [v | ] eqn:E.
  - exists v. split; [ reflexivity | eapply nth_error_In; eauto ].
  - apply nth_error_None in E. lia.
Qed.



End GeofenceFacts.

Lemma point_in_polygon_empty (pt : Geofence.vertex) :
  Geofence.point_in_polygon pt [] = Ok false.
Proof. reflexivity. Qed.

Lemma point_in_ring_empty (pt : Geofence.vertex) :
  Geofence.point_in_ring pt [] = Ok false.
Proof. reflexivity. Qed.

(** C4. Ray casting on the unit square with outer ring (0,0), (0,1),
    (1,1), (1,0): the point (0.5, 0.5) is contained and the point (2, 2)
    is not.  For any polygon, a point inside the outer ring and inside
    one of the hole rings is not contained: the test never answers
    [True], and answers [False] when every hole ring can be tested. *)
Theorem C4_ray_casting_containment :
  Geofence.point_in_polygon (1 # 2, 1 # 2) Geofence.unit_square = Ok true
  /\ Geofence.point_in_polygon (2, 2) Geofence.unit_square = Ok false
  /\ forall (pt : Geofence.vertex) (outer hole : Geofence.ring)
            (holes : list Geofence.ring),
       Geofence.point_in_ring pt outer = Ok true ->
       In hole holes ->
       Geofence.point_in_ring pt hole = Ok true ->
       Geofence.point_in_polygon pt (outer :: holes) <> Ok true
       /\ ((forall h, In h holes -> returns (Geofence.point_in_ring pt h)) ->
           Geofence.point_in_polygon pt (outer :: holes) = Ok false).
Proof.
  split; [ vm_compute; reflexivity | ].
  split; [ vm_compute; reflexivity | ].
  intros pt outer hole holes Houter Hin Hhole.
  assert (Hnot : Geofence.point_in_polygon pt (outer :: holes) <> Ok true).
  { simpl. rewrite Houter. simpl.
    eapply holes_loop_inside; eauto. }
  split; [ exact Hnot | ].
  intros Hall.
  assert (Hret : returns (Geofence.point_in_polygon pt (outer :: holes))).
  { simpl. rewrite Houter. simpl. apply holes_loop_returns. exact Hall. }
  destruct Hret as [ [ | ] Hb ]; [ contradiction | exact Hb ].
Qed.

(** A square of side 4 with a square hole of side 2 in its middle: the
    centre (2, 2) is inside the outer ring and inside the hole. *)
Lemma C4_witness :
  Geofence.point_in_polygon (2, 2)
    [ [(0, 0); (0, 4); (4, 4); (4, 0)]; [(1, 1); (1, 3); (3, 3); (3, 1)] ]
  = Ok false.
Proof.
  apply (proj2 (proj2 C4_ray_casting_containment) (2, 2)
           [(0, 0); (0, 4); (4, 4); (4, 0)]
           [(1, 1); (1, 3); (3, 3); (3, 1)]
           [ [(1, 1); (1, 3); (3, 3); (3, 1)] ]).
  - vm_compute. reflexivity.
  - left. reflexivity.
  - vm_compute. reflexivity.
  - intros h [ <- | [] ]. exists true. vm_compute. reflexivity.
Defined.

(** C8. Whatever the polygon set, empty or not, [in_any_polygon] returns
    [False] when [lat] is [None] or [lon] is [None]. *)
Theorem C8_unknown_position_never_contained
    (lat lon : option Q) (polygons : list Geofence.polygon) :
  lat = None \/ lon = None ->
  Geofence.in_any_polygon lat lon polygons = Ok false.
Proof.
  intros [ -> | -> ]; [ reflexivity | ].
  destruct lat; reflexivity.
Qed.

Lemma C8_witness :
  Geofence.in_any_polygon None (Some (1 # 2)) [Geofence.unit_square] = Ok false
  /\ Geofence.in_any_polygon (Some (1 # 2)) None [Geofence.unit_square] = Ok false.
Proof.
  split.
  - apply (C8_unknown_position_never_contained None (Some (1 # 2))).
    left. reflexivity.
  - apply (C8_unknown_position_never_contained (Some (1 # 2)) None).
    right. reflexivity.
Defined.

(** C10. On the empty ring list [point_in_polygon] returns [False], but
    the ring test does divide by zero: on the edge from (1e-12, 0) to
    (0, 1), which straddles the latitude 5e-13, the denominator
    [yj - yi + 1e-12] is [0 - 1e-12 + 1e-12 = 0], and the
    [ZeroDivisionError] leaves [point_in_ring], [point_in_polygon] and
    [in_any_polygon]. *)
Theorem C10_cancelling_edge_divides_by_zero :
  let pt : Geofence.vertex := (1 # 2000000000000, 1 # 2) in
  let r : Geofence.ring := [(1 # 1000000000000, 0); (0, 1); (1, 1)] in
  Geofence.point_in_polygon pt [] = Ok false
  /\ Geofence.straddles (fst pt) (1 # 1000000000000) 0 = true
  /\ Geofence.point_in_ring pt r = Raise ZeroDivisionError
  /\ Geofence.point_in_polygon pt [r] = Raise ZeroDivisionError
  /\ Geofence.in_any_polygon (Some (fst pt)) (Some (snd pt)) [[r]]
     = Raise ZeroDivisionError.
Proof.
  repeat split; vm_compute; reflexivity.
Qed.

(** ** Poller: the geofence step *)

Section GeofenceStep.

Import Poller.

Lemma truthy_zero (v : option Q) :
  (exists q, v = Some q /\ q == 0) -> truthy v = false.
Proof.
  intros (q & -> & Hq). simpl. apply Qis_zero_true in Hq. rewrite Hq.
  reflexivity.
Qed.

Lemma geofence_keep_zero (polygons : list Geofence.polygon) (ac : Aircraft) :
  (exists q, lat ac = Some q /\ q == 0) \/ (exists q, lon ac = Some q /\ q == 0) ->
  geofence_keep polygons ac = Ok false.
Proof.
  intros [ H | H ]; apply truthy_zero in H; unfold geofence_keep.
  - rewrite H. reflexivity.
  - rewrite H. destruct (truthy (lat ac)); reflexivity.
Qed.

Lemma geofence_filter_kept (polygons : list Geofence.polygon)
    (aircraft kept : list Aircraft) :
  geofence_filter polygons aircraft = Ok kept ->
  forall ac, In ac kept -> geofence_keep polygons ac = Ok true.
Proof.
  revert kept. induction aircraft as [ | a rest IH ]; simpl; intros kept H.
  - injection H as <-. intros ac [].
  - apply rbind_ok in H. destruct H as (keep & Hkeep & H).
    apply rbind_ok in H. destruct H as (kept' & Hrest & H).
    injection H as <-. intros ac Hin.
    destruct keep.
    + destruct Hin as [ <- | Hin ]; [ exact Hkeep | eapply IH; eauto ].
    + eapply IH; eauto.
Qed.

End GeofenceStep.

(** C9. With a non-empty polygon set, the geofence step of the poller
    discards every observation whose [lat] is 0.0 or whose [lon] is 0.0,
    wherever the point lies: the condition of the filter is false for it
    without the polygons being consulted, and it is in no list the step
    returns. *)
Theorem C9_zero_coordinate_discarded
    (polygons : list Geofence.polygon) (ac : Poller.Aircraft) :
  polygons <> [] ->
  (exists q, Poller.lat ac = Some q /\ q == 0)
  \/ (exists q, Poller.lon ac = Some q /\ q == 0) ->
  Poller.geofence_keep polygons ac = Ok false
  /\ forall aircraft kept,
       Poller.geofence_step polygons aircraft = Ok kept -> ~ In ac kept.
Proof.
  intros Hne Hzero.
  pose proof (geofence_keep_zero polygons ac Hzero) as Hkeep.
  split; [ exact Hkeep | ].
  intros aircraft kept Hstep Hin.
  destruct polygons as [ | poly rest ]; [ congruence | ].
  simpl in Hstep.
  pose proof (geofence_filter_kept _ _ _ Hstep ac Hin) as Hk.
  congruence.
Qed.

(** The point (0, 0.5) lies inside the square with corners (-1,-1) and
    (1,1), and an aircraft there is discarded all the same. *)
Lemma C9_witness :
  let square : Geofence.polygon := [[(-1, -1); (-1, 1); (1, 1); (1, -1)]] in
  let ac := Poller.aircraft_at "abc123" (Some 0) (Some (1 # 2)) in
  Geofence.in_any_polygon (Some 0) (Some (1 # 2)) [square] = Ok true
  /\ Poller.geofence_step [square] [ac] = Ok []
  /\ Poller.geofence_keep [square] ac = Ok false
  /\ forall aircraft kept,
       Poller.geofence_step [square] aircraft = Ok kept -> ~ In ac kept.
Proof.
  intros square ac.
  split; [ vm_compute; reflexivity | ].
  split; [ vm_compute; reflexivity | ].
  apply (C9_zero_coordinate_discarded [square] ac).
  - discriminate.
  - left. exists 0. split; reflexivity.
Defined.

(** ** Poller: the feed fetch *)

Section FetchFacts.

Import Poller.

Lemma fetch_military_exhausted (feed : nat -> http_outcome) :
  (forall k, (k <= HTTP_RETRIES)%nat -> raises (try_body (feed k))) ->
  exists e,
    try_body (feed HTTP_RETRIES) = Raise e
    /\ fetch_military feed
       = {| fetched := []; warning := Some (Some e); backoff := [2; 4] |}.
Proof.
  intros Hfail.
  destruct (Hfail 0%nat ltac:(unfold HTTP_RETRIES; lia)) as [e0 E0].
  destruct (Hfail 1%nat ltac:(unfold HTTP_RETRIES; lia)) as [e1 E1].
  destruct (Hfail 2%nat ltac:(unfold HTTP_RETRIES; lia)) as [e2 E2].
  exists e2. split; [ exact E2 | ].
  unfold fetch_military. simpl. rewrite E0. simpl. rewrite E1. simpl.
  rewrite E2. reflexivity.
Qed.

Lemma fetch_military_first_success (feed : nat -> http_outcome)
    (data : list json) :
  try_body (feed 0%nat) = Ok data ->
  fetch_military feed = {| fetched := data; warning := None; backoff := [] |}.
Proof.
  intros E. unfold fetch_military. simpl. rewrite E. reflexivity.
Qed.

Lemma geofence_step_nil (polygons : list Geofence.polygon) :
  geofence_step polygons [] = Ok [].
Proof. destruct polygons; reflexivity. Qed.

End FetchFacts.

(** C7. When every attempt of the feed fetch fails, [fetch_military]
    returns the empty list after two back-off sleeps and one warning, and
    raises nothing; the cycle then completes with no alert, no row and
    no CSV write, leaves the debounce dictionary as it was, sleeps at
    least one second, and the loop goes on with the next cycle. *)
Theorem C7_exhausted_retries_give_empty_cycle
    (decode : Poller.json -> result Poller.Aircraft)
    (polygons : list Geofence.polygon) (cooldown interval : Z)
    (env : Poller.cycle_env) (rest : list Poller.cycle_env)
    (last : gmap string Q) :
  (forall k, (k <= Poller.HTTP_RETRIES)%nat ->
             raises (Poller.try_body (Poller.feed env k))) ->
  exists e out,
    Poller.fetch_military (Poller.feed env)
    = {| Poller.fetched := []; Poller.warning := Some (Some e);
         Poller.backoff := [2; 4] |}
    /\ Poller.poll_cycle decode polygons cooldown interval env last = Ok out
    /\ Poller.printed (Poller.cycle_state out) = []
    /\ Poller.emitted (Poller.cycle_state out) = []
    /\ Poller.event_rows (Poller.cycle_state out) = []
    /\ Poller.csv_appended out = None
    /\ Poller.last_mil_alert (Poller.cycle_state out) = last
    /\ (1 <= Poller.sleep_seconds out)%Z
    /\ Poller.poll_loop decode polygons cooldown interval (env :: rest) last
       = (let! outs := Poller.poll_loop decode polygons cooldown interval
                         rest last in
          Ok (out :: outs)).
Proof.
  intros Hfail.
  destruct (fetch_military_exhausted _ Hfail) as (e & _ & Hfetch).
  exists e.
  eexists. split; [ exact Hfetch | ].
  assert (Hcycle : Poller.poll_cycle decode polygons cooldown interval env last
                   = Ok {| Poller.fetch_log := Poller.fetch_military (Poller.feed env);
                           Poller.cycle_state :=
                             {| Poller.last_mil_alert := last;
                                Poller.event_rows := [];
                                Poller.printed := [];
                                Poller.emitted := [] |};
                           Poller.csv_appended := None;
                           Poller.sleep_seconds :=
                             Z.max 1 (Poller.py_round
                                        (inject_Z interval
                                         - (Poller.t_end env - Poller.t0 env))) |}).
  { unfold Poller.poll_cycle. rewrite Hfetch. simpl.
    rewrite geofence_step_nil. reflexivity. }
  split; [ exact Hcycle | ].
  repeat (split; [ reflexivity | ]).
  split; [ simpl; lia | ].
  simpl. rewrite Hcycle. reflexivity.
Qed.

Lemma C7_witness :
  let env :=
    {| Poller.feed := fun _ => Poller.HttpError (RequestException "timeout");
       Poller.t0 := 1000000; Poller.now_str := "2024-03-15 10:00:00 UTC";
       Poller.clock := fun _ => 1000031; Poller.t_end := 1000031 |} in
  exists e out,
    Poller.fetch_military (Poller.feed env)
    = {| Poller.fetched := []; Poller.warning := Some (Some e);
         Poller.backoff := [2; 4] |}
    /\ Poller.poll_cycle (fun _ => Raise ValueError) [] 1800 60 env ∅ = Ok out
    /\ Poller.printed (Poller.cycle_state out) = []
    /\ Poller.emitted (Poller.cycle_state out) = []
    /\ Poller.event_rows (Poller.cycle_state out) = []
    /\ Poller.csv_appended out = None
    /\ Poller.last_mil_alert (Poller.cycle_state out) = ∅
    /\ (1 <= Poller.sleep_seconds out)%Z
    /\ Poller.poll_loop (fun _ => Raise ValueError) [] 1800 60 [env] ∅
       = (let! outs := Poller.poll_loop (fun _ => Raise ValueError) [] 1800 60
                         [] ∅ in
          Ok (out :: outs)).
Proof.
  intros env.
  apply (C7_exhausted_retries_give_empty_cycle
           (fun _ => Raise ValueError) [] 1800 60 env [] ∅).
  intros k _. exists (RequestException "timeout"). reflexivity.
Defined.

(** ** DebounceTracker *)

Section DebounceFacts.

Import Poller.

Variable cooldown : Z.
Variable stamp : string.

Lemma in_cooldown_false (last : gmap string Q) (h : string) (now_ts : Q) :
  in_cooldown cooldown last h now_ts = false
  <-> inject_Z cooldown <= now_ts - default 0 (last !! h).
Proof. unfold in_cooldown. apply Qltb_false. Qed.

Lemma in_cooldown_true (last : gmap string Q) (h : string) (now_ts : Q) :
  in_cooldown cooldown last h now_ts = true
  <-> now_ts - default 0 (last !! h) < inject_Z cooldown.
Proof. unfold in_cooldown. apply Qltb_true. Qed.

(** One more alert keeps the spacing and the record. *)
Lemma alert_keeps_invariant (events : list (string * Q))
    (last : gmap string Q) (h : string) (now_ts : Q) :
  0 <= inject_Z cooldown ->
  spaced cooldown events -> recorded events last ->
  in_cooldown cooldown last h now_ts = false ->
  spaced cooldown (events ++ [(h, now_ts)])
  /\ recorded (events ++ [(h, now_ts)]) (<[h := now_ts]> last).
Proof.
  intros Hcd Hsp Hrec Hfire. apply in_cooldown_false in Hfire.
  unfold spaced in *. revert Hcd Hsp Hfire.
  generalize (inject_Z cooldown). intros cd Hcd Hsp Hfire.
  assert (Hprev : forall t, In (h, t) events -> cd <= now_ts - t).
  { intros t Hin. destruct (Hrec h t Hin) as (t' & Ht' & Hle).
    rewrite Ht' in Hfire. simpl in Hfire. lra. }
  split.
  - intros i j h' ti tj Hij Hi Hj.
    destruct (Nat.lt_ge_cases j (length events)) as [ Hlt | Hge ].
    + rewrite nth_error_app1 in Hi by lia.
      rewrite nth_error_app1 in Hj by lia.
      exact (Hsp i j h' ti tj Hij Hi Hj).
    + rewrite nth_error_app2 in Hj by lia.
      destruct (j - length events)%nat as [ | k ] eqn:Ek; simpl in Hj;
        [ | destruct k; discriminate ].
      injection Hj as <- <-.
      rewrite nth_error_app1 in Hi by lia.
      apply Hprev. eapply nth_error_In; eauto.
  - intros h' t Hin. apply in_app_or in Hin.
    destruct Hin as [ Hin | [ Heq | [] ] ].
    + destruct (decide (h = h')) as [ <- | Hne ].
      * exists now_ts. rewrite lookup_insert_eq. split; [ reflexivity | ].
        specialize (Hprev t Hin). lra.
      * rewrite lookup_insert_ne by exact Hne. apply Hrec. exact Hin.
    + injection Heq as <- <-. exists now_ts. rewrite lookup_insert_eq.
      split; [ reflexivity | lra ].
Qed.

Lemma alert_loop_cons (s : Aircraft * Q) (rest : list (Aircraft * Q))
    (st : loop_state) :
  alert_loop cooldown stamp (s :: rest) st
  = alert_loop cooldown stamp rest (alert_step cooldown stamp st s).
Proof. reflexivity. Qed.

Lemma alert_loop_invariant (past : list (string * Q))
    (sightings : list (Aircraft * Q)) :
  0 <= inject_Z cooldown ->
  forall st,
    spaced cooldown (past ++ emitted st) ->
    recorded (past ++ emitted st) (last_mil_alert st) ->
    let st' := alert_loop cooldown stamp sightings st in
    spaced cooldown (past ++ emitted st')
    /\ recorded (past ++ emitted st') (last_mil_alert st').
Proof.
  intros Hcd. induction sightings as [ | s rest IH ]; intros st Hsp Hrec.
  - simpl. split; assumption.
  - rewrite alert_loop_cons. apply IH.
    + unfold alert_step.
      destruct (in_cooldown cooldown (last_mil_alert st) (hex (fst s)) (snd s))
        eqn:E; [ exact Hsp | ].
      simpl. rewrite app_assoc.
      apply (alert_keeps_invariant _ _ _ _ Hcd Hsp Hrec E).
    + unfold alert_step.
      destruct (in_cooldown cooldown (last_mil_alert st) (hex (fst s)) (snd s))
        eqn:E; [ exact Hrec | ].
      simpl. rewrite app_assoc.
      apply (alert_keeps_invariant _ _ _ _ Hcd Hsp Hrec E).
Qed.

(** The loop only appends to the trace, and an entry of the dictionary
    that differs afterwards is the time of an alert of the loop. *)
Lemma alert_loop_updates (sightings : list (Aircraft * Q)) :
  forall st,
    exists fresh,
      emitted (alert_loop cooldown stamp sightings st) = emitted st ++ fresh
      /\ forall h,
           last_mil_alert (alert_loop cooldown stamp sightings st) !! h
           = last_mil_alert st !! h
           \/ exists t,
                last_mil_alert (alert_loop cooldown stamp sightings st) !! h
                = Some t
                /\ In (h, t) fresh.
Proof.
  induction sightings as [ | s rest IH ]; intros st.
  - exists []. simpl. rewrite app_nil_r. split; [ reflexivity | ].
    intros h. left. reflexivity.
  - rewrite alert_loop_cons.
    destruct (IH (alert_step cooldown stamp st s)) as (fresh & Hem & Hup).
    unfold alert_step in *.
    destruct (in_cooldown cooldown (last_mil_alert st) (hex (fst s)) (snd s)).
    + exists fresh. split; assumption.
    + simpl in *. exists ((hex (fst s), snd s) :: fresh). split.
      * rewrite Hem, <- app_assoc. reflexivity.
      * intros h. destruct (Hup h) as [ Hsame | (t & Ht & Hin) ].
        -- destruct (decide (hex (fst s) = h)) as [ Heq | Hne ].
           ++ right. exists (snd s). rewrite Hsame, <- Heq, lookup_insert_eq.
              split; [ reflexivity | left; reflexivity ].
           ++ left. rewrite Hsame. apply lookup_insert_ne. exact Hne.
        -- right. exists t. split; [ exact Ht | right; exact Hin ].
Qed.

End DebounceFacts.

Section PollLoopFacts.

Import Poller.

Variable decode : json -> result Aircraft.
Variable polygons : list Geofence.polygon.
Variables cooldown interval : Z.

Lemma poll_cycle_state (env : cycle_env) (last : gmap string Q)
    (out : cycle_outcome) :
  poll_cycle decode polygons cooldown interval env last = Ok out ->
  exists sightings,
    cycle_state out
    = alert_loop cooldown (now_str env) sightings
        {| last_mil_alert := last; event_rows := [];
           printed := []; emitted := [] |}.
Proof.
  unfold poll_cycle. intros H. apply rbind_ok in H.
  destruct H as (aircraft & _ & H). injection H as <-. simpl. eauto.
Qed.

Lemma run_emitted_cons (out : cycle_outcome) (outs : list cycle_outcome) :
  run_emitted (out :: outs) = emitted (cycle_state out) ++ run_emitted outs.
Proof. reflexivity. Qed.

Lemma poll_loop_invariant (envs : list cycle_env) :
  0 <= inject_Z cooldown ->
  forall (past : list (string * Q)) (last : gmap string Q)
         (outs : list cycle_outcome),
    poll_loop decode polygons cooldown interval envs last = Ok outs ->
    spaced cooldown past -> recorded past last ->
    spaced cooldown (past ++ run_emitted outs)
    /\ recorded (past ++ run_emitted outs) (run_last last outs).
Proof.
  intros Hcd. induction envs as [ | env rest IH ];
    intros past last outs Hrun Hsp Hrec; simpl in Hrun.
  - injection Hrun as <-. unfold run_emitted. simpl. rewrite app_nil_r.
    split; assumption.
  - apply rbind_ok in Hrun. destruct Hrun as (out & Hout & Hrun).
    apply rbind_ok in Hrun. destruct Hrun as (outs' & Hrest & Hrun).
    injection Hrun as <-.
    destruct (poll_cycle_state _ _ _ Hout) as (sightings & Hst).
    pose proof (alert_loop_invariant cooldown (now_str env) past sightings Hcd
                  {| last_mil_alert := last; event_rows := [];
                     printed := []; emitted := [] |}) as Hloop.
    simpl in Hloop. rewrite app_nil_r in Hloop.
    destruct (Hloop Hsp Hrec) as [ Hsp' Hrec' ]. rewrite <- Hst in Hsp', Hrec'.
    rewrite run_emitted_cons, app_assoc. simpl.
    apply (IH _ _ _ Hrest Hsp' Hrec').
Qed.

Lemma poll_loop_updates (envs : list cycle_env) :
  forall (last : gmap string Q) (outs : list cycle_outcome),
    poll_loop decode polygons cooldown interval envs last = Ok outs ->
    forall h,
      run_last last outs !! h = last !! h
      \/ exists t, run_last last outs !! h = Some t /\ In (h, t) (run_emitted outs).
Proof.
  induction envs as [ | env rest IH ]; intros last outs Hrun h; simpl in Hrun.
  - injection Hrun as <-. left. reflexivity.
  - apply rbind_ok in Hrun. destruct Hrun as (out & Hout & Hrun).
    apply rbind_ok in Hrun. destruct Hrun as (outs' & Hrest & Hrun).
    injection Hrun as <-.
    destruct (poll_cycle_state _ _ _ Hout) as (sightings & Hst).
    destruct (alert_loop_updates cooldown (now_str env) sightings
                {| last_mil_alert := last; event_rows := [];
                   printed := []; emitted := [] |}) as (fresh & Hem & Hup).
    rewrite <- Hst in Hem, Hup. simpl in Hem, Hup.
    rewrite run_emitted_cons, Hem. simpl.
    destruct (IH _ _ Hrest h) as [ Hsame | (t & Ht & Hin) ].
    + rewrite Hsame. destruct (Hup h) as [ Hsame' | (t & Ht & Hin) ].
      * left. exact Hsame'.
      * right. exists t. split; [ exact Ht | apply in_or_app; left; exact Hin ].
    + right. exists t. split; [ exact Ht | apply in_or_app; right; exact Hin ].
Qed.

End PollLoopFacts.

(** C1. In every run of the poll loop, any two alerts emitted for one
    address [h] have recorded times at least the cooldown apart (and,
    the cooldown being non-negative, the later alert is at least the
    cooldown after the earlier one); and the last-alert time of [h] is
    changed only by an alert emitted for [h], whose time it then is. *)
Theorem C1_alerts_spaced_by_cooldown
    (decode : Poller.json -> result Poller.Aircraft)
    (polygons : list Geofence.polygon) (cooldown interval : Z)
    (envs : list Poller.cycle_env) (last : gmap string Q)
    (outs : list Poller.cycle_outcome) :
  Poller.poll_loop decode polygons cooldown interval envs last = Ok outs ->
  (forall i j h ti tj,
     (i < j)%nat ->
     nth_error (Poller.run_emitted outs) i = Some (h, ti) ->
     nth_error (Poller.run_emitted outs) j = Some (h, tj) ->
     inject_Z cooldown <= Qabs (tj - ti)
     /\ ((0 <= cooldown)%Z -> inject_Z cooldown <= tj - ti))
  /\ (forall h,
        Poller.run_last last outs !! h = last !! h
        \/ exists t, Poller.run_last last outs !! h = Some t
                     /\ In (h, t) (Poller.run_emitted outs)).
Proof.
  intros Hrun. split; [ | apply (poll_loop_updates _ _ _ _ _ _ _ Hrun) ].
  intros i j h ti tj Hij Hi Hj.
  assert (Hsigned : (0 <= cooldown)%Z -> inject_Z cooldown <= tj - ti).
  { intros Hcd.
    assert (Hq : 0 <= inject_Z cooldown)
      by (change 0 with (inject_Z 0); rewrite <- Zle_Qle; exact Hcd).
    destruct (poll_loop_invariant decode polygons cooldown interval envs Hq
                [] last outs Hrun) as [ Hsp _ ].
    - intros i' j' h' a b _ Hnone. destruct i'; discriminate.
    - intros h' t [].
    - simpl in Hsp. exact (Hsp i j h ti tj Hij Hi Hj). }
  split; [ | exact Hsigned ].
  destruct (Z_le_gt_dec 0 cooldown) as [ Hcd | Hneg ].
  - apply Qle_trans with (tj - ti); [ auto | apply Qle_Qabs ].
  - apply Qle_trans with 0; [ | apply Qabs_nonneg ].
    change 0 with (inject_Z 0). rewrite <- Zle_Qle. lia.
Qed.

Lemma scenario_run :
  exists outs,
    Scenario.run = Ok outs
    /\ Poller.run_emitted outs
       = [("abc123"%string, 1000000 # 1); ("abc123"%string, 1001801 # 1)].
Proof.
  eexists. split; vm_compute; reflexivity.
Qed.

Lemma C1_witness :
  exists outs,
    Scenario.run = Ok outs
    /\ inject_Z 1800 <= Qabs ((1001801 # 1) - (1000000 # 1))
    /\ ((0 <= 1800)%Z -> inject_Z 1800 <= (1001801 # 1) - (1000000 # 1)).
Proof.
  assert (H : exists outs,
             Scenario.run = Ok outs
             /\ Poller.run_emitted outs
                = [("abc123"%string, 1000000 # 1); ("abc123"%string, 1001801 # 1)])
    by (eexists; split; vm_compute; reflexivity).
  destruct H as (outs & Hrun & Hem).
  exists outs. split; [ exact Hrun | ].
  apply (proj1 (C1_alerts_spaced_by_cooldown Scenario.decode [] 1800 60
                  Scenario.envs ∅ outs Hrun)
           0%nat 1%nat "abc123"%string).
  - lia.
  - rewrite Hem. reflexivity.
  - rewrite Hem. reflexivity.
Defined.

(** The first sighting of an aircraft 1000 seconds after the epoch, with
    the cooldown of 1800 seconds, is within the cooldown: no alert. *)
Lemma C2_counterexample :
  ~ (forall (h : string) (last : gmap string Q) (now_ts : Q) (cooldown : Z),
       last !! h = None ->
       Poller.in_cooldown cooldown last h now_ts = false).
Proof.
  intros H.
  specialize (H "abc123"%string ∅ (1000 # 1) 1800%Z (lookup_empty _)).
  vm_compute in H. discriminate.
Qed.

Lemma first_sighting_silent :
  let st := {| Poller.last_mil_alert := ∅; Poller.event_rows := [];
               Poller.printed := []; Poller.emitted := [] |} in
  Poller.alert_step 1800 "1970-01-01 00:16:40 UTC" st
    (Poller.aircraft_at "abc123" (Some (45 # 1)) (Some (9 # 1)), 1000 # 1)
  = st.
Proof. vm_compute. reflexivity. Qed.

(** C2, amended. For an address with no entry in the debounce dictionary
    the entry counts as the time 0: the decision is positive exactly
    when [now] is at least the cooldown, and the alert is then emitted
    and [now] recorded. *)
Theorem C2_first_sighting_fires_after_cooldown
    (h : string) (last : gmap string Q) (now_ts : Q) (cooldown : Z) :
  last !! h = None ->
  (Poller.in_cooldown cooldown last h now_ts = false
   <-> inject_Z cooldown <= now_ts)
  /\ (inject_Z cooldown <= now_ts ->
      forall stamp st ac,
        Poller.last_mil_alert st = last -> Poller.hex ac = h ->
        let st' := Poller.alert_step cooldown stamp st (ac, now_ts) in
        Poller.emitted st' = Poller.emitted st ++ [(h, now_ts)]
        /\ Poller.last_mil_alert st' !! h = Some now_ts).
Proof.
  intros Hnone.
  assert (Hiff : Poller.in_cooldown cooldown last h now_ts = false
                 <-> inject_Z cooldown <= now_ts).
  { rewrite in_cooldown_false, Hnone. simpl.
    generalize (inject_Z cooldown). intros cd. split; intros H; lra. }
  split; [ exact Hiff | ].
  intros Hle stamp st ac Hlast Hhex. apply Hiff in Hle.
  unfold Poller.alert_step. simpl. rewrite Hlast, Hhex, Hle. simpl.
  split; [ reflexivity | apply lookup_insert_eq ].
Qed.

Lemma C2_witness :
  (Poller.in_cooldown 1800 ∅ "abc123" (1700000000 # 1) = false
   <-> inject_Z 1800 <= 1700000000 # 1)
  /\ (inject_Z 1800 <= 1700000000 # 1 ->
      forall stamp st ac,
        Poller.last_mil_alert st = ∅ -> Poller.hex ac = "abc123"%string ->
        let st' := Poller.alert_step 1800 stamp st (ac, 1700000000 # 1) in
        Poller.emitted st'
        = Poller.emitted st ++ [("abc123"%string, 1700000000 # 1)]
        /\ Poller.last_mil_alert st' !! "abc123"%string = Some (1700000000 # 1)).
Proof.
  apply (C2_first_sighting_fires_after_cooldown "abc123" ∅ (1700000000 # 1) 1800).
  reflexivity.
Defined.

(** ** ReportAggregator *)

Lemma get_period_bounds_date_only (period : string)
    (now1 now2 : Calendar.datetime) :
  Calendar.dt_date now1 = Calendar.dt_date now2 ->
  Report.get_period_bounds period now1 = Report.get_period_bounds period now2.
Proof.
  intros H. unfold Report.get_period_bounds. rewrite H. reflexivity.
Qed.

Lemma friday_15_march_2024 :
  Calendar.weekday {| Calendar.year := 2024; Calendar.month := 3;
                      Calendar.day := 15 |} = 4%Z.
Proof. reflexivity. Qed.

(** C5. [get_period_bounds] depends on the reference moment through its
    local date only.  For the reference date 2024-03-15 (a Friday) the
    daily period starts and ends on "2024-03-15" with label "15.03.24",
    and the weekly period runs from "2024-03-11", a Monday, to
    "2024-03-17"; for the reference date 2024-12-10 the monthly period
    runs from "2024-12-01" to "2024-12-31". *)
Theorem C5_period_bounds :
  (forall period now1 now2,
     Calendar.dt_date now1 = Calendar.dt_date now2 ->
     Report.get_period_bounds period now1 = Report.get_period_bounds period now2)
  /\ (forall now,
        Calendar.dt_date now
        = {| Calendar.year := 2024; Calendar.month := 3; Calendar.day := 15 |} ->
        Report.get_period_bounds "daily" now
        = Ok ("2024-03-15", "2024-03-15", "15.03.24")%string
        /\ Report.get_period_bounds "weekly" now
           = Ok ("2024-03-11", "2024-03-17",
                 String.append "11.03.24" (String.append Report.arrow "17.03.24"))%string
        /\ Calendar.weekday (Calendar.dt_date now) = 4%Z
        /\ Calendar.weekday {| Calendar.year := 2024; Calendar.month := 3;
                               Calendar.day := 11 |} = 0%Z)
  /\ (forall now,
        Calendar.dt_date now
        = {| Calendar.year := 2024; Calendar.month := 12; Calendar.day := 10 |} ->
        Report.get_period_bounds "monthly" now
        = Ok ("2024-12-01", "2024-12-31", "12.24")%string).
Proof.
  split; [ exact get_period_bounds_date_only | ].
  split.
  - intros now H. unfold Report.get_period_bounds. rewrite H.
    repeat split; vm_compute; reflexivity.
  - intros now H. unfold Report.get_period_bounds. rewrite H.
    vm_compute. reflexivity.
Qed.

Lemma C5_witness :
  let at_time (d : Calendar.date) (h : Z) : Calendar.datetime :=
    {| Calendar.dt_date := d; Calendar.dt_hour := h; Calendar.dt_minute := 30;
       Calendar.dt_second := 0; Calendar.dt_microsecond := 0 |} in
  let day1 := {| Calendar.year := 2024; Calendar.month := 3; Calendar.day := 15 |} in
  let day2 := {| Calendar.year := 2024; Calendar.month := 12; Calendar.day := 10 |} in
  Report.get_period_bounds "weekly" (at_time day1 7%Z)
  = Report.get_period_bounds "weekly" (at_time day1 23%Z)
  /\ Report.get_period_bounds "daily" (at_time day1 7%Z)
     = Ok ("2024-03-15", "2024-03-15", "15.03.24")%string
  /\ Report.get_period_bounds "monthly" (at_time day2 7%Z)
     = Ok ("2024-12-01", "2024-12-31", "12.24")%string.
Proof.
  intros at_time day1 day2.
  split; [ | split ].
  - apply (proj1 C5_period_bounds "weekly"%string (at_time day1 7%Z)
             (at_time day1 23%Z)).
    reflexivity.
  - apply (proj1 (proj2 C5_period_bounds) (at_time day1 7%Z)). reflexivity.
  - apply (proj2 (proj2 C5_period_bounds) (at_time day2 7%Z)). reflexivity.
Defined.

(** ** SQLite's [datetime()] on the poller's timestamps *)

Section DatetimeFacts.

Import SqliteDate.

Lemma last_is_C_tail (c : ascii) (rest : string) :
  last_is_C (String c rest) = true -> c <> "C"%char -> last_is_C rest = true.
Proof.
  simpl. destruct rest as [ | d rest' ]; intros H Hc.
  - apply Ascii.eqb_eq in H. contradiction.
  - exact H.
Qed.

Lemma last_is_C_nonempty (s : string) : last_is_C s = true -> s <> EmptyString.
Proof. destruct s; [ discriminate | discriminate ]. Qed.

Lemma digit_not_C (c : ascii) : is_digit c = true -> c <> "C"%char.
Proof. intros H ->. discriminate. Qed.

Lemma space_not_C (c : ascii) : is_space c = true -> c <> "C"%char.
Proof. intros H ->. discriminate. Qed.

Lemma eqb_not_C (c d : ascii) :
  Ascii.eqb c d = true -> d <> "C"%char -> c <> "C"%char.
Proof. intros H Hd. apply Ascii.eqb_eq in H. congruence. Qed.

Lemma skip_spaces_last (s : string) :
  last_is_C s = true -> last_is_C (skip_spaces s) = true.
Proof.
  induction s as [ | c rest IH ]; [ discriminate | ].
  intros H. simpl. destruct (is_space c) eqn:E; [ | exact H ].
  apply IH. apply (last_is_C_tail c rest H). apply space_not_C. exact E.
Qed.

Lemma skip_spaces_or_T_last (s : string) :
  last_is_C s = true -> last_is_C (skip_spaces_or_T s) = true.
Proof.
  induction s as [ | c rest IH ]; [ discriminate | ].
  intros H. simpl. destruct (is_space c || Ascii.eqb c "T") eqn:E; [ | exact H ].
  apply IH. apply (last_is_C_tail c rest H).
  apply orb_true_iff in E. destruct E as [ E | E ].
  - apply space_not_C. exact E.
  - apply (eqb_not_C _ _ E). discriminate.
Qed.

Lemma take_digits_last (count : nat) :
  forall s acc v rest,
    last_is_C s = true -> take_digits count s acc = Some (v, rest) ->
    last_is_C rest = true.
Proof.
  induction count as [ | k IH ]; intros s acc v rest Hs H; simpl in H.
  - injection H as _ <-. exact Hs.
  - destruct s as [ | c r ]; [ discriminate | ].
    destruct (is_digit c) eqn:E; [ | discriminate ].
    apply (IH _ _ _ _ (last_is_C_tail c r Hs (digit_not_C c E)) H).
Qed.

Lemma get_field_last (count : nat) (lo hi : Z) (sep : option ascii)
    (s : string) (v : Z) (rest : string) :
  sep <> Some "C"%char ->
  last_is_C s = true -> get_field count lo hi sep s = Some (v, rest) ->
  last_is_C rest = true.
Proof.
  intros Hsep Hs H. unfold get_field in H.
  destruct (take_digits count s 0) as [ [v0 r0] | ] eqn:E; [ | discriminate ].
  pose proof (take_digits_last _ _ _ _ _ Hs E) as Hr0.
  destruct ((v0 <? lo)%Z || (hi <? v0)%Z); [ discriminate | ].
  destruct sep as [ c | ].
  - destruct r0 as [ | c' r1 ]; [ discriminate | ].
    destruct (Ascii.eqb c c') eqn:Ec; [ | discriminate ].
    injection H as _ <-. apply (last_is_C_tail c' r1 Hr0).
    apply Ascii.eqb_eq in Ec. congruence.
  - injection H as _ <-. exact Hr0.
Qed.

Lemma parse_zulu_tail_last (s : string) (offset : Z) :
  last_is_C s = true -> parse_zulu_tail s offset = None.
Proof.
  intros H. unfold parse_zulu_tail.
  pose proof (last_is_C_nonempty _ (skip_spaces_last s H)) as Hne.
  destruct (skip_spaces s); [ contradiction | reflexivity ].
Qed.

Lemma parse_offset_last (sgn : Z) (s : string) :
  last_is_C s = true -> parse_offset sgn s = None.
Proof.
  intros H. unfold parse_offset.
  destruct (get_field 2 0 14 (Some ":"%char) s) as [ [nHr r1] | ] eqn:E1;
    [ | reflexivity ].
  assert (H1 : last_is_C r1 = true)
    by (eapply get_field_last; [ | exact H | exact E1 ]; discriminate).
  destruct (get_field 2 0 59 None r1) as [ [nMn r2] | ] eqn:E2; [ | reflexivity ].
  apply parse_zulu_tail_last.
  eapply get_field_last; [ | exact H1 | exact E2 ]. discriminate.
Qed.

Lemma parseTimezone_last (s : string) :
  last_is_C s = true -> parseTimezone s = None.
Proof.
  intros H. unfold parseTimezone.
  pose proof (skip_spaces_last s H) as Hs.
  destruct (skip_spaces s) as [ | c rest ]; [ discriminate | ].
  destruct (Ascii.eqb c "-") eqn:E1.
  { apply parse_offset_last. apply (last_is_C_tail c rest Hs).
    apply (eqb_not_C _ _ E1). discriminate. }
  destruct (Ascii.eqb c "+") eqn:E2.
  { apply parse_offset_last. apply (last_is_C_tail c rest Hs).
    apply (eqb_not_C _ _ E2). discriminate. }
  destruct (Ascii.eqb c "Z" || Ascii.eqb c "z") eqn:E3; [ | reflexivity ].
  apply parse_zulu_tail_last. apply (last_is_C_tail c rest Hs).
  apply orb_true_iff in E3. destruct E3 as [ E | E ];
    apply (eqb_not_C _ _ E); discriminate.
Qed.

Lemma take_fraction_last (s : string) :
  forall num scale n' s' rest,
    last_is_C s = true -> take_fraction s num scale = (n', s', rest) ->
    last_is_C rest = true.
Proof.
  induction s as [ | c r IH ]; intros num scale n' s' rest Hs H; simpl in H.
  - discriminate.
  - destruct (is_digit c) eqn:E.
    + apply (IH _ _ _ _ _ (last_is_C_tail c r Hs (digit_not_C c E)) H).
    + injection H as _ _ <-. exact Hs.
Qed.

Lemma parseHhMmSs_last (s : string) :
  last_is_C s = true -> parseHhMmSs s = None.
Proof.
  intros H. unfold parseHhMmSs.
  destruct (get_field 2 0 24 (Some ":"%char) s) as [ [h r0] | ] eqn:E0;
    [ | reflexivity ].
  assert (H0 : last_is_C r0 = true)
    by (eapply get_field_last; [ | exact H | exact E0 ]; discriminate).
  destruct (get_field 2 0 59 None r0) as [ [m r1] | ] eqn:E1; [ | reflexivity ].
  assert (H1 : last_is_C r1 = true)
    by (eapply get_field_last; [ | exact H0 | exact E1 ]; discriminate).
  destruct r1 as [ | c r2 ]; [ discriminate | ].
  destruct (Ascii.eqb c ":") eqn:Ec.
  - assert (H2 : last_is_C r2 = true).
    { apply (last_is_C_tail c r2 H1). apply (eqb_not_C _ _ Ec). discriminate. }
    destruct (get_field 2 0 59 None r2) as [ [sec r3] | ] eqn:E2;
      [ | reflexivity ].
    assert (H3 : last_is_C r3 = true)
      by (eapply get_field_last; [ | exact H2 | exact E2 ]; discriminate).
    destruct r3 as [ | d [ | e r4 ] ].
    + discriminate.
    + rewrite (parseTimezone_last _ H3). reflexivity.
    + destruct (Ascii.eqb d "." && is_digit e) eqn:Ed.
      * apply andb_true_iff in Ed. destruct Ed as [ Ed Ee ].
        assert (H4 : last_is_C (String e r4) = true).
        { apply (last_is_C_tail d _ H3). apply (eqb_not_C _ _ Ed). discriminate. }
        destruct (take_fraction (String e r4) 0 1) as [ [num scale] r5 ] eqn:Ef.
        rewrite (parseTimezone_last _ (take_fraction_last _ _ _ _ _ _ H4 Ef)).
        reflexivity.
      * rewrite (parseTimezone_last _ H3). reflexivity.
  - rewrite (parseTimezone_last _ H1). reflexivity.
Qed.

Lemma parseYyyyMmDd_last (s : string) :
  last_is_C s = true -> parseYyyyMmDd s = None.
Proof.
  intros H. unfold parseYyyyMmDd.
  assert (Hbody : forall body, last_is_C body = true ->
            forall neg : bool,
            match get_field 4 0 9999 (Some "-"%char) body with
            | None => None
            | Some (Y, r1) =>
                match get_field 2 1 12 (Some "-"%char) r1 with
                | None => None
                | Some (M, r2) =>
                    match get_field 2 1 31 None r2 with
                    | None => None
                    | Some (D, r3) =>
                        let tail := skip_spaces_or_T r3 in
                        let Y' := if neg then (- Y)%Z else Y in
                        match parseHhMmSs tail with
                        | Some t => Some (PDate Y' M D (Some t))
                        | None =>
                            match tail with
                            | EmptyString => Some (PDate Y' M D None)
                            | _ => None
                            end
                        end
                    end
                end
            end = None).
  { intros body Hb neg.
    destruct (get_field 4 0 9999 (Some "-"%char) body) as [ [Y r1] | ] eqn:E1;
      [ | reflexivity ].
    assert (H1 : last_is_C r1 = true)
      by (eapply get_field_last; [ | exact Hb | exact E1 ]; discriminate).
    destruct (get_field 2 1 12 (Some "-"%char) r1) as [ [M r2] | ] eqn:E2;
      [ | reflexivity ].
    assert (H2 : last_is_C r2 = true)
      by (eapply get_field_last; [ | exact H1 | exact E2 ]; discriminate).
    destruct (get_field 2 1 31 None r2) as [ [D r3] | ] eqn:E3; [ | reflexivity ].
    assert (H3 : last_is_C r3 = true)
      by (eapply get_field_last; [ | exact H2 | exact E3 ]; discriminate).
    pose proof (skip_spaces_or_T_last _ H3) as Ht. cbv zeta.
    rewrite (parseHhMmSs_last _ Ht).
    destruct (skip_spaces_or_T r3); [ discriminate | reflexivity ]. }
  destruct s as [ | c rest ]; [ discriminate | ].
  destruct (Ascii.eqb c "-") eqn:E.
  - assert (Hrest : last_is_C rest = true).
    { apply (last_is_C_tail c rest H). apply (eqb_not_C _ _ E). discriminate. }
    exact (Hbody rest Hrest true).
  - exact (Hbody (String c rest) H false).
Qed.

Lemma all_numeric_chars_last (s : string) :
  last_is_C s = true -> all_numeric_chars s = false.
Proof.
  induction s as [ | c rest IH ]; [ discriminate | ].
  intros H. simpl. destruct (numeric_char c) eqn:E; [ | reflexivity ].
  simpl. apply IH. apply (last_is_C_tail c rest H). intros ->. discriminate.
Qed.

Lemma is_now_last (s : string) :
  last_is_C s = true -> is_now_from s "now" = false.
Proof.
  intros H.
  destruct s as [ | a [ | b [ | c [ | d rest ] ] ] ]; simpl;
    try (rewrite ?andb_false_r; reflexivity).
  simpl in H. apply Ascii.eqb_eq in H. subst c.
  rewrite ?andb_false_r. reflexivity.
Qed.

(** A text that ends with the letter C is neither a date, nor a time,
    nor the word [now], nor a number: its [datetime] is NULL. *)
Lemma datetime_null_on_utc_suffix (fb : fallback) (s : string) :
  last_is_C s = true -> datetime fb (Some s) = None.
Proof.
  intros H. unfold datetime, parse_date_or_time.
  rewrite (parseYyyyMmDd_last s H), (parseHhMmSs_last s H).
  rewrite (is_now_last s H), (all_numeric_chars_last s H). reflexivity.
Qed.

End DatetimeFacts.

(** ** EventStore: ingestion *)

Section IngestFacts.

Import EventStore.

Variable aff : affinity.

Lemma key_conflict_self (r : csv_record) :
  has_key r = true -> key_conflict (to_db_row aff r) (to_db_row aff r) = true.
Proof.
  unfold has_key, key_conflict. simpl.
  destruct (csv_first_seen_utc r), (csv_hex r); try discriminate.
  intros _. rewrite !String.eqb_refl. reflexivity.
Qed.

Lemma key_conflict_null (a b : db_row) :
  hex a = None \/ first_seen_utc a = None -> key_conflict a b = false.
Proof.
  unfold key_conflict. intros [ -> | -> ]; [ | reflexivity ].
  destruct (first_seen_utc a); reflexivity.
Qed.

Lemma insert_keeps_conflict (table : list db_row) (row other : db_row) :
  existsb (key_conflict row) table = true ->
  existsb (key_conflict row) (insert_or_ignore table other) = true.
Proof.
  intros H. unfold insert_or_ignore.
  destruct (existsb (key_conflict other) table); [ exact H | ].
  rewrite existsb_app, H. reflexivity.
Qed.

Lemma fold_keeps_conflict (rows : list db_row) :
  forall table row,
    existsb (key_conflict row) table = true ->
    existsb (key_conflict row) (fold_left insert_or_ignore rows table) = true.
Proof.
  induction rows as [ | r rest IH ]; intros table row H; simpl.
  - exact H.
  - apply IH. apply insert_keeps_conflict. exact H.
Qed.

Lemma insert_makes_conflict (table : list db_row) (r : csv_record) :
  has_key r = true ->
  existsb (key_conflict (to_db_row aff r))
    (insert_or_ignore table (to_db_row aff r)) = true.
Proof.
  intros Hk. unfold insert_or_ignore.
  destruct (existsb (key_conflict (to_db_row aff r)) table) eqn:E; [ exact E | ].
  rewrite existsb_app. simpl. rewrite (key_conflict_self r Hk).
  rewrite orb_true_r. reflexivity.
Qed.

Lemma fold_covers_rows (rows : list csv_record) :
  forallb has_key rows = true ->
  forall table r,
    In r rows ->
    existsb (key_conflict (to_db_row aff r))
      (fold_left insert_or_ignore (map (to_db_row aff) rows) table) = true.
Proof.
  induction rows as [ | a rest IH ]; intros Hk table r Hin; [ contradiction | ].
  simpl in Hk. apply andb_true_iff in Hk. destruct Hk as [ Ha Hrest ].
  simpl. destruct Hin as [ <- | Hin ].
  - apply fold_keeps_conflict. apply insert_makes_conflict. exact Ha.
  - apply IH; assumption.
Qed.

Lemma fold_ignores_covered (rows : list db_row) (table : list db_row) :
  (forall row, In row rows -> existsb (key_conflict row) table = true) ->
  fold_left insert_or_ignore rows table = table.
Proof.
  induction rows as [ | r rest IH ]; intros H; simpl; [ reflexivity | ].
  unfold insert_or_ignore at 2. rewrite (H r (or_introl eq_refl)).
  apply IH. intros row Hin. apply H. right. exact Hin.
Qed.

(** Ingesting again a CSV whose records all carry the identity pair
    changes nothing and raises nothing. *)
Lemma csv_to_db_idempotent (rows : list csv_record) (conn db1 : database)
    (log1 : list log_line) :
  forallb has_key rows = true ->
  csv_to_db aff (Some rows) conn = Ok (db1, log1) ->
  csv_to_db aff (Some rows) db1 = Ok (db1, log1).
Proof.
  intros Hk H. unfold csv_to_db in *.
  destruct rows as [ | r rest ]; [ injection H as <- <-; reflexivity | ].
  destruct conn as [ table | ]; [ | discriminate ].
  injection H as <- <-. f_equal. f_equal. f_equal.
  apply fold_ignores_covered. intros row Hin.
  apply in_map_iff in Hin. destruct Hin as (c & <- & Hc).
  exact (fold_covers_rows (r :: rest) Hk table c Hc).
Qed.

(** A record that lacks a column of the identity pair is stored at
    every ingestion, whatever the table holds. *)
Lemma csv_to_db_keyless_grows (r : csv_record) (table : list db_row) :
  has_key r = false ->
  csv_to_db aff (Some [r]) (Some table)
  = Ok (Some (table ++ [to_db_row aff r]), [InfoImported 1]).
Proof.
  intros Hk. unfold csv_to_db. simpl. unfold insert_or_ignore.
  assert (Hnone : existsb (key_conflict (to_db_row aff r)) table = false).
  { induction table as [ | a rest IH ]; simpl; [ reflexivity | ].
    rewrite IH, orb_false_r. apply key_conflict_null. simpl.
    unfold has_key in Hk.
    destruct (csv_first_seen_utc r), (csv_hex r); auto; discriminate. }
  rewrite Hnone. reflexivity.
Qed.

Lemma csv_to_db_missing_file (conn : database) :
  csv_to_db aff None conn = Ok (conn, [WarnCsvMissing]).
Proof. reflexivity. Qed.

End IngestFacts.

(** C3. Ingestion is not idempotent on every CSV.  A line of the CSV
    that stops after its first field gives a record without [hex]; it is
    stored with a NULL in the key, conflicts with nothing, and ingesting
    the same CSV again stores it again: one row after the first
    ingestion, two after the second. *)
Theorem C3_short_line_stored_again (aff : EventStore.affinity) :
  let csv := Some [StoreScenario.short_record "2024-03-15 10:00:00 UTC"] in
  let row :=
    EventStore.to_db_row aff
      (StoreScenario.short_record "2024-03-15 10:00:00 UTC") in
  EventStore.csv_to_db aff csv (EventStore.init_db None)
  = Ok (Some [row], [EventStore.InfoImported 1])
  /\ EventStore.csv_to_db aff csv (Some [row])
     = Ok (Some [row; row], [EventStore.InfoImported 1])
  /\ EventStore.row_count (Some [row]) = 1%nat
  /\ EventStore.row_count (Some [row; row]) = 2%nat.
Proof.
  repeat split.
Qed.

(** ** EventStore: the range query *)

Section QueryFacts.

Import EventStore.

Variable fb : SqliteDate.fallback.

Lemma insert_sorted_In (row r : db_row) (sorted : list db_row) :
  In r (insert_sorted fb row sorted) <-> r = row \/ In r sorted.
Proof.
  induction sorted as [ | a rest IH ]; simpl.
  - split; intros [ H | H ]; auto.
  - destruct (key_le (sort_key fb row) (sort_key fb a)); simpl.
    + split; intros [ H | H ]; auto.
    + rewrite IH. split; intros H; tauto.
Qed.

Lemma order_by_datetime_In (r : db_row) (rows : list db_row) :
  In r (order_by_datetime fb rows) <-> In r rows.
Proof.
  induction rows as [ | a rest IH ]; simpl; [ reflexivity | ].
  rewrite insert_sorted_In, IH. split; intros [ H | H ]; auto.
Qed.

Lemma order_by_datetime_length (rows : list db_row) :
  length (order_by_datetime fb rows) = length rows.
Proof.
  assert (Hins : forall row sorted,
             length (insert_sorted fb row sorted) = S (length sorted)).
  { intros row sorted. induction sorted as [ | a rest IH ]; simpl;
      [ reflexivity | ].
    destruct (key_le (sort_key fb row) (sort_key fb a)); simpl; congruence. }
  induction rows as [ | a rest IH ]; simpl; [ reflexivity | ].
  rewrite Hins, IH. reflexivity.
Qed.

(** The rows returned are the rows of the table whose first ten
    characters of [first_seen_utc] lie between the two days. *)
Lemma query_membership (table : list db_row) (start_day end_day : string)
    (r : db_row) :
  exists rows,
    query_events_by_day_range fb (Some table) start_day end_day = Ok rows
    /\ (In r rows <-> In r table /\ in_day_range start_day end_day r = true).
Proof.
  eexists. split; [ reflexivity | ].
  rewrite order_by_datetime_In. apply filter_In.
Qed.

Lemma key_le_total (a b : option string) :
  key_le a b = true \/ key_le b a = true.
Proof.
  destruct a, b; simpl; auto. apply String.leb_total.
Qed.

(** Each row returned has a key not above the key of the next one. *)
Lemma insert_sorted_ordered (row : db_row) (sorted : list db_row) :
  Sorted.Sorted (fun a b => key_le (sort_key fb a) (sort_key fb b) = true) sorted ->
  Sorted.Sorted (fun a b => key_le (sort_key fb a) (sort_key fb b) = true)
    (insert_sorted fb row sorted).
Proof.
  induction sorted as [ | a rest IH ]; intros Hs; simpl.
  - repeat constructor.
  - destruct (key_le (sort_key fb row) (sort_key fb a)) eqn:E.
    + constructor; [ exact Hs | constructor; exact E ].
    + inversion Hs as [ | ? ? Hrest Hhd ]; subst.
      constructor; [ apply IH; exact Hrest | ].
      assert (Ha : key_le (sort_key fb a) (sort_key fb row) = true).
      { destruct (key_le_total (sort_key fb a) (sort_key fb row)) as [ H | H ];
          [ exact H | congruence ]. }
      destruct rest as [ | b rest' ]; simpl.
      * constructor. exact Ha.
      * destruct (key_le (sort_key fb row) (sort_key fb b)).
        -- constructor. exact Ha.
        -- constructor. inversion Hhd; subst. assumption.
Qed.

Lemma order_by_datetime_ordered (rows : list db_row) :
  Sorted.Sorted (fun a b => key_le (sort_key fb a) (sort_key fb b) = true)
    (order_by_datetime fb rows).
Proof.
  induction rows as [ | a rest IH ]; simpl.
  - constructor.
  - apply insert_sorted_ordered. exact IH.
Qed.

(** With a NULL key on every row the sorter has nothing to order by:
    the rows come out as the table scan produced them. *)
Lemma order_by_null_keys (rows : list db_row) :
  (forall r, In r rows -> sort_key fb r = None) ->
  order_by_datetime fb rows = rows.
Proof.
  induction rows as [ | a rest IH ]; intros H; simpl; [ reflexivity | ].
  rewrite IH by (intros r Hr; apply H; right; exact Hr).
  destruct rest as [ | b rest' ]; simpl; [ reflexivity | ].
  rewrite (H a (or_introl eq_refl)). reflexivity.
Qed.

(** On a table whose timestamps all have the poller's ["... UTC"] form
    (or are NULL) the query returns the rows of the range in rowid
    order, whatever their timestamps. *)
Lemma query_keeps_rowid_order (table : list db_row) (start_day end_day : string) :
  (forall r, In r table ->
     match first_seen_utc r with
     | Some s => last_is_C s = true
     | None => True
     end) ->
  query_events_by_day_range fb (Some table) start_day end_day
  = Ok (List.filter (in_day_range start_day end_day) table).
Proof.
  intros H. unfold query_events_by_day_range. f_equal.
  apply order_by_null_keys. intros r Hr. apply filter_In in Hr.
  destruct Hr as [ Hr _ ]. specialize (H r Hr). unfold sort_key.
  destruct (first_seen_utc r) as [ s | ].
  - apply datetime_null_on_utc_suffix. exact H.
  - reflexivity.
Qed.

End QueryFacts.

(** C6. The rows the range query returns are not ordered by their
    timestamps.  [datetime()] does not read a text that ends in [UTC],
    so the sort key of every row the poller wrote is NULL.  With the
    CSV holding the row of 2024-03-16 08:00:00 UTC before the row of
    2024-03-15 10:00:00 UTC, the query for the days 2024-03-15 to
    2024-03-16 returns both rows, the later one first. *)
Theorem C6_range_query_not_ordered_by_timestamp
    (aff : EventStore.affinity) (fb : SqliteDate.fallback) :
  let late := StoreScenario.record_at "2024-03-16 08:00:00 UTC" "abc123" in
  let early := StoreScenario.record_at "2024-03-15 10:00:00 UTC" "abc123" in
  let rows := [EventStore.to_db_row aff late; EventStore.to_db_row aff early] in
  EventStore.csv_to_db aff (Some [late; early]) (EventStore.init_db None)
  = Ok (Some rows, [EventStore.InfoImported 2])
  /\ EventStore.query_events_by_day_range fb (Some rows) "2024-03-15" "2024-03-16"
     = Ok rows
  /\ EventStore.sort_key fb (EventStore.to_db_row aff late) = None
  /\ EventStore.sort_key fb (EventStore.to_db_row aff early) = None
  /\ String.ltb "2024-03-15 10:00:00 UTC" "2024-03-16 08:00:00 UTC" = true.
Proof.
  repeat split; vm_compute; reflexivity.
Qed.

(** * Further properties of the code *)

(** ** GeofenceFilter: what the tests compute *)

Section GeofenceMore.

Import Geofence.

Lemma holes_loop_true_iff (pt : vertex) (holes : list ring) :
  holes_loop pt holes = Ok true
  <-> forall h, In h holes -> point_in_ring pt h = Ok false.
Proof.
  induction holes as [ | h rest IH ]; simpl.
  - split; [ intros _ h [] | reflexivity ].
  - destruct (point_in_ring pt h) as [ [ | ] | e ] eqn:E; simpl.
    + split; [ discriminate | ].
      intros H. specialize (H h (or_introl eq_refl)). congruence.
    + rewrite IH. split.
      * intros H h' [ <- | Hin ]; [ exact E | auto ].
      * intros H h' Hin. apply H. right. exact Hin.
    + split; [ discriminate | ].
      intros H. specialize (H h (or_introl eq_refl)). congruence.
Qed.

(** A ring loop over edges none of which is crossed leaves [inside] as
    it was. *)
Lemma ring_loop_no_crossing (pt : vertex) (r : ring) (indices : list nat) :
  (forall vi vj, In vi r -> In vj r -> edge_test pt vi vj = Ok false) ->
  (forall i, In i indices -> (i < length r)%nat) ->
  forall inside, ring_loop pt r (length r) indices inside = Ok inside.
Proof.
  intros Hedge. induction indices as [ | i rest IH ]; intros Hrange inside.
  - reflexivity.
  - assert (Hi : (i < length r)%nat) by (apply Hrange; left; reflexivity).
    assert (Hj : (Nat.modulo (i + 1) (length r) < length r)%nat)
      by (apply Nat.mod_upper_bound; lia).
    destruct (ring_get_in_range r i Hi) as (vi & Evi & Hvi).
    destruct (ring_get_in_range r _ Hj) as (vj & Evj & Hvj).
    simpl. rewrite Evi, Evj. simpl. rewrite (Hedge vi vj Hvi Hvj). simpl.
    apply IH. intros k Hk. apply Hrange. right. exact Hk.
Qed.

Lemma any_polygon_false_iff (pt : vertex) (polygons : list polygon) :
  any_polygon pt polygons = Ok false
  <-> forall poly, In poly polygons -> point_in_polygon pt poly = Ok false.
Proof.
  induction polygons as [ | p rest IH ]; simpl.
  - split; [ intros _ poly [] | reflexivity ].
  - destruct (point_in_polygon pt p) as [ [ | ] | e ] eqn:E; simpl.
    + split; [ discriminate | ].
      intros H. specialize (H p (or_introl eq_refl)). congruence.
    + rewrite IH. split.
      * intros H poly [ <- | Hin ]; [ exact E | auto ].
      * intros H poly Hin. apply H. right. exact Hin.
    + split; [ discriminate | ].
      intros H. specialize (H p (or_introl eq_refl)). congruence.
Qed.

Lemma any_polygon_true_iff (pt : vertex) (polygons : list polygon) :
  any_polygon pt polygons = Ok true
  <-> exists before poly after,
        polygons = before ++ poly :: after
        /\ (forall p, In p before -> point_in_polygon pt p = Ok false)
        /\ point_in_polygon pt poly = Ok true.
Proof.
  induction polygons as [ | p rest IH ]; simpl.
  - split; [ discriminate | ].
    intros (before & poly & after & H & _). destruct before; discriminate.
  - destruct (point_in_polygon pt p) as [ [ | ] | e ] eqn:E; simpl.
    + split; [ intros _ | reflexivity ].
      exists [], p, rest. repeat split; [ intros q [] | exact E ].
    + rewrite IH. split.
      * intros (before & poly & after & -> & Hb & Hp).
        exists (p :: before), poly, after. repeat split; [ | exact Hp ].
        intros q [ <- | Hq ]; [ exact E | auto ].
      * intros (before & poly & after & H & Hb & Hp).
        destruct before as [ | b before' ]; simpl in H;
          injection H as Hhead Htail; subst.
        -- congruence.
        -- exists before', poly, after. repeat split; [ | exact Hp ].
           intros q Hq. apply Hb. right. exact Hq.
    + split; [ discriminate | ].
      intros (before & poly & after & H & Hb & Hp).
      destruct before as [ | b before' ]; simpl in H;
        injection H as Hhead Htail; subst.
      * congruence.
      * specialize (Hb b (or_introl eq_refl)). congruence.
Qed.


End GeofenceMore.

(** X1. [point_in_polygon] answers [True] exactly when the ring test
    answers [True] for the outer ring and [False] for every hole ring. *)
Theorem X1_point_in_polygon_true_iff
    (pt : Geofence.vertex) (outer : Geofence.ring) (holes : list Geofence.ring) :
  Geofence.point_in_polygon pt (outer :: holes) = Ok true
  <-> Geofence.point_in_ring pt outer = Ok true
      /\ forall h, In h holes -> Geofence.point_in_ring pt h = Ok false.
Proof.
  simpl. destruct (Geofence.point_in_ring pt outer) as [ [ | ] | e ]; simpl.
  - rewrite holes_loop_true_iff. tauto.
  - split; [ discriminate | intros [ H _ ]; discriminate ].
  - split; [ discriminate | intros [ H _ ]; discriminate ].
Qed.

(** X2. [in_any_polygon] on a known position stops at the first polygon
    that contains the point: it answers [True] exactly when some polygon
    contains the point and every polygon before it was tested and does
    not, and [False] exactly when every polygon was tested and none
    contains it. *)
Theorem X2_in_any_polygon_first_match
    (la lo : Q) (polygons : list Geofence.polygon) :
  (Geofence.in_any_polygon (Some la) (Some lo) polygons = Ok true
   <-> exists before poly after,
         polygons = before ++ poly :: after
         /\ (forall p, In p before ->
               Geofence.point_in_polygon (la, lo) p = Ok false)
         /\ Geofence.point_in_polygon (la, lo) poly = Ok true)
  /\ (Geofence.in_any_polygon (Some la) (Some lo) polygons = Ok false
      <-> forall poly, In poly polygons ->
            Geofence.point_in_polygon (la, lo) poly = Ok false).
Proof.
  split; [ apply any_polygon_true_iff | apply any_polygon_false_iff ].
Qed.

Lemma straddles_same_side (y yi yj : Q) :
  (yi <= y /\ yj <= y) \/ (y < yi /\ y < yj) ->
  Geofence.straddles y yi yj = false.
Proof.
  unfold Geofence.straddles, Qgtb.
  intros [ [Hi Hj] | [Hi Hj] ].
  - apply Qle_bool_iff in Hi, Hj. rewrite Hi, Hj. reflexivity.
  - assert (Ei : Qle_bool yi y = false).
    { destruct (Qle_bool yi y) eqn:E; [ | reflexivity ].
      apply Qle_bool_iff in E. lra. }
    assert (Ej : Qle_bool yj y = false).
    { destruct (Qle_bool yj y) eqn:E; [ | reflexivity ].
      apply Qle_bool_iff in E. lra. }
    rewrite Ei, Ej. reflexivity.
Qed.

(** X3. A point whose latitude is not below any vertex of a ring, or is
    below all of them, is outside the ring: no edge is crossed, nothing
    is divided, and a polygon with that outer ring does not contain the
    point whatever its holes are. *)
Theorem X3_outside_latitude_band
    (pt : Geofence.vertex) (r : Geofence.ring) (holes : list Geofence.ring) :
  (forall v, In v r -> fst v <= fst pt) \/ (forall v, In v r -> fst pt < fst v) ->
  Geofence.point_in_ring pt r = Ok false
  /\ Geofence.point_in_polygon pt (r :: holes) = Ok false.
Proof.
  intros Hband.
  assert (Hring : Geofence.point_in_ring pt r = Ok false).
  { unfold Geofence.point_in_ring. apply ring_loop_no_crossing.
    - intros vi vj Hi Hj. apply edge_test_not_straddling.
      apply straddles_same_side.
      destruct Hband as [ H | H ]; [ left | right ]; split; auto.
    - intros i Hi. apply in_seq in Hi. lia. }
  split; [ exact Hring | ].
  simpl. rewrite Hring. reflexivity.
Qed.

Lemma X3_witness :
  Geofence.point_in_ring (2, 1 # 2) [(0, 0); (0, 1); (1, 1); (1, 0)] = Ok false
  /\ Geofence.point_in_polygon (2, 1 # 2)
       ([(0, 0); (0, 1); (1, 1); (1, 0)] :: []) = Ok false.
Proof.
  apply (X3_outside_latitude_band (2, 1 # 2) [(0, 0); (0, 1); (1, 1); (1, 0)] []).
  left. intros v [ <- | [ <- | [ <- | [ <- | [] ] ] ] ]; simpl; lra.
Defined.



Section RectangleFacts.

Import Geofence.






End RectangleFacts.



(** ** Poller: the feed fetch, attempt by attempt *)

(** X6. The fetch returns the batch of the first attempt that succeeds:
    when the attempts before attempt [k] (at most the second retry)
    fail and attempt [k] returns [data], [fetch_military] returns [data]
    without a warning, having slept 2 seconds after the first failure
    and 4 after the second. *)
Theorem X6_fetch_returns_first_success
    (feed : nat -> Poller.http_outcome) (k : nat) (data : list Poller.json) :
  (k <= Poller.HTTP_RETRIES)%nat ->
  (forall j, (j < k)%nat -> raises (Poller.try_body (feed j))) ->
  Poller.try_body (feed k) = Ok data ->
  Poller.fetch_military feed
  = {| Poller.fetched := data; Poller.warning := None;
       Poller.backoff := firstn k [2; 4] |}.
Proof.
  unfold Poller.HTTP_RETRIES. intros Hk Hfail Hok.
  unfold Poller.fetch_military. simpl.
  destruct k as [ | [ | [ | k ] ] ]; [ | | | lia ].
  - rewrite Hok. reflexivity.
  - destruct (Hfail 0%nat ltac:(lia)) as [e0 E0]. rewrite E0. simpl.
    rewrite Hok. reflexivity.
  - destruct (Hfail 0%nat ltac:(lia)) as [e0 E0]. rewrite E0. simpl.
    destruct (Hfail 1%nat ltac:(lia)) as [e1 E1]. rewrite E1. simpl.
    rewrite Hok. reflexivity.
Qed.

Lemma X6_witness :
  Poller.fetch_military
    (fun j => match j with
              | O => Poller.HttpError (RequestException "timeout")
              | _ => Poller.HttpJson (Poller.JList [Poller.JStr "x"])
              end)
  = {| Poller.fetched := [Poller.JStr "x"]; Poller.warning := None;
       Poller.backoff := firstn 1 [2; 4] |}.
Proof.
  apply (X6_fetch_returns_first_success _ 1%nat [Poller.JStr "x"]).
  - unfold Poller.HTTP_RETRIES. lia.
  - intros j Hj. assert (j = 0%nat) as -> by lia.
    exists (RequestException "timeout"). reflexivity.
  - reflexivity.
Defined.



Section BatchFacts.

Import Poller.

Lemma dict_get_set_same (key : string) (v : json) (entries : list (string * json)) :
  dict_get key (dict_set key v entries) = Some v.
Proof.
  induction entries as [ | [k w] rest IH ]; simpl.
  - rewrite String.eqb_refl. reflexivity.
  - destruct (String.eqb k key) eqn:E; simpl; rewrite E; [ reflexivity | exact IH ].
Qed.

Lemma dict_get_set_other (key key' : string) (v : json)
    (entries : list (string * json)) :
  key <> key' ->
  dict_get key' (dict_set key v entries) = dict_get key' entries.
Proof.
  intros Hne. induction entries as [ | [k w] rest IH ]; simpl.
  - apply String.eqb_neq in Hne. rewrite Hne. reflexivity.
  - destruct (String.eqb k key) eqn:E; simpl.
    + apply String.eqb_eq in E. subst k.
      apply String.eqb_neq in Hne. rewrite Hne. reflexivity.
    + destruct (String.eqb k key'); [ reflexivity | exact IH ].
Qed.

Lemma chars_of_not_dict (s : string) (entries : list (string * json)) :
  ~ In (JDict entries) (chars_of s).
Proof.
  induction s as [ | c rest IH ]; simpl; [ tauto | ].
  intros [ H | H ]; [ discriminate | auto ].
Qed.

Lemma mark_and_return_marked (data : json) (batch : list json) :
  mark_and_return data = Ok batch ->
  forall entries, In (JDict entries) batch ->
    dict_get "force_mil" entries = Some (JBool true).
Proof.
  destruct data as [ | b | q | s | items | kvs ]; simpl; intros H;
    try discriminate; injection H as <-; intros ents Hin.
  - exfalso. eapply chars_of_not_dict; eauto.
  - apply in_map_iff in Hin. destruct Hin as (item & Hitem & _).
    destruct item; simpl in Hitem; try discriminate.
    injection Hitem as <-. apply dict_get_set_same.
  - apply in_map_iff in Hin. destruct Hin as (kv & Hkv & _). discriminate.
Qed.

End BatchFacts.

(** X8. Every record of a batch the fetch returns that is a JSON object
    carries [force_mil = True], and marking a record leaves its other
    keys as they were. *)
Theorem X8_batch_records_marked_military :
  (forall (feed : nat -> Poller.http_outcome) (entries : list (string * Poller.json)),
     In (Poller.JDict entries) (Poller.fetched (Poller.fetch_military feed)) ->
     Poller.dict_get "force_mil" entries = Some (Poller.JBool true))
  /\ (forall (entries : list (string * Poller.json)) (key : string),
        key <> "force_mil"%string ->
        exists marked,
          Poller.force_mil (Poller.JDict entries) = Poller.JDict marked
          /\ Poller.dict_get key marked = Poller.dict_get key entries).
Proof.
  split.
  - assert (Htry : forall o batch, Poller.try_body o = Ok batch ->
               forall entries, In (Poller.JDict entries) batch ->
                 Poller.dict_get "force_mil" entries = Some (Poller.JBool true)).
    { intros o batch H. destruct o as [ e | body ]; simpl in H; [ discriminate | ].
      destruct (Poller.json_truthy body).
      - destruct body as [ | b | q | s | items | kvs ];
          try (injection H as <-; intros ? []).
        + eapply mark_and_return_marked; eauto.
        + destruct (Poller.dict_get "ac" kvs) as [ data | ];
            [ eapply mark_and_return_marked; eauto | ].
          destruct (Poller.dict_get "aircraft" kvs) as [ data | ];
            [ eapply mark_and_return_marked; eauto | ].
          injection H as <-. intros ? [].
      - simpl in H. injection H as <-. intros ? []. }
    intros feed entries. unfold Poller.fetch_military. simpl.
    destruct (Poller.try_body (feed 0%nat)) eqn:E0; simpl; [ eapply Htry; eauto | ].
    destruct (Poller.try_body (feed 1%nat)) eqn:E1; simpl; [ eapply Htry; eauto | ].
    destruct (Poller.try_body (feed 2%nat)) eqn:E2; simpl; [ eapply Htry; eauto | ].
    intros [].
  - intros entries key Hne. eexists. split; [ reflexivity | ].
    apply dict_get_set_other. congruence.
Qed.

Lemma X8_witness :
  exists marked,
    Poller.force_mil (Poller.JDict [("hex"%string, Poller.JStr "abc123")])
    = Poller.JDict marked
    /\ Poller.dict_get "hex" marked
       = Poller.dict_get "hex" [("hex"%string, Poller.JStr "abc123")].
Proof.
  apply (proj2 X8_batch_records_marked_military
           [("hex"%string, Poller.JStr "abc123")] "hex"%string).
  discriminate.
Defined.

(** ** Poller: the cycle *)

Section CycleFacts.

Import Poller.

Lemma geofence_filter_is_filter (polygons : list Geofence.polygon)
    (aircraft kept : list Aircraft) :
  geofence_filter polygons aircraft = Ok kept ->
  kept = List.filter
           (fun ac => match geofence_keep polygons ac with
                      | Ok true => true
                      | _ => false
                      end) aircraft.
Proof.
  revert kept. induction aircraft as [ | a rest IH ]; simpl; intros kept H.
  - injection H as <-. reflexivity.
  - apply rbind_ok in H. destruct H as (keep & Hkeep & H).
    apply rbind_ok in H. destruct H as (kept' & Hrest & H).
    injection H as <-. rewrite Hkeep. rewrite (IH _ Hrest).
    destruct keep; reflexivity.
Qed.

Lemma geofence_filter_returns (polygons : list Geofence.polygon)
    (aircraft : list Aircraft) :
  (forall ac, In ac aircraft -> returns (geofence_keep polygons ac)) ->
  returns (geofence_filter polygons aircraft).
Proof.
  induction aircraft as [ | a rest IH ]; simpl; intros H.
  - apply returns_ok.
  - destruct (H a (or_introl eq_refl)) as [keep Hkeep]. rewrite Hkeep. simpl.
    destruct (IH (fun ac Hin => H ac (or_intror Hin))) as [kept Hkept].
    rewrite Hkept. simpl. apply returns_ok.
Qed.

Lemma alert_loop_accounted (cooldown : Z) (stamp : string)
    (sightings : list (Aircraft * Q)) :
  forall st, loop_accounted stamp st ->
             loop_accounted stamp (alert_loop cooldown stamp sightings st).
Proof.
  induction sightings as [ | s rest IH ]; intros st Hst; [ exact Hst | ].
  rewrite alert_loop_cons. apply IH. unfold alert_step.
  destruct (in_cooldown cooldown (last_mil_alert st) (hex (fst s)) (snd s));
    [ exact Hst | ].
  destruct Hst as (Hrows & Hlen & Hstamp).
  unfold loop_accounted. simpl. repeat split.
  - rewrite !map_app, Hrows. reflexivity.
  - rewrite !length_app, Hlen. reflexivity.
  - intros row Hin. apply in_app_or in Hin.
    destruct Hin as [ Hin | [ <- | [] ] ]; [ auto | reflexivity ].
Qed.

(** Within the cooldown of its last alert an aircraft changes nothing. *)
Lemma alert_loop_quiet (cooldown : Z) (stamp : string) (h : string) (t0 : Q)
    (sightings : list (Aircraft * Q)) :
  forall st,
    last_mil_alert st !! h = Some t0 ->
    (forall s, In s sightings ->
       hex (fst s) = h /\ snd s - t0 < inject_Z cooldown) ->
    alert_loop cooldown stamp sightings st = st.
Proof.
  induction sightings as [ | s rest IH ]; intros st Hlast Hall; [ reflexivity | ].
  rewrite alert_loop_cons.
  destruct (Hall s (or_introl eq_refl)) as [ Hh Hs ].
  assert (Hstep : alert_step cooldown stamp st s = st).
  { unfold alert_step.
    assert (E : in_cooldown cooldown (last_mil_alert st) (hex (fst s)) (snd s)
                = true).
    { apply in_cooldown_true. rewrite Hh, Hlast. simpl. exact Hs. }
    rewrite E. reflexivity. }
  rewrite Hstep. apply IH; [ exact Hlast | ].
  intros s' Hin. apply Hall. right. exact Hin.
Qed.

Lemma alert_loop_keys (cooldown : Z) (stamp : string)
    (sightings : list (Aircraft * Q)) :
  forall st h,
    is_Some (last_mil_alert (alert_loop cooldown stamp sightings st) !! h)
    <-> is_Some (last_mil_alert st !! h)
        \/ exists fresh t,
             emitted (alert_loop cooldown stamp sightings st)
             = emitted st ++ fresh
             /\ In (h, t) fresh.
Proof.
  induction sightings as [ | s rest IH ]; intros st h.
  - simpl. split; [ auto | ].
    intros [ H | (fresh & t & Hem & Hin) ]; [ exact H | ].
    assert (fresh = []) as ->; [ | destruct Hin ].
    apply (app_inv_head (emitted st)). rewrite app_nil_r. symmetry. exact Hem.
  - rewrite alert_loop_cons, IH. unfold alert_step.
    destruct (in_cooldown cooldown (last_mil_alert st) (hex (fst s)) (snd s));
      [ reflexivity | ].
    simpl. split.
    + intros [ H | (fresh & t & Hem & Hin) ].
      * destruct (decide (hex (fst s) = h)) as [ Heq | Hne ].
        -- right. destruct (alert_loop_updates cooldown stamp rest
                      {| last_mil_alert := <[hex (fst s) := snd s]> (last_mil_alert st);
                         event_rows := event_rows st ++ [make_row stamp (fst s)];
                         printed := printed st ++ [make_message (fst s)];
                         emitted := emitted st ++ [(hex (fst s), snd s)] |})
             as (fresh & Hem & _).
           simpl in Hem. exists ((hex (fst s), snd s) :: fresh), (snd s).
           split; [ rewrite Hem, <- app_assoc; reflexivity | ].
           left. rewrite Heq. reflexivity.
        -- left. rewrite lookup_insert_ne in H by exact Hne. exact H.
      * right. exists ((hex (fst s), snd s) :: fresh), t.
        split; [ rewrite Hem, <- app_assoc; reflexivity | right; exact Hin ].
    + intros [ H | (fresh & t & Hem & Hin) ].
      * left. destruct (decide (hex (fst s) = h)) as [ <- | Hne ].
        -- rewrite lookup_insert_eq. eauto.
        -- rewrite lookup_insert_ne by exact Hne. exact H.
      * destruct (alert_loop_updates cooldown stamp rest
                    {| last_mil_alert := <[hex (fst s) := snd s]> (last_mil_alert st);
                       event_rows := event_rows st ++ [make_row stamp (fst s)];
                       printed := printed st ++ [make_message (fst s)];
                       emitted := emitted st ++ [(hex (fst s), snd s)] |})
          as (fresh' & Hem' & _).
        simpl in Hem'. rewrite Hem', <- app_assoc in Hem.
        apply app_inv_head in Hem. subst fresh.
        destruct Hin as [ Heq | Hin ].
        -- left. injection Heq as <- _. rewrite lookup_insert_eq. eauto.
        -- right. exists fresh', t. split; [ exact Hem' | exact Hin ].
Qed.

End CycleFacts.

(** X9. The geofence step keeps, in their order, exactly the aircraft
    for which both coordinates are truthy and [in_any_polygon] answers
    [True]; with no polygon configured it keeps them all. *)
Theorem X9_geofence_step_is_filter (aircraft : list Poller.Aircraft) :
  Poller.geofence_step [] aircraft = Ok aircraft
  /\ forall polygons kept,
       polygons <> [] ->
       Poller.geofence_step polygons aircraft = Ok kept ->
       kept = List.filter
                (fun ac =>
                   truthy (Poller.lat ac) && truthy (Poller.lon ac)
                   && match Geofence.in_any_polygon (Poller.lat ac)
                              (Poller.lon ac) polygons with
                      | Ok true => true
                      | _ => false
                      end) aircraft.
Proof.
  split; [ reflexivity | ].
  intros polygons kept Hne H.
  destruct polygons as [ | p rest ]; [ congruence | ]. simpl in H.
  rewrite (geofence_filter_is_filter _ _ _ H).
  apply filter_ext. intros ac. unfold Poller.geofence_keep.
  destruct (truthy (Poller.lat ac)), (truthy (Poller.lon ac)); reflexivity.
Qed.

Lemma X9_witness :
  let square : Geofence.polygon := [[(44, 8); (44, 10); (46, 10); (46, 8)]] in
  let inside := Poller.aircraft_at "abc123" (Some 45) (Some 9) in
  let outside := Poller.aircraft_at "def456" (Some 50) (Some 9) in
  let unknown := Poller.aircraft_at "0a0a0a" None (Some 9) in
  [inside]
  = List.filter
      (fun ac =>
         truthy (Poller.lat ac) && truthy (Poller.lon ac)
         && match Geofence.in_any_polygon (Poller.lat ac) (Poller.lon ac)
                    [square] with
            | Ok true => true
            | _ => false
            end) [outside; inside; unknown].
Proof.
  intros square inside outside unknown.
  apply (proj2 (X9_geofence_step_is_filter [outside; inside; unknown])
           [square] [inside]).
  - discriminate.
  - vm_compute. reflexivity.
Defined.

(** X10. In a cycle that completes, rows, messages and alerts go
    together: there is one row and one message per alert, the rows
    carry the addresses of the alerts in order and all carry the one
    timestamp taken before the loop, and the CSV is written exactly when
    there is a row. *)
Theorem X10_cycle_rows_match_alerts
    (decode : Poller.json -> result Poller.Aircraft)
    (polygons : list Geofence.polygon) (cooldown interval : Z)
    (env : Poller.cycle_env) (last : gmap string Q) (out : Poller.cycle_outcome) :
  Poller.poll_cycle decode polygons cooldown interval env last = Ok out ->
  let st := Poller.cycle_state out in
  map Poller.row_hex (Poller.event_rows st)
  = map (fun e => Poller.CStr (fst e)) (Poller.emitted st)
  /\ length (Poller.printed st) = length (Poller.emitted st)
  /\ (forall row, In row (Poller.event_rows st) ->
        Poller.row_first_seen_utc row = Poller.CStr (Poller.now_str env))
  /\ (Poller.csv_appended out = None <-> Poller.event_rows st = [])
  /\ (forall rows, Poller.csv_appended out = Some rows ->
        rows = Poller.event_rows st).
Proof.
  intros H st.
  assert (Hcsv : Poller.csv_appended out
                 = match Poller.event_rows st with
                   | [] => None
                   | rows => Some rows
                   end).
  { unfold Poller.poll_cycle in H. apply rbind_ok in H.
    destruct H as (aircraft & _ & H). injection H as <-. reflexivity. }
  destruct (poll_cycle_state _ _ _ _ _ _ _ H) as (sightings & Hst).
  fold st in Hst.
  assert (Hacc : loop_accounted (Poller.now_str env) st).
  { rewrite Hst. apply alert_loop_accounted.
    repeat split; simpl; try reflexivity. intros row []. }
  destruct Hacc as (Hrows & Hlen & Hstamp).
  repeat split; try assumption.
  - rewrite Hcsv. destruct (Poller.event_rows st); [ reflexivity | discriminate ].
  - intros Hnil. rewrite Hcsv, Hnil. reflexivity.
  - intros rows Hrows'. rewrite Hcsv in Hrows'.
    destruct (Poller.event_rows st); [ discriminate | congruence ].
Qed.

Lemma X10_witness :
  exists out,
    Poller.poll_cycle Scenario.decode [] 1800 60
      (Scenario.cycle_at "2024-03-15 10:00:00 UTC" (1000000 # 1)) ∅ = Ok out
    /\ map Poller.row_hex (Poller.event_rows (Poller.cycle_state out))
       = map (fun e => Poller.CStr (fst e)) (Poller.emitted (Poller.cycle_state out))
    /\ Poller.csv_appended out = Some (Poller.event_rows (Poller.cycle_state out)).
Proof.
  assert (H : exists out,
             Poller.poll_cycle Scenario.decode [] 1800 60
               (Scenario.cycle_at "2024-03-15 10:00:00 UTC" (1000000 # 1)) ∅
             = Ok out
             /\ Poller.csv_appended out
                = Some (Poller.event_rows (Poller.cycle_state out)))
    by (eexists; split; vm_compute; reflexivity).
  destruct H as (out & Hout & Hcsv). exists out.
  split; [ exact Hout | ]. split; [ | exact Hcsv ].
  apply (X10_cycle_rows_match_alerts Scenario.decode [] 1800 60 _ ∅ out Hout).
Defined.

Section DictionaryFacts.

Import Poller.

Variable decode : json -> result Aircraft.
Variable polygons : list Geofence.polygon.
Variables cooldown interval : Z.

Lemma poll_cycle_keys (env : cycle_env) (last : gmap string Q)
    (out : cycle_outcome) (h : string) :
  poll_cycle decode polygons cooldown interval env last = Ok out ->
  (is_Some (last_mil_alert (cycle_state out) !! h)
   <-> is_Some (last !! h) \/ exists t, In (h, t) (emitted (cycle_state out))).
Proof.
  intros H. destruct (poll_cycle_state _ _ _ _ _ _ _ H) as (sightings & Hst).
  rewrite Hst. rewrite alert_loop_keys. simpl. split.
  - intros [ Hs | (fresh & t & Hem & Hin) ]; [ left; exact Hs | ].
    right. exists t. rewrite Hem. exact Hin.
  - intros [ Hs | (t & Hin) ]; [ left; exact Hs | ].
    right. eexists _, t. split; [ reflexivity | exact Hin ].
Qed.

Lemma poll_loop_keys (envs : list cycle_env) :
  forall (last : gmap string Q) (outs : list cycle_outcome) (h : string),
    poll_loop decode polygons cooldown interval envs last = Ok outs ->
    (is_Some (run_last last outs !! h)
     <-> is_Some (last !! h) \/ exists t, In (h, t) (run_emitted outs)).
Proof.
  induction envs as [ | env rest IH ]; intros last outs h Hrun; simpl in Hrun.
  - injection Hrun as <-. simpl. split; [ auto | ].
    intros [ H | (t & []) ]. exact H.
  - apply rbind_ok in Hrun. destruct Hrun as (out & Hout & Hrun).
    apply rbind_ok in Hrun. destruct Hrun as (outs' & Hrest & Hrun).
    injection Hrun as <-. rewrite run_emitted_cons. simpl.
    rewrite (IH _ _ h Hrest), (poll_cycle_keys _ _ _ h Hout). split.
    + intros [ [ H | (t & Hin) ] | (t & Hin) ].
      * left. exact H.
      * right. exists t. apply in_or_app. left. exact Hin.
      * right. exists t. apply in_or_app. right. exact Hin.
    + intros [ H | (t & Hin) ]; [ left; left; exact H | ].
      apply in_app_or in Hin. destruct Hin as [ Hin | Hin ].
      * left. right. exists t. exact Hin.
      * right. exists t. exact Hin.
Qed.

End DictionaryFacts.

(** X11. The debounce dictionary is never pruned: after any run of the
    poll loop its keys are the keys it started with and the addresses
    alerted during the run, no more and no fewer. *)
Theorem X11_debounce_keys_only_grow
    (decode : Poller.json -> result Poller.Aircraft)
    (polygons : list Geofence.polygon) (cooldown interval : Z)
    (envs : list Poller.cycle_env) (last : gmap string Q)
    (outs : list Poller.cycle_outcome) (h : string) :
  Poller.poll_loop decode polygons cooldown interval envs last = Ok outs ->
  (is_Some (Poller.run_last last outs !! h)
   <-> is_Some (last !! h) \/ exists t, In (h, t) (Poller.run_emitted outs)).
Proof. apply poll_loop_keys. Qed.

Lemma X11_witness :
  exists outs,
    Scenario.run = Ok outs
    /\ (is_Some (Poller.run_last ∅ outs !! "abc123"%string)
        <-> is_Some ((∅ : gmap string Q) !! "abc123"%string)
            \/ exists t, In ("abc123"%string, t) (Poller.run_emitted outs)).
Proof.
  assert (H : exists outs, Scenario.run = Ok outs)
    by (eexists; vm_compute; reflexivity).
  destruct H as (outs & Hrun). exists outs. split; [ exact Hrun | ].
  apply (X11_debounce_keys_only_grow Scenario.decode [] 1800 60 Scenario.envs
           ∅ outs "abc123"%string Hrun).
Defined.

(** X12. After an alert for an address at time [t0], sightings of that
    address less than the cooldown after [t0] leave the whole state of
    the loop as it is: no alert, no row, no message, the same
    dictionary. *)
Theorem X12_sightings_within_cooldown_are_silent
    (cooldown : Z) (stamp h : string) (t0 : Q)
    (sightings : list (Poller.Aircraft * Q)) (st : Poller.loop_state) :
  Poller.last_mil_alert st !! h = Some t0 ->
  (forall s, In s sightings ->
     Poller.hex (fst s) = h /\ snd s - t0 < inject_Z cooldown) ->
  Poller.alert_loop cooldown stamp sightings st = st.
Proof. apply alert_loop_quiet. Qed.

Lemma X12_witness :
  let st := {| Poller.last_mil_alert := {[ "abc123"%string := 1000000 # 1 ]};
               Poller.event_rows := []; Poller.printed := [];
               Poller.emitted := [] |} in
  Poller.alert_loop 1800 "2024-03-15 10:10:00 UTC"
    [(Poller.aircraft_at "abc123" (Some 45) (Some 9), 1000600 # 1);
     (Poller.aircraft_at "abc123" (Some 45) (Some 9), 1001799 # 1)] st
  = st.
Proof.
  intros st.
  apply (X12_sightings_within_cooldown_are_silent 1800 _ "abc123"%string
           (1000000 # 1)).
  - reflexivity.
  - intros s [ <- | [ <- | [] ] ]; split; reflexivity.
Defined.

Lemma py_round_near (x : Q) :
  inject_Z (Poller.py_round x) - x <= 1 # 2
  /\ x - inject_Z (Poller.py_round x) <= 1 # 2.
Proof.
  unfold Poller.py_round.
  pose proof (Qfloor_le x) as Hlo. pose proof (Qlt_floor x) as Hhi.
  rewrite inject_Z_plus in Hhi. change (inject_Z 1) with 1 in Hhi.
  destruct (Qltb (x - inject_Z (Qfloor x)) (1 # 2)) eqn:E1.
  - apply Qltb_true in E1. revert Hlo Hhi E1.
    generalize (inject_Z (Qfloor x)). intros f Hlo Hhi E1. split; lra.
  - apply Qltb_false in E1.
    destruct (Qltb (1 # 2) (x - inject_Z (Qfloor x))) eqn:E2.
    + apply Qltb_true in E2. rewrite inject_Z_plus. change (inject_Z 1) with 1.
      revert Hlo Hhi E1 E2.
      generalize (inject_Z (Qfloor x)). intros f Hlo Hhi E1 E2. split; lra.
    + apply Qltb_false in E2. destruct (Z.even (Qfloor x)).
      * revert Hlo Hhi E1 E2.
        generalize (inject_Z (Qfloor x)). intros f Hlo Hhi E1 E2. split; lra.
      * rewrite inject_Z_plus. change (inject_Z 1) with 1.
        revert Hlo Hhi E1 E2.
        generalize (inject_Z (Qfloor x)). intros f Hlo Hhi E1 E2. split; lra.
Qed.

(** X13. A cycle that completes sleeps at least one second.  When at
    least one second of the interval remains, the sleep is the
    remainder rounded to the nearest second; and when the clock did not
    go back during the cycle, the sleep is never longer than the
    interval (or one second, for an interval below one). *)
Theorem X13_cycle_sleep_bounds
    (decode : Poller.json -> result Poller.Aircraft)
    (polygons : list Geofence.polygon) (cooldown interval : Z)
    (env : Poller.cycle_env) (last : gmap string Q) (out : Poller.cycle_outcome) :
  Poller.poll_cycle decode polygons cooldown interval env last = Ok out ->
  let remaining := inject_Z interval - (Poller.t_end env - Poller.t0 env) in
  (1 <= Poller.sleep_seconds out)%Z
  /\ (1 <= remaining ->
      Qabs (inject_Z (Poller.sleep_seconds out) - remaining) <= 1 # 2)
  /\ (Poller.t0 env <= Poller.t_end env ->
      (Poller.sleep_seconds out <= Z.max 1 interval)%Z).
Proof.
  intros H remaining.
  assert (Hs : Poller.sleep_seconds out = Z.max 1 (Poller.py_round remaining)).
  { unfold Poller.poll_cycle in H. apply rbind_ok in H.
    destruct H as (aircraft & _ & H). injection H as <-. reflexivity. }
  rewrite Hs. destruct (py_round_near remaining) as [ Hup Hdown ].
  split; [ lia | ]. split.
  - intros Hrem.
    assert (Hp : (1 <= Poller.py_round remaining)%Z).
    { destruct (Z_le_gt_dec 1 (Poller.py_round remaining)) as [ Hle | Hgt ];
        [ exact Hle | exfalso ].
      assert (Hz : (Poller.py_round remaining <= 0)%Z) by lia.
      rewrite Zle_Qle in Hz. change (inject_Z 0) with 0 in Hz. lra. }
    rewrite Z.max_r by exact Hp. apply Qabs_Qle_condition. split; lra.
  - intros Hclock.
    assert (Hp : (Poller.py_round remaining <= interval)%Z).
    { destruct (Z_le_gt_dec (Poller.py_round remaining) interval) as [ Hle | Hgt ];
        [ exact Hle | exfalso ].
      assert (Hz : (interval + 1 <= Poller.py_round remaining)%Z) by lia.
      rewrite Zle_Qle, inject_Z_plus in Hz. change (inject_Z 1) with 1 in Hz.
      unfold remaining in *. lra. }
    lia.
Qed.

Lemma X13_witness :
  exists out,
    Poller.poll_cycle Scenario.decode [] 1800 60
      {| Poller.feed := fun _ => Poller.HttpJson Poller.JNull;
         Poller.t0 := 1000000 # 1; Poller.now_str := "2024-03-15 10:00:00 UTC";
         Poller.clock := fun _ => 1000001 # 1; Poller.t_end := 2000005 # 2 |} ∅
    = Ok out
    /\ (1 <= Poller.sleep_seconds out)%Z
    /\ (1 <= inject_Z 60 - ((2000005 # 2) - (1000000 # 1)) ->
        Qabs (inject_Z (Poller.sleep_seconds out)
              - (inject_Z 60 - ((2000005 # 2) - (1000000 # 1)))) <= 1 # 2)
    /\ ((1000000 # 1) <= (2000005 # 2) ->
        (Poller.sleep_seconds out <= Z.max 1 60)%Z).
Proof.
  eexists. split; [ vm_compute; reflexivity | ].
  eapply (X13_cycle_sleep_bounds Scenario.decode [] 1800 60
            {| Poller.feed := fun _ => Poller.HttpJson Poller.JNull;
               Poller.t0 := 1000000 # 1;
               Poller.now_str := "2024-03-15 10:00:00 UTC";
               Poller.clock := fun _ => 1000001 # 1;
               Poller.t_end := 2000005 # 2 |} ∅).
  vm_compute. reflexivity.
Defined.

(** ** EventStore: what ingestion keeps *)

Section StoreInvariants.

Import EventStore.

Lemma key_conflict_sym (a b : db_row) : key_conflict a b = key_conflict b a.
Proof.
  unfold key_conflict.
  destruct (first_seen_utc a), (hex a), (first_seen_utc b), (hex b);
    try reflexivity.
  rewrite (String.eqb_sym s s1), (String.eqb_sym s0 s2). reflexivity.
Qed.

Lemma insert_keeps_unique (table : list db_row) (row : db_row) :
  keys_unique table -> keys_unique (insert_or_ignore table row).
Proof.
  intros Hu. unfold insert_or_ignore.
  destruct (existsb (key_conflict row) table) eqn:E; [ exact Hu | ].
  intros i j a b Hij Hi Hj.
  destruct (Nat.lt_ge_cases j (length table)) as [ Hlt | Hge ].
  - rewrite nth_error_app1 in Hi by lia. rewrite nth_error_app1 in Hj by lia.
    exact (Hu i j a b Hij Hi Hj).
  - rewrite nth_error_app2 in Hj by lia.
    destruct (j - length table)%nat as [ | k ] eqn:Ek; simpl in Hj;
      [ | destruct k; discriminate ].
    injection Hj as <-. rewrite nth_error_app1 in Hi by lia.
    rewrite key_conflict_sym.
    destruct (key_conflict row a) eqn:Ec; [ | reflexivity ].
    assert (Hex : existsb (key_conflict row) table = true).
    { apply existsb_exists. exists a. split; [ | exact Ec ].
      eapply nth_error_In; eauto. }
    congruence.
Qed.

Lemma fold_keeps_unique (rows : list db_row) :
  forall table, keys_unique table ->
                keys_unique (fold_left insert_or_ignore rows table).
Proof.
  induction rows as [ | r rest IH ]; intros table Hu; simpl; [ exact Hu | ].
  apply IH. apply insert_keeps_unique. exact Hu.
Qed.

Lemma fold_extends (rows : list db_row) :
  forall table,
    exists added,
      fold_left insert_or_ignore rows table = table ++ added
      /\ (length added <= length rows)%nat
      /\ forall r, In r added -> In r rows.
Proof.
  induction rows as [ | r rest IH ]; intros table; simpl.
  - exists []. rewrite app_nil_r. repeat split; [ simpl; lia | intros r [] ].
  - destruct (IH (insert_or_ignore table r)) as (added & Heq & Hlen & Hin).
    unfold insert_or_ignore in *.
    destruct (existsb (key_conflict r) table).
    + exists added. repeat split; [ exact Heq | simpl; lia | auto ].
    + exists (r :: added). rewrite Heq, <- app_assoc. simpl.
      repeat split; [ simpl; lia | ].
      intros r' [ <- | H ]; [ left; reflexivity | right; auto ].
Qed.

End StoreInvariants.

(** X14. Ingesting again a CSV in which every record has both
    [first_seen_utc] and [hex] leaves the store and the log line as the
    first ingestion made them, and raises nothing. *)
Theorem X14_reingest_keyed_csv_is_idempotent
    (aff : EventStore.affinity) (rows : list EventStore.csv_record)
    (conn db1 : EventStore.database) (log1 : list EventStore.log_line) :
  forallb has_key rows = true ->
  EventStore.csv_to_db aff (Some rows) conn = Ok (db1, log1) ->
  EventStore.csv_to_db aff (Some rows) db1 = Ok (db1, log1).
Proof. apply csv_to_db_idempotent. Qed.

Lemma X14_witness :
  let aff := {| EventStore.real_affinity := EventStore.SqlText;
                EventStore.integer_affinity := EventStore.SqlText |} in
  let rows := [StoreScenario.record_at "2024-03-15 10:00:00 UTC" "abc123";
               StoreScenario.record_at "2024-03-15 10:30:01 UTC" "abc123";
               StoreScenario.record_at "2024-03-15 10:00:00 UTC" "abc123"] in
  let db1 := Some [EventStore.to_db_row aff
                     (StoreScenario.record_at "2024-03-15 10:00:00 UTC" "abc123");
                   EventStore.to_db_row aff
                     (StoreScenario.record_at "2024-03-15 10:30:01 UTC" "abc123")] in
  EventStore.csv_to_db aff (Some rows) db1
  = Ok (db1, [EventStore.InfoImported 3]).
Proof.
  intros aff rows db1.
  apply (X14_reingest_keyed_csv_is_idempotent aff rows (EventStore.init_db None)).
  - reflexivity.
  - reflexivity.
Defined.

(** X15. Ingestion keeps the identity pair unique: if no two rows of the
    table conflict on [(first_seen_utc, hex)] before [csv_to_db], none
    do after it, whatever the CSV holds. *)
Theorem X15_ingestion_keeps_keys_unique
    (aff : EventStore.affinity) (csv : option (list EventStore.csv_record))
    (table table' : list EventStore.db_row) (log : list EventStore.log_line) :
  keys_unique table ->
  EventStore.csv_to_db aff csv (Some table) = Ok (Some table', log) ->
  keys_unique table'.
Proof.
  intros Hu H. unfold EventStore.csv_to_db in H.
  destruct csv as [ [ | r rest ] | ].
  - injection H as <- _. exact Hu.
  - injection H as <- _.
    exact (fold_keeps_unique (map (EventStore.to_db_row aff) (r :: rest)) table Hu).
  - injection H as <- _. exact Hu.
Qed.

Lemma X15_witness :
  let aff := {| EventStore.real_affinity := EventStore.SqlText;
                EventStore.integer_affinity := EventStore.SqlText |} in
  keys_unique
    [EventStore.to_db_row aff
       (StoreScenario.record_at "2024-03-15 10:00:00 UTC" "abc123");
     EventStore.to_db_row aff
       (StoreScenario.record_at "2024-03-15 10:00:00 UTC" "def456")].
Proof.
  intros aff.
  apply (X15_ingestion_keeps_keys_unique aff
           (Some [StoreScenario.record_at "2024-03-15 10:00:00 UTC" "abc123";
                  StoreScenario.record_at "2024-03-15 10:00:00 UTC" "def456";
                  StoreScenario.record_at "2024-03-15 10:00:00 UTC" "abc123"])
           [] _ [EventStore.InfoImported 3]).
  - intros i j a b _ Hi. destruct i; discriminate.
  - reflexivity.
Defined.

(** X16. Ingestion never changes or removes a stored row: the table
    after [csv_to_db] is the table before it followed by some of the
    rows of the CSV, at most one per record; so of two records with the
    same identity pair the one stored first stays. *)
Theorem X16_ingestion_only_appends
    (aff : EventStore.affinity) (rows : list EventStore.csv_record)
    (table : list EventStore.db_row) :
  exists added log,
    EventStore.csv_to_db aff (Some rows) (Some table)
    = Ok (Some (table ++ added), log)
    /\ (length added <= length rows)%nat
    /\ forall r, In r added -> exists c, In c rows /\ r = EventStore.to_db_row aff c.
Proof.
  unfold EventStore.csv_to_db. destruct rows as [ | c rest ].
  - exists [], [EventStore.InfoCsvEmpty]. rewrite app_nil_r.
    repeat split; [ simpl; lia | intros r [] ].
  - destruct (fold_extends (map (EventStore.to_db_row aff) (c :: rest)) table)
      as (added & Heq & Hlen & Hin).
    exists added, [EventStore.InfoImported (length (c :: rest))].
    rewrite Heq. repeat split.
    + rewrite length_map in Hlen. exact Hlen.
    + intros r Hr. specialize (Hin r Hr). apply in_map_iff in Hin.
      destruct Hin as (c' & <- & Hc'). exists c'. split; [ exact Hc' | reflexivity ].
Qed.

Lemma insert_sorted_perm (fb : SqliteDate.fallback) (row : EventStore.db_row)
    (sorted : list EventStore.db_row) :
  Permutation (EventStore.insert_sorted fb row sorted) (row :: sorted).
Proof.
  induction sorted as [ | a rest IH ]; simpl; [ reflexivity | ].
  destruct (EventStore.key_le (EventStore.sort_key fb row)
              (EventStore.sort_key fb a)); [ reflexivity | ].
  rewrite IH. apply perm_swap.
Qed.

Lemma order_by_datetime_perm (fb : SqliteDate.fallback)
    (rows : list EventStore.db_row) :
  Permutation (EventStore.order_by_datetime fb rows) rows.
Proof.
  induction rows as [ | a rest IH ]; simpl; [ reflexivity | ].
  rewrite insert_sorted_perm, IH. reflexivity.
Qed.

(** X17. On a store whose table exists the range query raises nothing
    and returns, each as often as it is stored, exactly the rows whose
    [first_seen_utc] is not NULL and whose first ten characters lie
    between [start_day] and [end_day] as texts, bounds included. *)
Theorem X17_range_query_selects_day_range
    (fb : SqliteDate.fallback) (table : list EventStore.db_row)
    (start_day end_day : string) :
  exists rows,
    EventStore.query_events_by_day_range fb (Some table) start_day end_day
    = Ok rows
    /\ Permutation rows
         (List.filter
            (fun r =>
               match EventStore.first_seen_utc r with
               | Some s =>
                   String.leb start_day
                     (EventStore.substr_chars (String.length s) 10 s)
                   && String.leb
                        (EventStore.substr_chars (String.length s) 10 s) end_day
               | None => false
               end) table).
Proof.
  eexists. split; [ reflexivity | ].
  rewrite order_by_datetime_perm.
  erewrite filter_ext; [ reflexivity | ].
  intros r. unfold EventStore.in_day_range, EventStore.between,
    EventStore.substr_1_10.
  destruct (EventStore.first_seen_utc r); reflexivity.
Qed.

(** X18. On a table in which every timestamp ends with the letter C, as
    the ["... UTC"] timestamps of the poller do, the range query
    returns the rows of the range in the order they were stored: the
    [ORDER BY] has only NULL keys to compare. *)
Theorem X18_utc_timestamps_come_back_in_stored_order
    (fb : SqliteDate.fallback) (table : list EventStore.db_row)
    (start_day end_day : string) :
  (forall r, In r table ->
     match EventStore.first_seen_utc r with
     | Some s => last_is_C s = true
     | None => True
     end) ->
  EventStore.query_events_by_day_range fb (Some table) start_day end_day
  = Ok (List.filter (EventStore.in_day_range start_day end_day) table).
Proof. apply query_keeps_rowid_order. Qed.

Lemma X18_witness :
  let aff := {| EventStore.real_affinity := EventStore.SqlText;
                EventStore.integer_affinity := EventStore.SqlText |} in
  let fb := {| SqliteDate.now_text := None;
               SqliteDate.julian_text := fun _ => None |} in
  let table :=
    [EventStore.to_db_row aff
       (StoreScenario.record_at "2024-03-17 09:00:00 UTC" "abc123");
     EventStore.to_db_row aff
       (StoreScenario.record_at "2024-03-15 10:00:00 UTC" "def456");
     EventStore.to_db_row aff
       (StoreScenario.record_at "2024-03-16 08:00:00 UTC" "abc123")] in
  EventStore.query_events_by_day_range fb (Some table) "2024-03-15" "2024-03-16"
  = Ok (List.filter (EventStore.in_day_range "2024-03-15" "2024-03-16") table).
Proof.
  intros aff fb table.
  apply (X18_utc_timestamps_come_back_in_stored_order fb table).
  intros r [ <- | [ <- | [ <- | [] ] ] ]; reflexivity.
Defined.


(** ** Calendar: ordinals and dates *)

Ltac divlia := Z.to_euclidean_division_equations; lia.

Section CalendarProofs.

Import Calendar CalendarFacts.
Local Open Scope Z_scope.

Lemma check_from_sound (P : Z -> bool) (count : nat) :
  forall start, check_from P count start = true ->
  forall z, start <= z < start + Z.of_nat count -> P z = true.
Proof.
  induction count as [ | k IH ]; intros start H z Hz; [ lia | ].
  simpl in H. apply andb_true_iff in H. destruct H as [ H0 Hrest ].
  destruct (Z.eq_dec z start) as [ -> | Hne ]; [ exact H0 | ].
  apply (IH (start + 1) Hrest). lia.
Qed.

Lemma day_of_year_checked (leap : bool) :
  check_from (check_day_of_year leap) 365 0 = true.
Proof. destruct leap; vm_compute; reflexivity. Qed.

Lemma months_checked (leap : bool) :
  check_from (check_month leap) 12 1 = true.
Proof. destruct leap; vm_compute; reflexivity. Qed.

Lemma month_day_spec (leap : bool) (n : Z) :
  0 <= n < 365 ->
  let md := month_day n leap in
  1 <= fst md <= 12 /\ 1 <= snd md <= dim_l (fst md) leap
  /\ dbm_l (fst md) leap + snd md = n + 1.
Proof.
  intros Hn md.
  pose proof (check_from_sound _ _ _ (day_of_year_checked leap) n ltac:(lia)) as H.
  unfold check_day_of_year in H. fold md in H.
  repeat (apply andb_true_iff in H; destruct H as [ H ?H ]).
  repeat match goal with
         | H : (_ <=? _) = true |- _ => apply Z.leb_le in H
         | H : (_ =? _) = true |- _ => apply Z.eqb_eq in H
         end.
  lia.
Qed.

Lemma month_spec (leap : bool) (m : Z) :
  1 <= m <= 12 ->
  28 <= dim_l m leap <= 31
  /\ dbm_l m leap + dim_l m leap
     = (if m =? 12 then (if leap then 366 else 365) else dbm_l (m + 1) leap).
Proof.
  intros Hm.
  pose proof (check_from_sound _ _ _ (months_checked leap) m ltac:(lia)) as H.
  unfold check_month in H.
  repeat (apply andb_true_iff in H; destruct H as [ H ?H ]).
  repeat match goal with
         | H : (_ <=? _) = true |- _ => apply Z.leb_le in H
         | H : (_ =? _) = true |- _ => apply Z.eqb_eq in H
         end.
  lia.
Qed.

Lemma month_day_inverse (leap : bool) (m d : Z) :
  1 <= m <= 12 -> 1 <= d <= dim_l m leap ->
  let n := dbm_l m leap + d - 1 in
  0 <= n <= (if leap then 365 else 364)
  /\ (n = 365 -> m = 12 /\ d = 31)
  /\ (n <> 365 -> month_day n leap = (m, d)).
Proof.
  intros Hm Hd n.
  pose proof (check_from_sound _ _ _ (months_checked leap) m ltac:(lia)) as H.
  unfold check_month in H.
  repeat (apply andb_true_iff in H; destruct H as [ H ?H ]).
  match goal with
  | H : check_from _ 31 1 = true |- _ =>
      pose proof (check_from_sound _ _ _ H d) as Hday
  end.
  assert (Hd31 : 1 <= d < 1 + Z.of_nat 31).
  { match goal with H : (dim_l m leap <=? 31) = true |- _ => apply Z.leb_le in H end.
    lia. }
  specialize (Hday Hd31). unfold check_month_day in Hday. fold n in Hday.
  apply orb_true_iff in Hday. destruct Hday as [ Hday | Hday ].
  { apply Z.ltb_lt in Hday. lia. }
  repeat (apply andb_true_iff in Hday; destruct Hday as [ Hday ?Hday ]).
  apply Z.leb_le in Hday, Hday1.
  split; [ lia | ].
  destruct (Z.eqb_spec n 365) as [ E | E ].
  - apply andb_true_iff in Hday0. destruct Hday0 as [ Hm' Hd' ].
    apply Z.eqb_eq in Hm', Hd'. split; [ auto | contradiction ].
  - apply andb_true_iff in Hday0. destruct Hday0 as [ Hm' Hd' ].
    apply Z.eqb_eq in Hm', Hd'. split; [ contradiction | ].
    intros _. destruct (month_day n leap). simpl in *. congruence.
Qed.

Lemma days_before_month_leap (y m : Z) :
  days_before_month y m = dbm_l m (is_leap y).
Proof. reflexivity. Qed.

Lemma days_in_month_leap (y m : Z) : days_in_month y m = dim_l m (is_leap y).
Proof. reflexivity. Qed.

(** The length of a year, and the leap years. *)
Lemma is_leap_spec (y : Z) :
  is_leap y = true <-> y mod 4 = 0 /\ (y mod 100 <> 0 \/ y mod 400 = 0).
Proof.
  unfold is_leap. rewrite andb_true_iff, orb_true_iff, negb_true_iff.
  rewrite !Z.eqb_eq, Z.eqb_neq. reflexivity.
Qed.

Lemma year_length (y : Z) :
  days_before_year (y + 1)
  = days_before_year y + (if is_leap y then 366 else 365).
Proof.
  unfold days_before_year.
  destruct (is_leap y) eqn:E.
  - apply is_leap_spec in E. divlia.
  - assert (H : ~ (y mod 4 = 0 /\ (y mod 100 <> 0 \/ y mod 400 = 0)))
      by (rewrite <- is_leap_spec; congruence).
    divlia.
Qed.

End CalendarProofs.

Section CalendarRoundTrip.

Import Calendar CalendarFacts.
Local Open Scope Z_scope.

(** [ord2ymd], with its last step named. *)
Lemma ord2ymd_unfold (ordinal : Z) :
  ord2ymd ordinal
  = (let n0 := ordinal - 1 in
     let n400 := n0 / 146097 in
     let r1 := n0 mod 146097 in
     let n100 := r1 / 36524 in
     let r2 := r1 mod 36524 in
     let n4 := r2 / 1461 in
     let r3 := r2 mod 1461 in
     let n1 := r3 / 365 in
     let n := r3 mod 365 in
     let y := n400 * 400 + 1 + n100 * 100 + n4 * 4 + n1 in
     if (n1 =? 4) || (n100 =? 4) then {| year := y - 1; month := 12; day := 31 |}
     else
       let md := month_day n ((n1 =? 3) && (negb (n4 =? 24) || (n100 =? 3))) in
       {| year := y; month := fst md; day := snd md |}).
Proof.
  unfold ord2ymd, month_day, DI400Y, DI100Y, DI4Y. cbv zeta.
  destruct (_ || _); [ reflexivity | ].
  destruct (_ <? _); reflexivity.
Qed.

Lemma leap_flag (a b c e : Z) :
  0 <= b <= 3 -> 0 <= c <= 24 -> 0 <= e <= 3 ->
  is_leap (cycle_year a b c e) = cycle_leap b c e.
Proof.
  intros Hb Hc He. unfold cycle_year, cycle_leap.
  assert (H4 : (a * 400 + 1 + b * 100 + c * 4 + e) mod 4 = (e + 1) mod 4).
  { replace (a * 400 + 1 + b * 100 + c * 4 + e)
      with (e + 1 + (a * 100 + b * 25 + c) * 4) by lia.
    apply Z.mod_add. lia. }
  assert (H100 : (a * 400 + 1 + b * 100 + c * 4 + e) mod 100
                 = (c * 4 + e + 1) mod 100).
  { replace (a * 400 + 1 + b * 100 + c * 4 + e)
      with (c * 4 + e + 1 + (a * 4 + b) * 100) by lia.
    apply Z.mod_add. lia. }
  assert (H400 : (a * 400 + 1 + b * 100 + c * 4 + e) mod 400
                 = (b * 100 + c * 4 + e + 1) mod 400).
  { replace (a * 400 + 1 + b * 100 + c * 4 + e)
      with (b * 100 + c * 4 + e + 1 + a * 400) by lia.
    apply Z.mod_add. lia. }
  unfold is_leap. rewrite H4, H100, H400.
  assert (E4 : ((e + 1) mod 4 =? 0) = (e =? 3)).
  { destruct (Z.eqb_spec e 3) as [ -> | Hne ]; [ reflexivity | ].
    apply Z.eqb_neq. rewrite Z.mod_small by lia. lia. }
  assert (E100 : ((c * 4 + e + 1) mod 100 =? 0) = (c =? 24) && (e =? 3)).
  { destruct (Z.eq_dec (c * 4 + e + 1) 100) as [ Heq | Hne ].
    - rewrite Heq. assert (c = 24 /\ e = 3) as [ -> -> ] by lia. reflexivity.
    - rewrite Z.mod_small by lia.
      destruct (Z.eqb_spec c 24), (Z.eqb_spec e 3); simpl; try lia;
        apply Z.eqb_neq; lia. }
  assert (E400 : ((b * 100 + c * 4 + e + 1) mod 400 =? 0)
                 = (b =? 3) && ((c =? 24) && (e =? 3))).
  { destruct (Z.eq_dec (b * 100 + c * 4 + e + 1) 400) as [ Heq | Hne ].
    - rewrite Heq. assert (b = 3 /\ c = 24 /\ e = 3) as (-> & -> & ->) by lia.
      reflexivity.
    - rewrite Z.mod_small by lia.
      destruct (Z.eqb_spec b 3), (Z.eqb_spec c 24), (Z.eqb_spec e 3); simpl;
        try lia; apply Z.eqb_neq; lia. }
  rewrite E4, E100, E400.
  destruct (e =? 3), (c =? 24), (b =? 3); reflexivity.
Qed.

Lemma days_before_cycle_year (a b c e : Z) :
  0 <= b <= 3 -> 0 <= c <= 24 -> 0 <= e <= 3 ->
  days_before_year (cycle_year a b c e)
  = 146097 * a + 36524 * b + 1461 * c + 365 * e.
Proof.
  intros Hb Hc He. unfold days_before_year, cycle_year.
  replace (a * 400 + 1 + b * 100 + c * 4 + e - 1)
    with (a * 400 + b * 100 + c * 4 + e) by lia.
  assert (D4 : (a * 400 + b * 100 + c * 4 + e) / 4 = a * 100 + b * 25 + c).
  { replace (a * 400 + b * 100 + c * 4 + e)
      with (e + (a * 100 + b * 25 + c) * 4) by lia.
    rewrite Z.div_add by lia. rewrite Z.div_small by lia. lia. }
  assert (D100 : (a * 400 + b * 100 + c * 4 + e) / 100 = a * 4 + b).
  { replace (a * 400 + b * 100 + c * 4 + e)
      with (c * 4 + e + (a * 4 + b) * 100) by lia.
    rewrite Z.div_add by lia. rewrite Z.div_small by lia. lia. }
  assert (D400 : (a * 400 + b * 100 + c * 4 + e) / 400 = a).
  { replace (a * 400 + b * 100 + c * 4 + e)
      with (b * 100 + c * 4 + e + a * 400) by lia.
    rewrite Z.div_add by lia. rewrite Z.div_small by lia. lia. }
  rewrite D4, D100, D400. lia.
Qed.

Lemma toordinal_cycle_year (a b c e m d : Z) :
  0 <= b <= 3 -> 0 <= c <= 24 -> 0 <= e <= 3 ->
  toordinal {| year := cycle_year a b c e; month := m; day := d |}
  = 146097 * a + 36524 * b + 1461 * c + 365 * e + dbm_l m (cycle_leap b c e) + d
  /\ days_in_month (cycle_year a b c e) m = dim_l m (cycle_leap b c e).
Proof.
  intros Hb Hc He. unfold toordinal, ymd2ord. cbn [year month day].
  rewrite days_before_month_leap, days_in_month_leap.
  rewrite leap_flag, days_before_cycle_year by assumption.
  split; reflexivity.
Qed.

(** The place of an ordinal in the cycles, as [ord2ymd] computes it. *)
Lemma ordinal_digits (o : Z) :
  1 <= o ->
  let n0 := o - 1 in
  let n400 := n0 / 146097 in
  let r1 := n0 mod 146097 in
  let n100 := r1 / 36524 in
  let r2 := r1 mod 36524 in
  let n4 := r2 / 1461 in
  let r3 := r2 mod 1461 in
  let n1 := r3 / 365 in
  let n := r3 mod 365 in
  0 <= n400 /\ 0 <= n100 <= 4 /\ 0 <= n4 <= 24 /\ 0 <= n1 <= 4 /\ 0 <= n < 365
  /\ o - 1 = 146097 * n400 + 36524 * n100 + 1461 * n4 + 365 * n1 + n
  /\ 36524 * n100 + 1461 * n4 + 365 * n1 + n < 146097
  /\ 1461 * n4 + 365 * n1 + n < 36524
  /\ 365 * n1 + n < 1461.
Proof.
  intros Ho n0 n400 r1 n100 r2 n4 r3 n1 n.
  assert (B400 : 0 <= n400 /\ n0 = 146097 * n400 + r1 /\ 0 <= r1 < 146097).
  { subst n400 r1. pose proof (Z.div_mod n0 146097 ltac:(lia)).
    pose proof (Z.mod_pos_bound n0 146097 ltac:(lia)).
    assert (0 <= n0 / 146097) by (apply Z.div_pos; subst n0; lia). lia. }
  assert (B100 : 0 <= n100 <= 4 /\ r1 = 36524 * n100 + r2 /\ 0 <= r2 < 36524).
  { subst n100 r2. pose proof (Z.div_mod r1 36524 ltac:(lia)).
    pose proof (Z.mod_pos_bound r1 36524 ltac:(lia)).
    assert (0 <= r1 / 36524) by (apply Z.div_pos; lia). lia. }
  assert (B4 : 0 <= n4 <= 24 /\ r2 = 1461 * n4 + r3 /\ 0 <= r3 < 1461).
  { subst n4 r3. pose proof (Z.div_mod r2 1461 ltac:(lia)).
    pose proof (Z.mod_pos_bound r2 1461 ltac:(lia)).
    assert (0 <= r2 / 1461) by (apply Z.div_pos; lia). lia. }
  assert (B1 : 0 <= n1 <= 4 /\ r3 = 365 * n1 + n /\ 0 <= n < 365).
  { subst n1 n. pose proof (Z.div_mod r3 365 ltac:(lia)).
    pose proof (Z.mod_pos_bound r3 365 ltac:(lia)).
    assert (0 <= r3 / 365) by (apply Z.div_pos; lia). lia. }
  subst n0. lia.
Qed.

Lemma ordinal_round_trip (o : Z) :
  1 <= o ->
  toordinal (ord2ymd o) = o
  /\ 1 <= year (ord2ymd o)
  /\ 1 <= month (ord2ymd o) <= 12
  /\ 1 <= day (ord2ymd o) <= days_in_month (year (ord2ymd o)) (month (ord2ymd o))
  /\ (o <= MAXORDINAL -> year (ord2ymd o) <= 9999).
Proof.
  intros Ho. rewrite ord2ymd_unfold.
  pose proof (ordinal_digits o Ho) as H. cbv zeta in *.
  set (n400 := (o - 1) / 146097) in *.
  set (n100 := ((o - 1) mod 146097) / 36524) in *.
  set (n4 := (((o - 1) mod 146097) mod 36524) / 1461) in *.
  set (n1 := ((((o - 1) mod 146097) mod 36524) mod 1461) / 365) in *.
  set (n := ((((o - 1) mod 146097) mod 36524) mod 1461) mod 365) in *.
  clearbody n400 n100 n4 n1 n.
  destruct H as (H400 & H100 & H4 & H1 & Hn & Ho' & B1 & B2 & B3).
  unfold MAXORDINAL.
  destruct ((n1 =? 4) || (n100 =? 4)) eqn:Especial.
  - (* the last day of a leap year *)
    assert (Hcase : (n1 = 4 /\ n100 <= 3 /\ n4 <= 23 /\ n = 0)
                    \/ (n100 = 4 /\ n4 = 0 /\ n1 = 0 /\ n = 0)).
    { apply orb_true_iff in Especial.
      destruct Especial as [ E | E ]; apply Z.eqb_eq in E; lia. }
    destruct Hcase as [ (E1 & E100 & E4 & En) | (E100 & E4 & E1 & En) ].
    + replace (n400 * 400 + 1 + n100 * 100 + n4 * 4 + n1 - 1)
        with (cycle_year n400 n100 n4 3) by (unfold cycle_year; lia).
      destruct (toordinal_cycle_year n400 n100 n4 3 12 31
                  ltac:(lia) ltac:(lia) ltac:(lia)) as [ Hord Hdim ].
      assert (Hleap : cycle_leap n100 n4 3 = true).
      { unfold cycle_leap. assert ((n4 =? 24) = false) as -> by (apply Z.eqb_neq; lia).
        reflexivity. }
      rewrite Hleap in Hord, Hdim. cbn [year month day].
      rewrite Hord, Hdim. change (dbm_l 12 true) with 335.
      change (dim_l 12 true) with 31. unfold cycle_year. lia.
    + replace (n400 * 400 + 1 + n100 * 100 + n4 * 4 + n1 - 1)
        with (cycle_year n400 3 24 3) by (unfold cycle_year; lia).
      destruct (toordinal_cycle_year n400 3 24 3 12 31
                  ltac:(lia) ltac:(lia) ltac:(lia)) as [ Hord Hdim ].
      change (cycle_leap 3 24 3) with true in Hord, Hdim.
      cbn [year month day].
      rewrite Hord, Hdim. change (dbm_l 12 true) with 335.
      change (dim_l 12 true) with 31. unfold cycle_year. lia.
  - apply orb_false_iff in Especial. destruct Especial as [ E1 E100 ].
    apply Z.eqb_neq in E1, E100.
    fold (cycle_leap n100 n4 n1). fold (cycle_year n400 n100 n4 n1).
    destruct (month_day_spec (cycle_leap n100 n4 n1) n ltac:(lia))
      as (Hm & Hd & Hsum).
    destruct (toordinal_cycle_year n400 n100 n4 n1
                (fst (month_day n (cycle_leap n100 n4 n1)))
                (snd (month_day n (cycle_leap n100 n4 n1)))
                ltac:(lia) ltac:(lia) ltac:(lia)) as [ Hord Hdim ].
    cbv zeta. cbn [year month day]. rewrite Hord, Hdim.
    unfold cycle_year. lia.
Qed.

Lemma year_digits_of (y : Z) :
  exists a b c e,
    y = cycle_year a b c e /\ 0 <= b <= 3 /\ 0 <= c <= 24 /\ 0 <= e <= 3
    /\ (1 <= y -> 0 <= a) /\ (y <= 9999 -> a <= 24).
Proof.
  exists ((y - 1) / 400), (((y - 1) mod 400) / 100),
    ((((y - 1) mod 400) mod 100) / 4), ((((y - 1) mod 400) mod 100) mod 4).
  unfold cycle_year.
  pose proof (Z.div_mod (y - 1) 400 ltac:(lia)).
  pose proof (Z.mod_pos_bound (y - 1) 400 ltac:(lia)).
  set (r := (y - 1) mod 400) in *.
  pose proof (Z.div_mod r 100 ltac:(lia)).
  pose proof (Z.mod_pos_bound r 100 ltac:(lia)).
  set (r' := r mod 100) in *.
  pose proof (Z.div_mod r' 4 ltac:(lia)).
  pose proof (Z.mod_pos_bound r' 4 ltac:(lia)).
  set (qa := (y - 1) / 400) in *. set (qb := r / 100) in *.
  set (qc := r' / 4) in *. set (qe := r' mod 4) in *.
  clearbody qa qb qc qe r r'. lia.
Qed.

Lemma date_round_trip (d : date) :
  is_date d = true ->
  1 <= toordinal d <= MAXORDINAL /\ ord2ymd (toordinal d) = d.
Proof.
  unfold is_date. intros H.
  repeat (apply andb_true_iff in H; destruct H as [ H ?H ]).
  repeat match goal with
         | H : (_ <=? _) = true |- _ => apply Z.leb_le in H
         end.
  destruct d as [ y m dd ]. cbn [year month day] in *.
  destruct (year_digits_of y) as (a & b & c & e & -> & Hb & Hc & He & Ha & Ha').
  specialize (Ha ltac:(lia)). specialize (Ha' ltac:(lia)).
  destruct (toordinal_cycle_year a b c e m dd Hb Hc He) as [ Hord Hdim ].
  rewrite Hdim in *.
  destruct (month_day_inverse (cycle_leap b c e) m dd ltac:(lia) ltac:(lia))
    as (Hk & Hlast & Hinv).
  set (k := dbm_l m (cycle_leap b c e) + dd - 1) in *.
  assert (Hleap : cycle_leap b c e = true -> e = 3 /\ (c <> 24 \/ b = 3)).
  { unfold cycle_leap. intros L. apply andb_true_iff in L. destruct L as [ L1 L2 ].
    apply Z.eqb_eq in L1. apply orb_true_iff in L2.
    destruct L2 as [ L2 | L2 ];
      [ apply negb_true_iff, Z.eqb_neq in L2 | apply Z.eqb_eq in L2 ]; lia. }
  assert (Hk' : k <= 364 \/ (k = 365 /\ e = 3 /\ (c <> 24 \/ b = 3))).
  { destruct (cycle_leap b c e); [ | lia ].
    specialize (Hleap eq_refl). lia. }
  assert (Hy : a = 24 -> b = 3 -> c = 24 -> e <= 2)
    by (unfold cycle_year in *; lia).
  assert (Ho : toordinal {| year := cycle_year a b c e; month := m; day := dd |}
               = 146097 * a + 36524 * b + 1461 * c + 365 * e + k + 1)
    by (rewrite Hord; subst k; lia).
  rewrite Ho. unfold MAXORDINAL. split; [ lia | ].
  rewrite ord2ymd_unfold.
  pose proof (ordinal_digits (146097 * a + 36524 * b + 1461 * c + 365 * e + k + 1)
                ltac:(lia)) as Hdig. cbv zeta in *.
  set (o := 146097 * a + 36524 * b + 1461 * c + 365 * e + k + 1) in *.
  set (n400 := (o - 1) / 146097) in *.
  set (n100 := ((o - 1) mod 146097) / 36524) in *.
  set (n4 := (((o - 1) mod 146097) mod 36524) / 1461) in *.
  set (n1 := ((((o - 1) mod 146097) mod 36524) mod 1461) / 365) in *.
  set (n := ((((o - 1) mod 146097) mod 36524) mod 1461) mod 365) in *.
  clearbody n400 n100 n4 n1 n.
  destruct Hdig as (D400 & D100 & D4 & D1 & Dn & Do & B1 & B2 & B3).
  subst o.
  assert (E400 : n400 = a) by lia.
  destruct ((n1 =? 4) || (n100 =? 4)) eqn:Especial.
  - assert (Hcase : k = 365).
    { apply orb_true_iff in Especial.
      destruct Especial as [ E | E ]; apply Z.eqb_eq in E; lia. }
    destruct (Hlast Hcase) as [ -> -> ].
    f_equal. unfold cycle_year.
    apply orb_true_iff in Especial.
    destruct Especial as [ E | E ]; apply Z.eqb_eq in E; lia.
  - apply orb_false_iff in Especial. destruct Especial as [ E1 E100 ].
    apply Z.eqb_neq in E1, E100.
    assert (Hd : n100 = b /\ n4 = c /\ n1 = e /\ n = k) by lia.
    destruct Hd as (-> & -> & -> & ->). subst n400.
    fold (cycle_leap b c e). rewrite Hinv by lia.
    reflexivity.
Qed.

End CalendarRoundTrip.

(** ** ReportAggregator: the bounds of any week and any month *)

Section PeriodFacts.

Import Calendar CalendarFacts Report.
Local Open Scope Z_scope.

Lemma ord2ymd_is_date (o : Z) :
  1 <= o <= MAXORDINAL -> is_date (ord2ymd o) = true.
Proof.
  intros Ho. destruct (ordinal_round_trip o ltac:(lia)) as (_ & Hy & Hm & Hd & Hmax).
  specialize (Hmax ltac:(lia)). unfold is_date.
  repeat (apply andb_true_iff; split); apply Z.leb_le; lia.
Qed.

Lemma add_days_in_range (d : date) (k : Z) :
  1 <= toordinal d + k <= MAXORDINAL ->
  add_days d k = Ok (ord2ymd (toordinal d + k)).
Proof.
  intros H. unfold add_days.
  assert (E : (0 <? toordinal d + k) && (toordinal d + k <=? MAXORDINAL) = true).
  { apply andb_true_iff. split; [ apply Z.ltb_lt | apply Z.leb_le ]; lia. }
  rewrite E. reflexivity.
Qed.

Lemma add_days_overflow (d : date) (k : Z) :
  MAXORDINAL < toordinal d + k -> add_days d k = Raise OverflowError.
Proof.
  intros H. unfold add_days.
  assert (E : (toordinal d + k <=? MAXORDINAL) = false) by (apply Z.leb_gt; lia).
  rewrite E, andb_false_r. reflexivity.
Qed.

Lemma weekday_range (d : date) : 0 <= weekday d <= 6.
Proof. unfold weekday. pose proof (Z.mod_pos_bound (toordinal d + 6) 7). lia. Qed.

Lemma monday_on_or_before (o : Z) :
  1 <= o -> 1 <= o - (o + 6) mod 7 /\ (o - (o + 6) mod 7 + 6) mod 7 = 0.
Proof.
  intros Ho. pose proof (Z.div_mod (o + 6) 7 ltac:(lia)) as Hdm.
  pose proof (Z.mod_pos_bound (o + 6) 7 ltac:(lia)) as Hb.
  assert (Hq : 1 <= (o + 6) / 7) by (apply Z.div_le_lower_bound; lia).
  split; [ lia | ].
  replace (o - (o + 6) mod 7 + 6) with (0 + (o + 6) / 7 * 7) by lia.
  rewrite Z.mod_add by lia. reflexivity.
Qed.

End PeriodFacts.

(** X20. For every reference date the weekly period runs from the
    Monday on or before that date to the Sunday six days later, both
    printed as ISO dates; it raises [OverflowError] exactly when that
    Sunday falls after 9999-12-31. *)
Theorem X20_weekly_bounds_monday_to_sunday (now : Calendar.datetime) :
  CalendarFacts.is_date (Calendar.dt_date now) = true ->
  let o := Calendar.toordinal (Calendar.dt_date now) in
  let s := (o - Calendar.weekday (Calendar.dt_date now))%Z in
  ((s + 6 <= Calendar.MAXORDINAL)%Z ->
   Report.get_period_bounds "weekly" now
   = Ok (Calendar.iso_format (Calendar.ord2ymd s),
         Calendar.iso_format (Calendar.ord2ymd (s + 6)),
         String.append (Calendar.dmy_format (Calendar.ord2ymd s))
           (String.append Report.arrow
              (Calendar.dmy_format (Calendar.ord2ymd (s + 6)))))
   /\ Calendar.weekday (Calendar.ord2ymd s) = 0%Z
   /\ Calendar.weekday (Calendar.ord2ymd (s + 6)) = 6%Z
   /\ (Calendar.toordinal (Calendar.ord2ymd s) <= o
       <= Calendar.toordinal (Calendar.ord2ymd (s + 6)))%Z
   /\ CalendarFacts.is_date (Calendar.ord2ymd s) = true
   /\ CalendarFacts.is_date (Calendar.ord2ymd (s + 6)) = true)
  /\ ((Calendar.MAXORDINAL < s + 6)%Z ->
      Report.get_period_bounds "weekly" now = Raise OverflowError).
Proof.
  intros Hdate o s.
  destruct (date_round_trip _ Hdate) as [ Ho _ ]. fold o in Ho.
  pose proof (weekday_range (Calendar.dt_date now)) as Hw.
  destruct (monday_on_or_before o ltac:(lia)) as [ Hs1 Hs7 ].
  assert (Hsdef : s = (o - (o + 6) mod 7)%Z) by reflexivity.
  split.
  - intros Hfit.
    destruct (ordinal_round_trip s ltac:(lia)) as (Rs & _).
    destruct (ordinal_round_trip (s + 6) ltac:(lia)) as (Re & _).
    assert (Hsub : Calendar.sub_days (Calendar.dt_date now)
                     (Calendar.weekday (Calendar.dt_date now))
                   = Ok (Calendar.ord2ymd s)).
    { unfold Calendar.sub_days. rewrite add_days_in_range; [ reflexivity | ].
      fold o. unfold Calendar.MAXORDINAL in *. lia. }
    assert (Hadd : Calendar.add_days (Calendar.ord2ymd s) 6
                   = Ok (Calendar.ord2ymd (s + 6))).
    { rewrite add_days_in_range; rewrite Rs; [ reflexivity | lia ]. }
    split.
    { unfold Report.get_period_bounds. simpl String.eqb. cbv iota.
      rewrite Hsub. cbn [rbind]. rewrite Hadd. reflexivity. }
    unfold Calendar.weekday. rewrite Rs, Re.
    repeat split.
    + rewrite Hsdef. exact Hs7.
    + replace (s + 6 + 6)%Z with (6 + (s + 6))%Z by lia.
      rewrite <- Z.add_mod_idemp_r by lia. rewrite Hsdef, Hs7. reflexivity.
    + lia.
    + lia.
    + apply ord2ymd_is_date. unfold Calendar.MAXORDINAL in *. lia.
    + apply ord2ymd_is_date. unfold Calendar.MAXORDINAL in *. lia.
  - intros Hover. unfold Report.get_period_bounds. simpl String.eqb. cbv iota.
    unfold Calendar.sub_days.
    destruct (Z_le_gt_dec s Calendar.MAXORDINAL) as [ Hle | Hgt ].
    + destruct (ordinal_round_trip s ltac:(lia)) as (Rs & _).
      replace (Calendar.add_days (Calendar.dt_date now)
                 (- Calendar.weekday (Calendar.dt_date now)))
        with (Ok (Calendar.ord2ymd s))
        by (symmetry; apply add_days_in_range; fold o; lia).
      cbn [rbind].
      rewrite add_days_overflow by (rewrite Rs; lia). reflexivity.
    + rewrite add_days_overflow by (fold o; lia). reflexivity.
Qed.

Lemma X20_witness :
  let now := {| Calendar.dt_date :=
                  {| Calendar.year := 2025; Calendar.month := 1; Calendar.day := 1 |};
                Calendar.dt_hour := 9; Calendar.dt_minute := 0;
                Calendar.dt_second := 0; Calendar.dt_microsecond := 0 |} in
  Report.get_period_bounds "weekly" now
  = Ok (Calendar.iso_format (Calendar.ord2ymd (739252 - 2)),
        Calendar.iso_format (Calendar.ord2ymd (739252 - 2 + 6)),
        String.append (Calendar.dmy_format (Calendar.ord2ymd (739252 - 2)))
          (String.append Report.arrow
             (Calendar.dmy_format (Calendar.ord2ymd (739252 - 2 + 6)))))
  /\ Calendar.iso_format (Calendar.ord2ymd (739252 - 2)) = "2024-12-30"%string
  /\ Calendar.iso_format (Calendar.ord2ymd (739252 - 2 + 6)) = "2025-01-05"%string.
Proof.
  intros now. split; [ | split; reflexivity ].
  apply (proj1 (X20_weekly_bounds_monday_to_sunday now eq_refl)).
  vm_compute. discriminate.
Defined.

(** X21. For every reference date the monthly period runs from the
    first to the last day of the month of that date, in leap years too,
    and its label is the month and the two-digit year; only for
    December 9999 does it raise [ValueError], the first day of the next
    month being outside the calendar. *)
Theorem X21_monthly_bounds_first_to_last_day (now : Calendar.datetime) :
  CalendarFacts.is_date (Calendar.dt_date now) = true ->
  let y := Calendar.year (Calendar.dt_date now) in
  let m := Calendar.month (Calendar.dt_date now) in
  (y = 9999%Z /\ m = 12%Z ->
   Report.get_period_bounds "monthly" now = Raise ValueError)
  /\ (~ (y = 9999%Z /\ m = 12%Z) ->
      Report.get_period_bounds "monthly" now
      = Ok (Calendar.iso_format
              {| Calendar.year := y; Calendar.month := m; Calendar.day := 1 |},
            Calendar.iso_format
              {| Calendar.year := y; Calendar.month := m;
                 Calendar.day := Calendar.days_in_month y m |},
            Calendar.my_format
              {| Calendar.year := y; Calendar.month := m; Calendar.day := 1 |})).
Proof.
  intros Hdate y m.
  assert (Hfields : (1 <= y <= 9999 /\ 1 <= m <= 12)%Z).
  { unfold CalendarFacts.is_date in Hdate. fold y m in Hdate.
    repeat (apply andb_true_iff in Hdate; destruct Hdate as [ Hdate ?H ]).
    repeat match goal with
           | H : (_ <=? _)%Z = true |- _ => apply Z.leb_le in H
           end.
    lia. }
  destruct (month_spec (Calendar.is_leap y) m ltac:(lia)) as [ Hdim Hnext ].
  rewrite <- days_in_month_leap in Hdim, Hnext.
  assert (Hstart : Calendar.mk_date y m 1
                   = Ok {| Calendar.year := y; Calendar.month := m;
                           Calendar.day := 1 |}).
  { unfold Calendar.mk_date.
    assert (E : ((1 <=? y) && (y <=? 9999) && (1 <=? m) && (m <=? 12)
                 && (1 <=? 1) && (1 <=? Calendar.days_in_month y m))%Z = true).
    { repeat (apply andb_true_iff; split); apply Z.leb_le; lia. }
    rewrite E. reflexivity. }
  assert (Hlast : CalendarFacts.is_date
                    {| Calendar.year := y; Calendar.month := m;
                       Calendar.day := Calendar.days_in_month y m |} = true).
  { unfold CalendarFacts.is_date. cbn [Calendar.year Calendar.month Calendar.day].
    repeat (apply andb_true_iff; split); apply Z.leb_le; lia. }
  destruct (date_round_trip _ Hlast) as [ Hrange Hback ].
  unfold Report.get_period_bounds. simpl String.eqb. cbv iota.
  fold y m. rewrite Hstart. cbn [rbind].
  cbn [Calendar.year Calendar.month Calendar.day].
  split.
  - intros [ Hy Hm ]. rewrite Hm. simpl Z.eqb. cbv iota.
    unfold Calendar.mk_date.
    assert (E : (y + 1 <=? 9999)%Z = false) by (apply Z.leb_gt; lia).
    rewrite E. rewrite andb_false_r. reflexivity.
  - intros Hnot.
    assert (Hend : forall next,
               CalendarFacts.is_date next = true ->
               Calendar.toordinal next
               = (Calendar.toordinal
                    {| Calendar.year := y; Calendar.month := m;
                       Calendar.day := Calendar.days_in_month y m |} + 1)%Z ->
               Calendar.sub_days next 1
               = Ok {| Calendar.year := y; Calendar.month := m;
                       Calendar.day := Calendar.days_in_month y m |}).
    { intros next _ Hord. unfold Calendar.sub_days.
      rewrite add_days_in_range by lia.
      replace (Calendar.toordinal next + - (1))%Z
        with (Calendar.toordinal
                {| Calendar.year := y; Calendar.month := m;
                   Calendar.day := Calendar.days_in_month y m |}) by lia.
      rewrite Hback. reflexivity. }
    destruct (Z.eqb_spec m 12) as [ Hm | Hm ].
    + assert (Hnew : Calendar.mk_date (y + 1) 1 1
                     = Ok {| Calendar.year := (y + 1)%Z; Calendar.month := 1;
                             Calendar.day := 1 |}).
      { unfold Calendar.mk_date.
        assert (E : ((1 <=? y + 1) && (y + 1 <=? 9999))%Z = true)
          by (apply andb_true_iff; split; apply Z.leb_le; lia).
        rewrite E. reflexivity. }
      rewrite Hnew. cbn [rbind]. rewrite Hend; [ reflexivity | | ].
      * unfold CalendarFacts.is_date.
        cbn [Calendar.year Calendar.month Calendar.day].
        assert (E : ((1 <=? y + 1) && (y + 1 <=? 9999))%Z = true)
          by (apply andb_true_iff; split; apply Z.leb_le; lia).
        rewrite E. reflexivity.
      * unfold Calendar.toordinal, Calendar.ymd2ord.
        cbn [Calendar.year Calendar.month Calendar.day].
        rewrite !days_before_month_leap.
        rewrite year_length.
        change (CalendarFacts.dbm_l 1 (Calendar.is_leap (y + 1))) with 0%Z.
        revert Hnext. destruct (Calendar.is_leap y); intros Hnext; lia.
    + assert (Hnew : Calendar.mk_date y (m + 1) 1
                     = Ok {| Calendar.year := y; Calendar.month := (m + 1)%Z;
                             Calendar.day := 1 |}).
      { unfold Calendar.mk_date.
        destruct (month_spec (Calendar.is_leap y) (m + 1) ltac:(lia)) as [ Hd' _ ].
        rewrite <- days_in_month_leap in Hd'.
        assert (E : ((1 <=? y) && (y <=? 9999) && (1 <=? m + 1) && (m + 1 <=? 12)
                     && (1 <=? 1) && (1 <=? Calendar.days_in_month y (m + 1)))%Z
                    = true).
        { repeat (apply andb_true_iff; split); apply Z.leb_le; lia. }
        rewrite E. reflexivity. }
      rewrite Hnew. cbn [rbind]. rewrite Hend; [ reflexivity | | ].
      * unfold CalendarFacts.is_date.
        cbn [Calendar.year Calendar.month Calendar.day].
        destruct (month_spec (Calendar.is_leap y) (m + 1) ltac:(lia)) as [ Hd' _ ].
        rewrite <- days_in_month_leap in Hd'.
        repeat (apply andb_true_iff; split); apply Z.leb_le; lia.
      * unfold Calendar.toordinal, Calendar.ymd2ord.
        cbn [Calendar.year Calendar.month Calendar.day].
        rewrite !days_before_month_leap.
        lia.
Qed.

Lemma X21_witness :
  let now := {| Calendar.dt_date :=
                  {| Calendar.year := 2024; Calendar.month := 2; Calendar.day := 10 |};
                Calendar.dt_hour := 9; Calendar.dt_minute := 0;
                Calendar.dt_second := 0; Calendar.dt_microsecond := 0 |} in
  Report.get_period_bounds "monthly" now
  = Ok (Calendar.iso_format
          {| Calendar.year := 2024; Calendar.month := 2; Calendar.day := 1 |},
        Calendar.iso_format
          {| Calendar.year := 2024; Calendar.month := 2;
             Calendar.day := Calendar.days_in_month 2024 2 |},
        Calendar.my_format
          {| Calendar.year := 2024; Calendar.month := 2; Calendar.day := 1 |}).
Proof.
  intros now.
  apply (proj2 (X21_monthly_bounds_first_to_last_day now eq_refl)).
  intros [ H _ ]. discriminate.
Defined.

(** ** PolygonFile: what the loader makes of a document *)

Section LoaderFacts.

Import Poller PolygonFile.

Variable float_of_string : string -> option Q.

Lemma collect_Forall2 {A B : Type} (f : A -> outcome B) (R : A -> B -> Prop)
    (l : list A) (out : list B) :
  (forall a b, R a b -> f a = Loaded b) ->
  Forall2 R l out -> collect f l = Loaded out.
Proof.
  intros Hf H. induction H as [ | a b l out Hab _ IH ]; [ reflexivity | ].
  simpl. rewrite (Hf a b Hab). simpl. rewrite IH. reflexivity.
Qed.

Lemma vertex_at_encoded (swapped : bool) (pt : json) (v : Geofence.vertex) :
  encodes_vertex swapped pt v ->
  vertex_at float_of_string (if swapped then 1 else 0)
    (if swapped then 0 else 1) pt = Loaded v.
Proof.
  intros [ more -> ]. destruct v as [ la lo ]. destruct swapped; reflexivity.
Qed.

Lemma ring_at_encoded (swapped : bool) (j : json) (r : Geofence.ring) :
  encodes_ring swapped j r ->
  ring_at float_of_string (if swapped then 1 else 0)
    (if swapped then 0 else 1) j = Loaded r.
Proof.
  intros (pts & -> & H). unfold ring_at. simpl.
  exact (collect_Forall2 _ _ pts r (vertex_at_encoded swapped) H).
Qed.

Lemma polygon_at_encoded (swapped : bool) (j : json) (p : Geofence.polygon) :
  encodes_polygon swapped j p ->
  polygon_at float_of_string (if swapped then 1 else 0)
    (if swapped then 0 else 1) j = Loaded p.
Proof.
  intros (rings & -> & H). unfold polygon_at. simpl.
  exact (collect_Forall2 _ _ rings p (ring_at_encoded swapped) H).
Qed.

Lemma feature_polygons_encoded (feat : json) (polys : list Geofence.polygon) :
  encodes_feature feat polys ->
  feature_polygons float_of_string feat = Loaded polys.
Proof.
  intros (fentries & gentries & -> & Hgeom & Hcases).
  unfold feature_polygons. simpl. rewrite Hgeom. simpl.
  destruct Hcases as [ (Htype & coords & poly & Hcoords & Henc & ->)
                     | [ (Htype & parts & Hcoords & Henc)
                       | (Htype & ->) ] ].
  - rewrite Htype, Hcoords. simpl.
    rewrite (polygon_at_encoded true coords poly Henc). reflexivity.
  - rewrite Htype, Hcoords. simpl.
    exact (collect_Forall2 _ _ parts polys (polygon_at_encoded true) Henc).
  - destruct (dict_get "type" gentries) as [ t | ] eqn:E.
    + destruct (Htype t eq_refl) as [ H1 H2 ]. rewrite H1, H2. reflexivity.
    + reflexivity.
Qed.

Lemma collect_app_failed {A B : Type} (f : A -> outcome B)
    (good : list A) (out : list B) (bad : A) (rest : list A) (e : load_exn) :
  collect f good = Loaded out -> f bad = Failed e ->
  collect f (good ++ bad :: rest) = Failed e.
Proof.
  revert out. induction good as [ | a good IH ]; intros out Hgood Hbad.
  - simpl. rewrite Hbad. reflexivity.
  - simpl in *. destruct (f a) as [ b | e' ]; simpl in *; [ | discriminate ].
    destruct (collect f good) as [ bs | e' ]; simpl in *; [ | discriminate ].
    rewrite (IH bs eq_refl Hbad). reflexivity.
Qed.

End LoaderFacts.





(** X24. A feature without a location, its ["geometry"] being [null]
    as GeoJSON allows, makes the loader raise [AttributeError] when the
    features before it are read without error: nothing is loaded. *)
Theorem X24_null_geometry_raises
    (float_of_string : string -> option Q)
    (entries fentries : list (string * Poller.json))
    (good rest : list Poller.json) (added : list (list Geofence.polygon)) :
  Poller.dict_get "type" entries = Some (Poller.JStr "FeatureCollection") ->
  Poller.dict_get "features" entries
  = Some (Poller.JList (good ++ Poller.JDict fentries :: rest)) ->
  Forall2 encodes_feature good added ->
  Poller.dict_get "geometry" fentries = Some Poller.JNull ->
  PolygonFile.load_polygons_from_geojson float_of_string (Poller.JDict entries)
  = PolygonFile.Failed PolygonFile.AttributeError.
Proof.
  intros Htype Hfeatures Henc Hnull.
  unfold PolygonFile.load_polygons_from_geojson.
  rewrite Htype, Hfeatures. simpl.
  rewrite (collect_app_failed _ good added (Poller.JDict fentries) rest
             PolygonFile.AttributeError).
  - reflexivity.
  - exact (collect_Forall2 _ _ good added
             (feature_polygons_encoded float_of_string) Henc).
  - unfold PolygonFile.feature_polygons. simpl. rewrite Hnull. reflexivity.
Qed.

Lemma X24_witness :
  PolygonFile.load_polygons_from_geojson (fun _ => None)
    (Poller.JDict
       [("type"%string, Poller.JStr "FeatureCollection");
        ("features"%string,
         Poller.JList
           [Poller.JDict
              [("type"%string, Poller.JStr "Feature");
               ("geometry"%string,
                Poller.JDict
                  [("type"%string, Poller.JStr "Point");
                   ("coordinates"%string,
                    Poller.JList [Poller.JNum 12; Poller.JNum 42])])];
            Poller.JDict
              [("type"%string, Poller.JStr "Feature");
               ("properties"%string,
                Poller.JDict [("name"%string, Poller.JStr "unlocated")]);
               ("geometry"%string, Poller.JNull)]])])
  = PolygonFile.Failed PolygonFile.AttributeError.
Proof.
  eapply (X24_null_geometry_raises _ _ _
            [Poller.JDict
               [("type"%string, Poller.JStr "Feature");
                ("geometry"%string,
                 Poller.JDict
                   [("type"%string, Poller.JStr "Point");
                    ("coordinates"%string,
                     Poller.JList [Poller.JNum 12; Poller.JNum 42])])]]
            [] [[]]).
  - reflexivity.
  - reflexivity.
  - constructor; [ | constructor ].
    eexists. eexists. split; [ reflexivity | ]. split; [ reflexivity | ].
    right. right. split; [ | reflexivity ].
    intros t H. injection H as <-. split; reflexivity.
  - reflexivity.
Defined.

(** X25. A document that is neither a feature collection nor an object
    with a ["polygons"] key (a bare GeoJSON geometry or feature, a list,
    ...) loads as no polygon at all, without an error; the geofence step
    of the poller then keeps every aircraft. *)
Theorem X25_unrecognised_document_disables_geofence
    (float_of_string : string -> option Q) (data : Poller.json) :
  (forall entries, data = Poller.JDict entries ->
     Poller.dict_get "type" entries <> Some (Poller.JStr "FeatureCollection")
     /\ Poller.dict_get "polygons" entries = None) ->
  PolygonFile.load_polygons_from_geojson float_of_string data
  = PolygonFile.Loaded []
  /\ forall polygons aircraft,
       PolygonFile.load_polygons_from_geojson float_of_string data
       = PolygonFile.Loaded polygons ->
       Poller.geofence_step polygons aircraft = Ok aircraft.
Proof.
  intros H.
  assert (E : PolygonFile.load_polygons_from_geojson float_of_string data
              = PolygonFile.Loaded []).
  { destruct data as [ | b | q | s | items | kvs ]; try reflexivity.
    destruct (H kvs eq_refl) as [ Htype Hpolys ].
    unfold PolygonFile.load_polygons_from_geojson. rewrite Hpolys.
    destruct (Poller.dict_get "type" kvs) as [ t | ]; [ | reflexivity ].
    destruct t as [ | b | q | s | items | kvs' ]; try reflexivity.
    simpl. destruct (String.eqb_spec s "FeatureCollection") as [ -> | ];
      [ contradiction | reflexivity ]. }
  split; [ exact E | ].
  intros polygons aircraft Hload. rewrite E in Hload.
  injection Hload as <-. reflexivity.
Qed.

Lemma X25_witness :
  let data :=
    Poller.JDict
      [("type"%string, Poller.JStr "Polygon");
       ("coordinates"%string,
        Poller.JList
          [Poller.JList
             [Poller.JList [Poller.JNum 12; Poller.JNum 41];
              Poller.JList [Poller.JNum 13; Poller.JNum 41];
              Poller.JList [Poller.JNum 13; Poller.JNum 42]]])] in
  PolygonFile.load_polygons_from_geojson (fun _ => None) data
  = PolygonFile.Loaded []
  /\ Poller.geofence_step []
       [Poller.aircraft_at "abc123" (Some 50) (Some 50)]
     = Ok [Poller.aircraft_at "abc123" (Some 50) (Some 50)].
Proof.
  intros data.
  assert (H : forall entries, data = Poller.JDict entries ->
     Poller.dict_get "type" entries <> Some (Poller.JStr "FeatureCollection")
     /\ Poller.dict_get "polygons" entries = None).
  { intros entries Hd. injection Hd as <-. split; [ discriminate | reflexivity ]. }
  destruct (X25_unrecognised_document_disables_geofence (fun _ => None) data H)
    as [ E Hstep ].
  split; [ exact E | exact (Hstep [] _ E) ].
Defined.

(** ** The stamp of a cycle and the event store *)

Section StampFacts.

Import Calendar.

Lemma last_is_C_append (a b : string) :
  b <> EmptyString -> last_is_C (String.append a b) = last_is_C b.
Proof.
  intros Hb. induction a as [ | c a IH ]; [ reflexivity | ].
  simpl. destruct (String.append a b) eqn:E; [ | exact IH ].
  destruct a; simpl in E; [ contradiction | discriminate ].
Qed.

Lemma digit_is_ascii (n : Z) : (192 <=? nat_of_ascii (digit n))%nat = false.
Proof.
  unfold digit. pose proof (Z.mod_pos_bound n 10 ltac:(lia)) as H.
  rewrite nat_ascii_embedding by lia. apply Nat.leb_gt. lia.
Qed.

Lemma length_append (a b : string) :
  String.length (String.append a b) = (String.length a + String.length b)%nat.
Proof. induction a as [ | c a IH ]; simpl; [ reflexivity | now rewrite IH ]. Qed.

Lemma substr_chars_prefix (a b : string) :
  single_bytes a = true ->
  forall fuel, (String.length a < fuel)%nat ->
  EventStore.substr_chars fuel (String.length a) (String.append a b) = a.
Proof.
  induction a as [ | c a IH ]; intros Ha fuel Hfuel.
  - destruct fuel; reflexivity.
  - simpl in Ha. apply andb_true_iff in Ha. destruct Ha as [ Hc Ha ].
    apply negb_true_iff in Hc.
    destruct fuel as [ | fuel ]; [ simpl in Hfuel; lia | ].
    simpl. rewrite Hc. rewrite IH; [ reflexivity | exact Ha | simpl in Hfuel; lia ].
Qed.

Lemma iso_format_ten (d : date) :
  (1000 <= year d)%Z ->
  String.length (iso_format d) = 10%nat /\ single_bytes (iso_format d) = true.
Proof.
  intros Hy. unfold iso_format, year_digits.
  assert (E1 : (year d <? 10)%Z = false) by (apply Z.ltb_ge; lia).
  assert (E2 : (year d <? 100)%Z = false) by (apply Z.ltb_ge; lia).
  assert (E3 : (year d <? 1000)%Z = false) by (apply Z.ltb_ge; lia).
  rewrite E1, E2, E3. unfold pad4, pad2.
  cbv beta iota delta [String.append String.length single_bytes].
  rewrite !digit_is_ascii. split; reflexivity.
Qed.

End StampFacts.

(** X26. Whatever the time, the stamp that [now_utc_str] writes is a
    text for which SQLite's [datetime()] gives NULL: the key of the
    [ORDER BY] of the range query is NULL for every row the poller
    writes. *)
Theorem X26_poller_stamp_has_null_sort_key
    (fb : SqliteDate.fallback) (now : Calendar.datetime) :
  SqliteDate.datetime fb (Some (SeenCsv.now_utc_str now)) = None.
Proof.
  apply datetime_null_on_utc_suffix. unfold SeenCsv.now_utc_str.
  rewrite last_is_C_append.
  - reflexivity.
  - discriminate.
Qed.

(** X27. A row stamped by the poller at the UTC time [now], in a year
    of four digits, is in the range of the query exactly when the UTC
    date of [now], printed as [YYYY-MM-DD], lies between the two bounds
    as a text. *)
Theorem X27_stamped_row_selected_by_utc_date
    (now : Calendar.datetime) (row : EventStore.db_row)
    (start_day end_day : string) :
  CalendarFacts.is_date (Calendar.dt_date now) = true ->
  (1000 <= Calendar.year (Calendar.dt_date now))%Z ->
  EventStore.first_seen_utc row = Some (SeenCsv.now_utc_str now) ->
  EventStore.in_day_range start_day end_day row
  = String.leb start_day (Calendar.iso_format (Calendar.dt_date now))
    && String.leb (Calendar.iso_format (Calendar.dt_date now)) end_day.
Proof.
  intros _ Hy Hrow.
  destruct (iso_format_ten (Calendar.dt_date now) Hy) as [ Hlen Hbytes ].
  unfold EventStore.in_day_range, EventStore.between, EventStore.substr_1_10.
  rewrite Hrow. unfold SeenCsv.now_utc_str.
  set (tail := String.append " " _).
  pose proof (substr_chars_prefix (Calendar.iso_format (Calendar.dt_date now))
                tail Hbytes
                (String.length
                   (String.append (Calendar.iso_format (Calendar.dt_date now))
                      tail))) as P.
  rewrite Hlen in P. rewrite P; [ reflexivity | ].
  rewrite length_append. unfold tail. simpl. lia.
Qed.

Lemma X27_witness :
  let now := {| Calendar.dt_date :=
                  {| Calendar.year := 2024; Calendar.month := 3;
                     Calendar.day := 15 |};
                Calendar.dt_hour := 23; Calendar.dt_minute := 30;
                Calendar.dt_second := 0; Calendar.dt_microsecond := 0 |} in
  let row := {| EventStore.first_seen_utc := Some (SeenCsv.now_utc_str now);
                EventStore.hex := Some "abc123"%string;
                EventStore.callsign := None; EventStore.reg := None;
                EventStore.model_t := None;
                EventStore.lat := EventStore.SqlNull;
                EventStore.lon := EventStore.SqlNull;
                EventStore.alt_ft := EventStore.SqlNull;
                EventStore.gs_kt := EventStore.SqlNull;
                EventStore.squawk := None; EventStore.ground := None |} in
  SeenCsv.now_utc_str now = "2024-03-15 23:30:00 UTC"%string
  /\ EventStore.in_day_range "2024-03-16" "2024-03-16" row
     = String.leb "2024-03-16" (Calendar.iso_format (Calendar.dt_date now))
       && String.leb (Calendar.iso_format (Calendar.dt_date now)) "2024-03-16".
Proof.
  intros now row. split; [ reflexivity | ].
  apply (X27_stamped_row_selected_by_utc_date now row).
  - reflexivity.
  - simpl. lia.
  - reflexivity.
Defined.

(** ** The CSV file over a run *)

Section CsvFacts.

Import Poller SeenCsv.

Variable decode : json -> result Aircraft.
Variable polygons : list Geofence.polygon.
Variables cooldown interval : Z.

Lemma poll_cycle_csv (env : cycle_env) (last : gmap string Q)
    (out : cycle_outcome) :
  poll_cycle decode polygons cooldown interval env last = Ok out ->
  csv_appended out
  = match event_rows (cycle_state out) with [] => None | rows => Some rows end.
Proof.
  unfold poll_cycle. intros H. apply rbind_ok in H.
  destruct H as (aircraft & _ & H). injection H as <-. reflexivity.
Qed.

Lemma poll_loop_csv (envs : list cycle_env) :
  forall last outs,
    poll_loop decode polygons cooldown interval envs last = Ok outs ->
    Forall (fun out =>
              csv_appended out
              = match event_rows (cycle_state out) with
                | [] => None
                | rows => Some rows
                end) outs.
Proof.
  induction envs as [ | env rest IH ]; intros last outs H; simpl in H.
  - injection H as <-. constructor.
  - apply rbind_ok in H. destruct H as (out & Hout & H).
    apply rbind_ok in H. destruct H as (outs' & Houts & H).
    injection H as <-. constructor.
    + exact (poll_cycle_csv env last out Hout).
    + exact (IH _ _ Houts).
Qed.

Lemma csv_after_run_existing (io : nat -> io_outcome)
    (outs : list cycle_outcome) :
  (forall k, io k = Written) ->
  Forall (fun out =>
            csv_appended out
            = match event_rows (cycle_state out) with
              | [] => None
              | rows => Some rows
              end) outs ->
  forall k content,
    csv_after_run io k outs (Some content)
    = Some (content ++ map RowLine (run_rows outs)).
Proof.
  intros Hio H. induction H as [ | out outs Hout _ IH ]; intros k content.
  - simpl. rewrite app_nil_r. reflexivity.
  - simpl. rewrite Hout. unfold run_rows. simpl.
    destruct (event_rows (cycle_state out)) as [ | r rows ] eqn:E.
    + exact (IH (S k) content).
    + unfold append_seen_csv. rewrite Hio. simpl fst.
      rewrite (IH (S k)). rewrite map_app, <- app_assoc. reflexivity.
Qed.

Lemma csv_after_run_absent (io : nat -> io_outcome)
    (outs : list cycle_outcome) :
  (forall k, io k = Written) ->
  Forall (fun out =>
            csv_appended out
            = match event_rows (cycle_state out) with
              | [] => None
              | rows => Some rows
              end) outs ->
  forall k,
    csv_after_run io k outs None
    = match run_rows outs with
      | [] => None
      | rows => Some (HeaderLine FIELDNAMES :: map RowLine rows)
      end.
Proof.
  intros Hio H. induction H as [ | out outs Hout Houts IH ]; intros k.
  - reflexivity.
  - simpl. rewrite Hout. unfold run_rows. simpl.
    destruct (event_rows (cycle_state out)) as [ | r rows ] eqn:E.
    + exact (IH (S k)).
    + unfold append_seen_csv. rewrite Hio. simpl fst.
      rewrite (csv_after_run_existing io outs Hio Houts).
      simpl. rewrite map_app. reflexivity.
Qed.

End CsvFacts.

(** X28. Over a run whose writes all succeed, a CSV file that did not
    exist is created by the first cycle that has a row, with the header
    once at its top and then the rows of the run in order, and is not
    created at all when no cycle has a row; to a file that exists, also
    an empty one, the rows are appended with no header. *)
Theorem X28_header_once_at_top
    (decode : Poller.json -> result Poller.Aircraft)
    (polygons : list Geofence.polygon) (cooldown interval : Z)
    (envs : list Poller.cycle_env) (last : gmap string Q)
    (outs : list Poller.cycle_outcome) (io : nat -> SeenCsv.io_outcome) :
  Poller.poll_loop decode polygons cooldown interval envs last = Ok outs ->
  (forall k, io k = SeenCsv.Written) ->
  SeenCsv.csv_after_run io 0 outs None
  = match run_rows outs with
    | [] => None
    | rows =>
        Some (SeenCsv.HeaderLine SeenCsv.FIELDNAMES
              :: map SeenCsv.RowLine rows)
    end
  /\ forall content,
       SeenCsv.csv_after_run io 0 outs (Some content)
       = Some (content ++ map SeenCsv.RowLine (run_rows outs)).
Proof.
  intros Hrun Hio.
  pose proof (poll_loop_csv _ _ _ _ envs last outs Hrun) as H.
  split.
  - exact (csv_after_run_absent io outs Hio H 0%nat).
  - exact (csv_after_run_existing io outs Hio H 0%nat).
Qed.

Lemma X28_witness :
  exists outs,
    Scenario.run = Ok outs
    /\ length (run_rows outs) = 2%nat
    /\ SeenCsv.csv_after_run (fun _ => SeenCsv.Written) 0 outs None
       = Some (SeenCsv.HeaderLine SeenCsv.FIELDNAMES
               :: map SeenCsv.RowLine (run_rows outs))
    /\ SeenCsv.csv_after_run (fun _ => SeenCsv.Written) 0 outs (Some [])
       = Some (map SeenCsv.RowLine (run_rows outs)).
Proof.
  destruct Scenario.run as [ outs | e ] eqn:E; [ | vm_compute in E; discriminate ].
  exists outs.
  assert (Hlen : length (run_rows outs) = 2%nat).
  { vm_compute in E. injection E as <-. reflexivity. }
  split; [ reflexivity | ]. split; [ exact Hlen | ].
  destruct (X28_header_once_at_top _ _ _ _ _ _ outs (fun _ => SeenCsv.Written)
              E (fun _ => eq_refl)) as [ Habsent Hexisting ].
  split.
  - rewrite Habsent. destruct (run_rows outs); [ discriminate | reflexivity ].
  - exact (Hexisting []).
Defined.

(** ** Dates as texts: the order of [YYYY-MM-DD] *)

Section IsoOrder.

Import Calendar.
Local Open Scope Z_scope.

Lemma digit_compare (a b : Z) :
  Ascii.compare (digit a) (digit b) = (a mod 10 ?= b mod 10).
Proof.
  unfold Ascii.compare, digit.
  pose proof (Z.mod_pos_bound a 10 ltac:(lia)) as Ha.
  pose proof (Z.mod_pos_bound b 10 ltac:(lia)) as Hb.
  rewrite N2Nat.inj_compare.
  change (N.to_nat (N_of_ascii ?c)) with (nat_of_ascii c).
  rewrite !nat_ascii_embedding by lia.
  rewrite <- Nat2Z.inj_compare. rewrite !Nat2Z.inj_add, !Z2Nat.id by lia.
  rewrite Z.add_compare_mono_l. reflexivity.
Qed.

Lemma digit_ext (a b : Z) : a mod 10 = b mod 10 -> digit a = digit b.
Proof. unfold digit. intros ->. reflexivity. Qed.

(** Two digits in front of two texts. *)
Lemma compare_two_digits (a b : Z) (s t : string) :
  0 <= a < 100 -> 0 <= b < 100 ->
  String.compare (String (digit (a / 10)) (String (digit a) s))
    (String (digit (b / 10)) (String (digit b) t))
  = match a ?= b with
    | Eq => String.compare s t
    | Lt => Lt
    | Gt => Gt
    end.
Proof.
  intros Ha Hb. cbn [String.compare]. rewrite !digit_compare.
  pose proof (Z.div_mod a 10 ltac:(lia)) as Da.
  pose proof (Z.div_mod b 10 ltac:(lia)) as Db.
  pose proof (Z.mod_pos_bound a 10 ltac:(lia)) as Ra.
  pose proof (Z.mod_pos_bound b 10 ltac:(lia)) as Rb.
  assert (Qa : 0 <= a / 10 < 10)
    by (split; [ apply Z.div_pos; lia | apply Z.div_lt_upper_bound; lia ]).
  assert (Qb : 0 <= b / 10 < 10)
    by (split; [ apply Z.div_pos; lia | apply Z.div_lt_upper_bound; lia ]).
  rewrite (Z.mod_small (a / 10) 10 Qa), (Z.mod_small (b / 10) 10 Qb).
  destruct (Z.compare_spec (a / 10) (b / 10)),
           (Z.compare_spec (a mod 10) (b mod 10)),
           (Z.compare_spec a b); try reflexivity; lia.
Qed.

Lemma four_digits_split (y : Z) (s : string) :
  String (digit (y / 1000)) (String (digit (y / 100))
    (String (digit (y / 10)) (String (digit y) s)))
  = String (digit (y / 100 / 10)) (String (digit (y / 100))
      (String (digit (y mod 100 / 10)) (String (digit (y mod 100)) s))).
Proof.
  assert (E : y mod 100 = y mod 10 + (y / 10) mod 10 * 10).
  { change 100 with (10 * 10). rewrite Z.rem_mul_r by lia. lia. }
  rewrite Z.div_div by lia. change (100 * 10) with 1000.
  rewrite (digit_ext (y / 10) (y mod 100 / 10)).
  - rewrite (digit_ext y (y mod 100)); [ reflexivity | ].
    rewrite E, Z.mod_add, Z.mod_mod by lia. reflexivity.
  - rewrite E, Z.div_add by lia.
    rewrite (Z.div_small (y mod 10) 10) by (apply Z.mod_pos_bound; lia).
    rewrite Z.add_0_l, Z.mod_mod by lia. reflexivity.
Qed.

Lemma compare_four_digits (a b : Z) (s t : string) :
  0 <= a < 10000 -> 0 <= b < 10000 ->
  String.compare
    (String (digit (a / 1000)) (String (digit (a / 100))
       (String (digit (a / 10)) (String (digit a) s))))
    (String (digit (b / 1000)) (String (digit (b / 100))
       (String (digit (b / 10)) (String (digit b) t))))
  = match a ?= b with
    | Eq => String.compare s t
    | Lt => Lt
    | Gt => Gt
    end.
Proof.
  intros Ha Hb. rewrite !four_digits_split.
  pose proof (Z.div_mod a 100 ltac:(lia)) as Da.
  pose proof (Z.div_mod b 100 ltac:(lia)) as Db.
  pose proof (Z.mod_pos_bound a 100 ltac:(lia)) as Ra.
  pose proof (Z.mod_pos_bound b 100 ltac:(lia)) as Rb.
  assert (Qa : 0 <= a / 100 < 100)
    by (split; [ apply Z.div_pos; lia | apply Z.div_lt_upper_bound; lia ]).
  assert (Qb : 0 <= b / 100 < 100)
    by (split; [ apply Z.div_pos; lia | apply Z.div_lt_upper_bound; lia ]).
  rewrite (compare_two_digits (a / 100) (b / 100) _ _ Qa Qb).
  rewrite (compare_two_digits (a mod 100) (b mod 100) _ _ Ra Rb).
  destruct (Z.compare_spec (a / 100) (b / 100)),
           (Z.compare_spec (a mod 100) (b mod 100)),
           (Z.compare_spec a b); try reflexivity; lia.
Qed.

Lemma compare_same_head (c : ascii) (s t : string) :
  String.compare (String c s) (String c t) = String.compare s t.
Proof.
  cbn [String.compare]. unfold Ascii.compare. rewrite N.compare_refl.
  reflexivity.
Qed.

Lemma is_date_fields (d : date) :
  CalendarFacts.is_date d = true ->
  1 <= year d <= 9999 /\ 1 <= month d <= 12 /\ 1 <= day d <= 31.
Proof.
  unfold CalendarFacts.is_date. intros H.
  repeat (apply andb_true_iff in H; destruct H as [ H ?H ]).
  repeat match goal with
         | H : (_ <=? _) = true |- _ => apply Z.leb_le in H
         end.
  destruct (month_spec (is_leap (year d)) (month d) ltac:(lia)) as [ Hdim _ ].
  rewrite <- days_in_month_leap in Hdim. lia.
Qed.

(** For dates with a year of four digits the order of the texts is the
    order of the dates. *)
Lemma iso_format_order (a b : date) :
  CalendarFacts.is_date a = true -> 1000 <= year a ->
  CalendarFacts.is_date b = true -> 1000 <= year b ->
  String.leb (iso_format a) (iso_format b) = date_leb a b.
Proof.
  intros Ha Hya Hb Hyb.
  destruct (is_date_fields a Ha) as (Ya & Ma & Da).
  destruct (is_date_fields b Hb) as (Yb & Mb & Db).
  unfold String.leb, iso_format, year_digits.
  assert (Ea1 : (year a <? 10) = false) by (apply Z.ltb_ge; lia).
  assert (Ea2 : (year a <? 100) = false) by (apply Z.ltb_ge; lia).
  assert (Ea3 : (year a <? 1000) = false) by (apply Z.ltb_ge; lia).
  assert (Eb1 : (year b <? 10) = false) by (apply Z.ltb_ge; lia).
  assert (Eb2 : (year b <? 100) = false) by (apply Z.ltb_ge; lia).
  assert (Eb3 : (year b <? 1000) = false) by (apply Z.ltb_ge; lia).
  rewrite Ea1, Ea2, Ea3, Eb1, Eb2, Eb3. unfold pad4, pad2.
  cbv beta iota delta [String.append].
  rewrite compare_four_digits by lia.
  rewrite compare_same_head, compare_two_digits by lia.
  rewrite compare_same_head, compare_two_digits by lia.
  cbn [String.compare]. unfold date_leb.
  destruct (Z.compare_spec (year a) (year b)),
           (Z.compare_spec (month a) (month b)),
           (Z.compare_spec (day a) (day b));
    repeat match goal with
           | |- context [ (?x <? ?y) ] => destruct (Z.ltb_spec x y)
           | |- context [ (?x =? ?y) ] => destruct (Z.eqb_spec x y)
           | |- context [ (?x <=? ?y) ] => destruct (Z.leb_spec x y)
           end; simpl; try reflexivity; lia.
Qed.

End IsoOrder.

(** X29. The poller and the publisher together: for a period from the
    date [first] to the date [last], printed as the publisher prints
    its bounds, a row that the poller stamped at the UTC time [now] is
    in the range of the query exactly when the UTC date of [now] is a
    date of the period; all years have four digits. *)
Theorem X29_period_selects_rows_by_utc_date
    (first last : Calendar.date) (now : Calendar.datetime)
    (row : EventStore.db_row) :
  CalendarFacts.is_date first = true ->
  CalendarFacts.is_date last = true ->
  CalendarFacts.is_date (Calendar.dt_date now) = true ->
  (1000 <= Calendar.year first)%Z ->
  (1000 <= Calendar.year last)%Z ->
  (1000 <= Calendar.year (Calendar.dt_date now))%Z ->
  EventStore.first_seen_utc row = Some (SeenCsv.now_utc_str now) ->
  EventStore.in_day_range (Calendar.iso_format first)
    (Calendar.iso_format last) row
  = date_leb first (Calendar.dt_date now)
    && date_leb (Calendar.dt_date now) last.
Proof.
  intros Hfirst Hlast Hnow Yfirst Ylast Ynow Hrow.
  destruct (iso_format_ten (Calendar.dt_date now) Ynow) as [ Hlen Hbytes ].
  unfold EventStore.in_day_range, EventStore.between, EventStore.substr_1_10.
  rewrite Hrow. unfold SeenCsv.now_utc_str.
  set (tail := String.append " " _).
  pose proof (substr_chars_prefix (Calendar.iso_format (Calendar.dt_date now))
                tail Hbytes
                (String.length
                   (String.append (Calendar.iso_format (Calendar.dt_date now))
                      tail))) as P.
  rewrite Hlen in P. rewrite P.
  - rewrite !iso_format_order by assumption. reflexivity.
  - rewrite length_append. unfold tail. simpl. lia.
Qed.

Lemma X29_witness :
  let now := {| Calendar.dt_date :=
                  {| Calendar.year := 2024; Calendar.month := 12;
                     Calendar.day := 31 |};
                Calendar.dt_hour := 23; Calendar.dt_minute := 30;
                Calendar.dt_second := 0; Calendar.dt_microsecond := 0 |} in
  let first := {| Calendar.year := 2024; Calendar.month := 12;
                  Calendar.day := 30 |} in
  let last := {| Calendar.year := 2025; Calendar.month := 1;
                 Calendar.day := 5 |} in
  let row := {| EventStore.first_seen_utc := Some (SeenCsv.now_utc_str now);
                EventStore.hex := Some "abc123"%string;
                EventStore.callsign := None; EventStore.reg := None;
                EventStore.model_t := None;
                EventStore.lat := EventStore.SqlNull;
                EventStore.lon := EventStore.SqlNull;
                EventStore.alt_ft := EventStore.SqlNull;
                EventStore.gs_kt := EventStore.SqlNull;
                EventStore.squawk := None; EventStore.ground := None |} in
  EventStore.in_day_range (Calendar.iso_format first)
    (Calendar.iso_format last) row
  = date_leb first (Calendar.dt_date now)
    && date_leb (Calendar.dt_date now) last
  /\ date_leb first (Calendar.dt_date now)
     && date_leb (Calendar.dt_date now) last = true.
Proof.
  intros now first last row. split; [ | reflexivity ].
  apply (X29_period_selects_rows_by_utc_date first last now row);
    try reflexivity; simpl; lia.
Defined.

(** ** The rows of a cycle under a geofence *)

Section GeofencedRows.

Import Poller.

Lemma alert_loop_rows (cooldown : Z) (stamp : string)
    (sightings : list (Aircraft * Q)) :
  forall st row,
    In row (event_rows (alert_loop cooldown stamp sightings st)) ->
    In row (event_rows st)
    \/ exists s, In s sightings /\ row = make_row stamp (fst s).
Proof.
  induction sightings as [ | s rest IH ]; intros st row Hin; [ left; exact Hin | ].
  rewrite alert_loop_cons in Hin. apply IH in Hin.
  destruct Hin as [ Hin | (s' & Hs' & Hrow) ].
  - unfold alert_step in Hin.
    destruct (in_cooldown cooldown (last_mil_alert st) (hex (fst s)) (snd s));
      [ left; exact Hin | ].
    simpl in Hin. apply in_app_or in Hin.
    destruct Hin as [ Hin | [ <- | [] ] ]; [ left; exact Hin | ].
    right. exists s. split; [ left; reflexivity | reflexivity ].
  - right. exists s'. split; [ right; exact Hs' | exact Hrow ].
Qed.

Lemma geofence_keep_true (polygons : list Geofence.polygon) (ac : Aircraft) :
  geofence_keep polygons ac = Ok true ->
  exists la lo,
    lat ac = Some la /\ lon ac = Some lo
    /\ Qis_zero la = false /\ Qis_zero lo = false
    /\ Geofence.in_any_polygon (Some la) (Some lo) polygons = Ok true.
Proof.
  unfold geofence_keep, truthy.
  destruct (lat ac) as [ la | ]; [ | discriminate ].
  destruct (Qis_zero la) eqn:Ela; [ discriminate | ]. simpl.
  destruct (lon ac) as [ lo | ]; [ | discriminate ].
  destruct (Qis_zero lo) eqn:Elo; [ discriminate | ]. simpl.
  intros H. exists la, lo. repeat split; assumption.
Qed.

End GeofencedRows.

(** X30. With a geofence, every row a cycle hands to the CSV writer
    carries a position, neither coordinate being zero, and that position
    is inside one of the polygons. *)
Theorem X30_geofenced_rows_lie_inside
    (decode : Poller.json -> result Poller.Aircraft)
    (polygons : list Geofence.polygon) (cooldown interval : Z)
    (env : Poller.cycle_env) (last : gmap string Q)
    (out : Poller.cycle_outcome) :
  polygons <> [] ->
  Poller.poll_cycle decode polygons cooldown interval env last = Ok out ->
  forall row, In row (Poller.event_rows (Poller.cycle_state out)) ->
    exists la lo,
      Poller.row_lat row = Poller.CFloat la
      /\ Poller.row_lon row = Poller.CFloat lo
      /\ ~ la == 0 /\ ~ lo == 0
      /\ Geofence.in_any_polygon (Some la) (Some lo) polygons = Ok true.
Proof.
  intros Hpolys H row Hin.
  unfold Poller.poll_cycle in H. apply rbind_ok in H.
  destruct H as (aircraft & Hstep & H). injection H as <-.
  simpl in Hin. apply alert_loop_rows in Hin.
  destruct Hin as [ [] | ([ ac now_ts ] & Hs & ->) ].
  apply in_combine_l in Hs. cbn [fst].
  assert (Hkeep : Poller.geofence_keep polygons ac = Ok true).
  { destruct polygons as [ | p ps ]; [ contradiction | ].
    exact (geofence_filter_kept _ _ _ Hstep ac Hs). }
  destruct (geofence_keep_true polygons ac Hkeep)
    as (la & lo & Hla & Hlo & Zla & Zlo & Hinside).
  exists la, lo. unfold Poller.make_row. simpl.
  rewrite Hla, Hlo. unfold Poller.float_or_empty. rewrite Zla, Zlo.
  repeat split; try reflexivity.
  - apply Qis_zero_false. exact Zla.
  - apply Qis_zero_false. exact Zlo.
  - exact Hinside.
Qed.

Lemma X30_witness :
  let square : Geofence.polygon := [[(-1, -1); (-1, 1); (1, 1); (1, -1)]] in
  let decode := fun raw : Poller.json =>
    match raw with
    | Poller.JNum q => Ok (Poller.aircraft_at "abc123" (Some q) (Some (1 # 2)))
    | _ => Raise TypeError
    end in
  let env := {| Poller.feed := fun _ =>
                  Poller.HttpJson
                    (Poller.JList [Poller.JNum (1 # 2); Poller.JNum 5]);
                Poller.t0 := 1000000; Poller.now_str := "2024-03-15 10:00:00 UTC";
                Poller.clock := fun _ => 1000000; Poller.t_end := 1000001 |} in
  exists out,
    Poller.poll_cycle decode [square] 1800 60 env ∅ = Ok out
    /\ length (Poller.event_rows (Poller.cycle_state out)) = 1%nat
    /\ forall row, In row (Poller.event_rows (Poller.cycle_state out)) ->
         exists la lo,
           Poller.row_lat row = Poller.CFloat la
           /\ Poller.row_lon row = Poller.CFloat lo
           /\ ~ la == 0 /\ ~ lo == 0
           /\ Geofence.in_any_polygon (Some la) (Some lo) [square] = Ok true.
Proof.
  intros square decode env.
  destruct (Poller.poll_cycle decode [square] 1800 60 env ∅) as [ out | e ] eqn:E;
    [ | vm_compute in E; discriminate ].
  exists out. split; [ reflexivity | ]. split.
  - vm_compute in E. injection E as <-. reflexivity.
  - exact (X30_geofenced_rows_lie_inside decode [square] 1800 60 env ∅ out
             ltac:(discriminate) E).
Defined.
